(** * CiTrace player: a shallow embedding of [src/main.cpp]

    The player replays a recorded trace of GPU activity.  This development
    embeds the parts of [main.cpp] that build the initial-state command list
    and that iterate over the recorded stream, and proves properties of them.

    Conventions.
    - A [uint32_t] is a [Z] in [0, 2^32); arithmetic that can leave the range
      is wrapped with [u32].  Bit operations are [Z.land], [Z.lor],
      [Z.shiftl], [Z.shiftr].
    - The input file is a list of bytes read through a model of
      [std::ifstream] (position and fail bit).  Words are little endian, as on
      the ARM11 the program runs on.
    - Calls into the platform (network log, GSP/GX services, HID) are recorded
      as an ordered list of events; values read back from the hardware come
      from an oracle in the world.  The memory that loads and DMA transfers
      write to is not modelled, and neither are the calls the command-list
      vector makes to its allocator when it grows.
    - [citrace.h] is not part of the sources at hand: the header is a record of
      the fields [main.cpp] uses, stream elements are a sum type, and the size
      of a stream record is a parameter. *)

From Stdlib Require Import ZArith List Lia Bool.
From Stdlib.Strings Require Import Byte String.
From stdpp Require Import base list.
Import ListNotations.
Local Open Scope Z_scope.

(** ** Machine words *)

Definition u32 (x : Z) : Z := x mod 2 ^ 32.

(** Conversion to [u8], the type of the flags of [GX_ProcessCommandList]. *)
Definition u8 (x : Z) : Z := x mod 2 ^ 8.

(** Conversion of a [uint32_t] to [std::streamsize], a signed 32-bit
    integer on the target: the count of [istream::read]. *)
Definition streamsize (x : Z) : Z :=
  if u32 x <? 0x80000000 then u32 x else u32 x - 0x100000000.

(** Little-endian value of a group of bytes. *)
Fixpoint le_word (bs : list byte) : Z :=
  match bs with
  | [] => 0
  | b :: rest => Z.of_N (Byte.to_N b) + 256 * le_word rest
  end.

(** ** Memory map (the two anonymous enums of main.cpp) *)

Definition FCRAMStartVAddr : Z := 0x14000000.
Definition VRAMStartVAddr : Z := 0x1F000000.

Definition IO_AREA_PADDR : Z := 0x10100000.
Definition IO_AREA_SIZE : Z := 0x01000000.
Definition IO_AREA_PADDR_END : Z := IO_AREA_PADDR + IO_AREA_SIZE.

Definition VRAM_PADDR : Z := 0x18000000.
Definition VRAM_SIZE : Z := 0x00600000.
Definition VRAM_PADDR_END : Z := VRAM_PADDR + VRAM_SIZE.

Definition DSP_RAM_PADDR : Z := 0x1FF00000.
Definition DSP_RAM_SIZE : Z := 0x00080000.
Definition DSP_RAM_PADDR_END : Z := DSP_RAM_PADDR + DSP_RAM_SIZE.

Definition FCRAM_PADDR : Z := 0x20000000.
Definition FCRAM_SIZE : Z := 0x08000000.
Definition FCRAM_PADDR_END : Z := FCRAM_PADDR + FCRAM_SIZE.

Definition IO_AREA_VADDR : Z := 0x1EC00000.
Definition VRAM_VADDR : Z := 0x1F000000.
Definition DSP_RAM_VADDR : Z := 0x1FF00000.

(** [PhysicalToVirtualAddress] (main.cpp:120).  [None] stands for the path
    that falls out of the if-chain: the function prints "Unknown physical
    address", shuts the network log down and calls [std::terminate]; it does
    not return to its caller. *)
Definition PhysicalToVirtualAddress (physical_address : Z) : option Z :=
  if physical_address =? 0 then Some 0
  else if (VRAM_PADDR <=? physical_address) && (physical_address <? VRAM_PADDR_END)
  then Some (u32 (physical_address - VRAM_PADDR + VRAM_VADDR))
  else if (FCRAM_PADDR <=? physical_address) && (physical_address <? FCRAM_PADDR_END)
  then Some (u32 (physical_address - FCRAM_PADDR + FCRAMStartVAddr))
  else if (DSP_RAM_PADDR <=? physical_address) && (physical_address <? DSP_RAM_PADDR_END)
  then Some (u32 (physical_address - DSP_RAM_PADDR + DSP_RAM_VADDR))
  else if (IO_AREA_PADDR <=? physical_address) && (physical_address <? IO_AREA_PADDR_END)
  then Some (u32 (physical_address - IO_AREA_PADDR + IO_AREA_VADDR))
  else None.

(** The declared regions in the order the if-chain tests them, each with its
    physical bounds and the constant added by the translation.  This table
    follows the wording of the specification; [translate_by_table] is compared
    with [PhysicalToVirtualAddress] below. *)
Record Region := { r_start : Z; r_end : Z; r_delta : Z }.

Definition video_memory : Region :=
  {| r_start := VRAM_PADDR; r_end := VRAM_PADDR_END; r_delta := VRAM_VADDR - VRAM_PADDR |}.
Definition main_ram : Region :=
  {| r_start := FCRAM_PADDR; r_end := FCRAM_PADDR_END; r_delta := FCRAMStartVAddr - FCRAM_PADDR |}.
Definition dsp_memory : Region :=
  {| r_start := DSP_RAM_PADDR; r_end := DSP_RAM_PADDR_END; r_delta := DSP_RAM_VADDR - DSP_RAM_PADDR |}.
Definition io_registers : Region :=
  {| r_start := IO_AREA_PADDR; r_end := IO_AREA_PADDR_END; r_delta := IO_AREA_VADDR - IO_AREA_PADDR |}.

Definition declared_regions : list Region :=
  [video_memory; main_ram; dsp_memory; io_registers].

Definition in_region (r : Region) (p : Z) : bool :=
  (r_start r <=? p) && (p <? r_end r).

Definition first_containing (p : Z) : option Region :=
  List.find (fun r => in_region r p) declared_regions.

Definition translate_by_table (p : Z) : option Z :=
  if p =? 0 then Some 0
  else match first_containing p with
       | Some r => Some (p + r_delta r)
       | None => None
       end.

(** ** The register state mask (main.cpp:141) *)

Definition set_run (base : nat) (count : nat) (v : Z) (ret : list Z) : list Z :=
  foldl (fun acc i => <[(base + i)%nat := v]> acc) ret (seq 0 count).

Definition pica_register_state_mask : list Z :=
  let ret := replicate 0x300%nat 0 in
  let ret := <[0x40%nat := 0x1]> ret in
  let ret := <[0x41%nat := 0x7]> ret in
  let ret := <[0x43%nat := 0x7]> ret in
  let ret := <[0x4d%nat := 0x7]> ret in
  let ret := <[0x4e%nat := 0x7]> ret in
  let ret := set_run 0x50 7 0xF ret in
  let ret := <[0x68%nat := 0xF]> ret in
  let ret := <[0x80%nat := 0x1]> ret in
  let ret := <[0x82%nat := 0xF]> ret in
  let ret := <[0x83%nat := 0xF]> ret in
  let ret := <[0x85%nat := 0xF]> ret in
  let ret := <[0x8e%nat := 0x1]> ret in
  let ret := <[0x92%nat := 0xF]> ret in
  let ret := <[0x93%nat := 0xF]> ret in
  let ret := <[0x95%nat := 0xF]> ret in
  let ret := <[0x96%nat := 0x1]> ret in
  let ret := <[0x9a%nat := 0xF]> ret in
  let ret := <[0x9b%nat := 0xF]> ret in
  let ret := <[0x9d%nat := 0xF]> ret in
  let ret := <[0x9e%nat := 0x1]> ret in
  let ret := foldl (fun acc i =>
                      <[(0xf8 + i)%nat := 0xF]>
                        (<[(0xf0 + i)%nat := 0xF]>
                           (<[(0xd8 + i)%nat := 0xF]>
                              (<[(0xd0 + i)%nat := 0xF]>
                                 (<[(0xc8 + i)%nat := 0xF]>
                                    (<[(0xc0 + i)%nat := 0xF]> acc))))))
                   ret (seq 0 5) in
  let ret := <[0xe0%nat := 0xF]> ret in
  let ret := <[0xfd%nat := 0xF]> ret in
  let ret := <[0x100%nat := 0xF]> ret in
  let ret := <[0x101%nat := 0xF]> ret in
  let ret := <[0x102%nat := 0xF]> ret in
  let ret := <[0x103%nat := 0xF]> ret in
  let ret := <[0x104%nat := 0xF]> ret in
  let ret := <[0x106%nat := 0xF]> ret in
  let ret := <[0x116%nat := 0xF]> ret in
  let ret := <[0x117%nat := 0xF]> ret in
  let ret := <[0x11c%nat := 0xF]> ret in
  let ret := <[0x11d%nat := 0xF]> ret in
  let ret := <[0x11e%nat := 0xF]> ret in
  let ret := <[0x200%nat := 0xF]> ret in
  let ret := <[0x201%nat := 0xF]> ret in
  let ret := <[0x202%nat := 0xF]> ret in
  let ret := foldl (fun acc i =>
                      <[(0x205 + 3 * i)%nat := 0xF]>
                        (<[(0x204 + 3 * i)%nat := 0xF]>
                           (<[(0x203 + 3 * i)%nat := 0xF]> acc)))
                   ret (seq 0 12) in
  let ret := <[0x227%nat := 0xF]> ret in
  let ret := <[0x228%nat := 0xF]> ret in
  let ret := <[0x25e%nat := 0xF]> ret in
  let ret := <[0x2b0%nat := 0xF]> ret in
  let ret := <[0x2b1%nat := 0xF]> ret in
  let ret := <[0x2b2%nat := 0xF]> ret in
  let ret := <[0x2b3%nat := 0xF]> ret in
  let ret := <[0x2b4%nat := 0xF]> ret in
  let ret := <[0x2ba%nat := 0xF]> ret in
  let ret := <[0x2bb%nat := 0xF]> ret in
  let ret := <[0x2bc%nat := 0xF]> ret in
  let ret := <[0x2c0%nat := 0xF]> ret in
  let ret := <[0x2cb%nat := 0xF]> ret in
  let ret := <[0x2d5%nat := 0xF]> ret in
  ret.

(** [pica_register_state_mask[regid]]; the only use in main.cpp has
    [regid < 0x300]. *)
Definition state_mask (regid : Z) : Z :=
  default 0 (pica_register_state_mask !! Z.to_nat regid).


(** ** The 4-to-3 packing of float24 values

    The three expressions pushed at main.cpp:321/326/327 and again at
    main.cpp:347-349, on [uint32_t] operands ([<<] wraps). *)

Definition pack_word0 (v3 v2 : Z) : Z :=
  Z.lor (u32 (Z.shiftl v3 8)) (Z.land (Z.shiftr v2 16) 0xFF).

Definition pack_word1 (v2 v1 : Z) : Z :=
  Z.lor (u32 (Z.shiftl (Z.land v2 0xFFFF) 16)) (Z.land (Z.shiftr v1 8) 0xFFFF).

Definition pack_word2 (v1 v0 : Z) : Z :=
  Z.lor (u32 (Z.shiftl (Z.land v1 0xFF) 24)) (Z.land v0 0xFFFFFF).

Definition pack4to3 (v0 v1 v2 v3 : Z) : Z * Z * Z :=
  (pack_word0 v3 v2, pack_word1 v2 v1, pack_word2 v1 v0).

(** Modelled from the spec: the unpacking transform that corresponds to the
    packing is not part of the player (the GPU applies it); it is taken as the
    transform that gives back, for each of the four lanes, the 24-bit field the
    three packed words hold for it. *)
Definition unpack3to4 (w : Z * Z * Z) : Z * Z * Z * Z :=
  let '(word0, word1, word2) := w in
  (Z.land word2 0xFFFFFF,
   Z.lor (Z.shiftl (Z.land word1 0xFFFF) 8) (Z.shiftr word2 24),
   Z.lor (Z.shiftl (Z.land word0 0xFF) 16) (Z.shiftr word1 16),
   Z.shiftr word0 8).

(** The two readings of "24 bits of a sample". *)
Definition top24 (v : Z) : Z := Z.shiftr v 8.
Definition low24 (v : Z) : Z := Z.land v 0xFFFFFF.

(** ** The trace header and the stream elements (from their uses in main.cpp) *)

Record InitialStateOffsets := {
  gpu_registers : Z;        gpu_registers_size : Z;
  pica_registers : Z;       pica_registers_size : Z;
  default_attributes : Z;   default_attributes_size : Z;
  vs_program_binary : Z;    vs_program_binary_size : Z;
  vs_swizzle_data : Z;      vs_swizzle_data_size : Z;
  vs_float_uniforms : Z;    vs_float_uniforms_size : Z;
  gs_program_binary : Z;    gs_program_binary_size : Z;
  gs_swizzle_data : Z;      gs_swizzle_data_size : Z;
  gs_float_uniforms : Z;    gs_float_uniforms_size : Z
}.

Record CTHeader := {
  version : Z;
  initial_state_offsets : InitialStateOffsets;
  stream_offset : Z;
  stream_size : Z
}.

Record CTMemoryLoad := {
  ml_file_offset : Z;
  ml_size : Z;
  ml_physical_address : Z
}.

Inductive RegisterSize := SIZE_8 | SIZE_16 | SIZE_32 | SIZE_64 | SIZE_other.

Record CTRegisterWrite := {
  rw_physical_address : Z;
  rw_size : RegisterSize;
  rw_value : Z
}.

Inductive CTStreamElement :=
| FrameMarker
| MemoryLoad (memory_load : CTMemoryLoad)
| RegisterWrite (register_write : CTRegisterWrite)
| UnknownElement (type : Z).

(** ** The input stream: [std::ifstream]

    Only what main.cpp relies on: once a read hits the end of the file the
    fail bit is set and nothing clears it, so every later [seekg] and [read]
    does nothing. *)

Record ifstream := {
  contents : list byte;
  position : Z;
  failbit : bool
}.

Definition stream_seekg (off : Z) (s : ifstream) : ifstream :=
  if failbit s then s
  else {| contents := contents s; position := off; failbit := false |}.

(** [read(buf, n)]: the bytes stored into the buffer and the stream after. *)
Definition stream_read (n : Z) (s : ifstream) : list byte * ifstream :=
  if failbit s then ([], s)
  else
    let rest := drop (Z.to_nat (position s)) (contents s) in
    if n <=? Z.of_nat (length rest)
    then (take (Z.to_nat n) rest,
          {| contents := contents s; position := position s + n; failbit := false |})
    else (rest,
          {| contents := contents s;
             position := position s + Z.of_nat (length rest);
             failbit := true |}).

(** ** Events and the world *)

Inductive Buffer :=
| CommandListData
| ScratchBuffer
| Memory (vaddr : Z).

Inductive Message :=
| MsgUnknownPhysicalAddress (physical_address : Z)
| MsgSuccessfullyRead
| MsgCommandListLocation
| MsgInitializationDone
| MsgEndOfFrame
| MsgLoadVRAM (size file_offset physical_address vaddr : Z)
| MsgTransfer (size addr vaddr : Z)
| MsgLoad (size file_offset physical_address vaddr : Z)
| MsgTurnedOutUnknown
| MsgWriting (size value reg : Z) (register_name : string)
| MsgWriting64 (value_hi value_lo reg : Z) (register_name : string)
| MsgWaiting
| MsgUnknownElementType (type : Z).

(** The calls of the platform, with their arguments as the program passes
    them.  [GSPGPU_WriteHWRegs reg data size] is the call with the register
    offset, the content of the [uint32_t] local whose address is passed, and
    the size argument: with size 8 the service is handed eight bytes from
    the address of that four-byte local, and what lies behind the local is
    not part of the event.  [linearAlloc] and [linearFree] are recorded for
    the transfer buffer of a memory load; the calls the command-list vector
    makes through its allocator when it grows are not recorded. *)
Inductive Event :=
| NetworkPrint (m : Message)
| NetworkExit
| hidScanInput
| gfxInitDefault
| gfxSwapBuffersGpu
| gspWaitForVBlank
| linearAlloc (size : Z)
| linearFree
| input_read (dst : Buffer) (count : Z) (stored : list byte)
| GSPGPU_FlushDataCache (buf : Buffer) (size : Z)
| GX_RequestDma (dst size : Z)
| gspWaitForDMA
| GX_ProcessCommandList (vaddr size flags : Z)
| GSPGPU_WriteHWRegs (reg data size : Z)
| GSPGPU_ReadHWRegs (reg value : Z)
| svcSleepThread (ns : Z).

Record World := {
  input : ifstream;
  command_list : list Z;
  events : list Event;
  hw_reads : nat;
  key_polls : nat;
  (* the environment *)
  hw_value : nat -> Z;         (* what the n-th GSPGPU_ReadHWRegs stores *)
  start_down : nat -> bool;    (* whether the n-th keysDown() has KEY_START *)
  indeterminate : nat -> byte  (* content of uninitialised locals *)
}.

Definition with_input (s : ifstream) (w : World) : World :=
  {| input := s; command_list := command_list w; events := events w;
     hw_reads := hw_reads w; key_polls := key_polls w;
     hw_value := hw_value w; start_down := start_down w;
     indeterminate := indeterminate w |}.

Definition with_command_list (cl : list Z) (w : World) : World :=
  {| input := input w; command_list := cl; events := events w;
     hw_reads := hw_reads w; key_polls := key_polls w;
     hw_value := hw_value w; start_down := start_down w;
     indeterminate := indeterminate w |}.

Definition with_events (es : list Event) (w : World) : World :=
  {| input := input w; command_list := command_list w; events := es;
     hw_reads := hw_reads w; key_polls := key_polls w;
     hw_value := hw_value w; start_down := start_down w;
     indeterminate := indeterminate w |}.

Definition with_hw_reads (n : nat) (w : World) : World :=
  {| input := input w; command_list := command_list w; events := events w;
     hw_reads := n; key_polls := key_polls w;
     hw_value := hw_value w; start_down := start_down w;
     indeterminate := indeterminate w |}.

Definition with_key_polls (n : nat) (w : World) : World :=
  {| input := input w; command_list := command_list w; events := events w;
     hw_reads := hw_reads w; key_polls := n;
     hw_value := hw_value w; start_down := start_down w;
     indeterminate := indeterminate w |}.

(** ** The monad of the program

    A computation either returns, or the process ends in [std::terminate], or
    it indexes a vector out of range, or a loop outruns the fuel it was
    given. *)

Inductive Outcome (A : Type) : Type :=
| Done (a : A) (w : World)
| Terminated (w : World)
| Undefined
| OutOfFuel.

Arguments Done {A} a w.
Arguments Terminated {A} w.
Arguments Undefined {A}.
Arguments OutOfFuel {A}.

Definition M (A : Type) : Type := World -> Outcome A.

Definition ret {A} (a : A) : M A := fun w => Done a w.

Definition bind {A B} (c : M A) (k : A -> M B) : M B :=
  fun w =>
    match c w with
    | Done a w' => k a w'
    | Terminated w' => Terminated w'
    | Undefined => Undefined
    | OutOfFuel => OutOfFuel
    end.

Notation "x <- c ;; k" := (bind c (fun x => k))
  (at level 100, c at next level, k at level 200, right associativity).
Notation "c >> k" := (bind c (fun _ => k))
  (at level 100, k at level 200, right associativity).

Definition emit (e : Event) : M unit :=
  fun w => Done tt (with_events (events w ++ [e]) w).

Definition terminate {A} : M A := fun w => Terminated w.

Definition seekg (off : Z) : M unit :=
  fun w => Done tt (with_input (stream_seekg off (input w)) w).

(** [input.read(p, n)]: returns the bytes stored at [p]. *)
Definition read_bytes (n : Z) : M (list byte) :=
  fun w => let '(got, s) := stream_read n (input w) in Done got (with_input s w).

(** [input.read(p, n)] with a count that may be negative: for a negative
    count nothing is extracted and stored, and since the number of
    characters extracted differs from the count the fail bit is set. *)
Definition read_count (n : Z) : M (list byte) :=
  if n <? 0 then
    fun w => Done [] (with_input {| contents := contents (input w);
                                    position := position (input w);
                                    failbit := true |} w)
  else read_bytes n.

(** [input.read] into a buffer whose content before the call is [buf]: the
    bytes read overwrite a prefix, the rest keeps its content. *)
Definition read_into (buf : list byte) : M (list byte) :=
  got <- read_bytes (Z.of_nat (length buf)) ;;
  ret (got ++ drop (length got) buf).

(** An uninitialised local of [n] bytes. *)
Definition uninitialized (n : nat) : M (list byte) :=
  fun w => Done (map (indeterminate w) (seq 0 n)) w.

Definition push_back (x : Z) : M unit :=
  fun w => Done tt (with_command_list (command_list w ++ [x]) w).

Definition command_list_size : M Z :=
  fun w => Done (Z.of_nat (length (command_list w))) w.

(** [command_list[i]]. *)
Definition command_list_at (i : Z) : M Z :=
  fun w =>
    match command_list w !! Z.to_nat i with
    | Some x => Done x w
    | None => Undefined
    end.

(** [command_list.push_back({}); input.read((char* )&command_list.back(), 4)] *)
Definition push_back_read : M unit :=
  bytes <- read_into [x00; x00; x00; x00] ;;
  push_back (le_word bytes).

(** [values[i]] of a [uint32_t values[4]]. *)
Definition word_at (i : nat) (bytes : list byte) : Z :=
  le_word (take 4 (drop (4 * i) bytes)).

(** [uint32_t values[4]; input.read((char* )values, sizeof(values))] *)
Definition read_values : M (list byte) :=
  buf <- uninitialized 16 ;;
  read_into buf.

(** A counted [for] loop over the indices [l], carrying the locals that live
    across iterations. *)
Fixpoint for_loop {S : Type} (l : list Z) (s : S) (body : Z -> S -> M S) : M S :=
  match l with
  | [] => ret s
  | i :: rest => s' <- body i s ;; for_loop rest s' body
  end.

(** ** The initial-state command list (main.cpp:298-379) *)

(** The data command header of a float-uniform upload (main.cpp:323). *)
Definition float_uniform_header (pica_register_id num_words : Z) : Z :=
  Z.lor (Z.lor (u32 (pica_register_id + 1)) 0xF0000)
        (u32 (Z.shiftl (u32 (num_words / 4 * 3 - 1)) 20)).

(** The data command header of a raw upload (main.cpp:332). *)
Definition raw_header (pica_register_id num_words : Z) : Z :=
  Z.lor (Z.lor (u32 (pica_register_id + 1)) 0xF0000)
        (u32 (Z.shiftl (u32 (num_words - 1)) 20)).

(** The body of the float-uniform loop (main.cpp:318-327);
    [command_written] is the local that lives across iterations. *)
Definition float_uniform_body (pica_register_id num_words : Z)
    (index : Z) (command_written : bool) : M bool :=
  values <- read_values ;;
  push_back (pack_word0 (word_at 3 values) (word_at 2 values)) >>
  (if command_written then ret tt
   else push_back (float_uniform_header pica_register_id num_words)) >>
  push_back (pack_word1 (word_at 2 values) (word_at 1 values)) >>
  push_back (pack_word2 (word_at 1 values) (word_at 0 values)) >>
  ret true.

(** The lambda [SubmitInternalMemory] (main.cpp:301). *)
Definition SubmitInternalMemory
    (file_offset num_words pica_register_id : Z) (is_float_uniform : bool) : M unit :=
  if num_words =? 0 then ret tt
  else
    push_back 0 >>
    push_back (Z.lor pica_register_id 0xF0000) >>
    seekg file_offset >>
    if is_float_uniform then
      _ <- for_loop (seqZ 1 (num_words / 4 - 1)) false
             (float_uniform_body pica_register_id num_words) ;;
      ret tt
    else
      push_back_read >>
      push_back (raw_header pica_register_id num_words) >>
      for_loop (seqZ 1 (num_words - 1)) tt (fun index _ => push_back_read).

(** The command header of a default attribute (main.cpp:342). *)
Definition default_attribute_header : Z :=
  Z.lor (Z.lor 0x232 0xF0000) (Z.shiftl 3 20).

(** The body of the loop over the default vertex attributes
    (main.cpp:341-349). *)
Definition default_attribute_body (header : CTHeader) (i : Z) (_ : unit) : M unit :=
  let iso := initial_state_offsets header in
  push_back i >>
  push_back default_attribute_header >>
  buf <- uninitialized 16 ;;
  seekg (default_attributes iso) >>
  values <- read_into buf ;;
  push_back (pack_word0 (word_at 3 values) (word_at 2 values)) >>
  push_back (pack_word1 (word_at 2 values) (word_at 1 values)) >>
  push_back (pack_word2 (word_at 1 values) (word_at 0 values)).

(** The loop over the default vertex attributes (main.cpp:340-350). *)
Definition submit_default_attributes (header : CTHeader) : M unit :=
  let iso := initial_state_offsets header in
  for_loop (seqZ 0 (default_attributes_size iso / 4)) tt
    (default_attribute_body header).

(** The six uploads of main.cpp:351-356. *)
Definition submit_shader_setup (header : CTHeader) : M unit :=
  let iso := initial_state_offsets header in
  SubmitInternalMemory (gs_program_binary iso) (gs_program_binary_size iso) 0x29b false >>
  SubmitInternalMemory (gs_swizzle_data iso) (gs_swizzle_data_size iso) 0x2a5 false >>
  SubmitInternalMemory (gs_float_uniforms iso) (gs_float_uniforms_size iso) 0x290 true >>
  SubmitInternalMemory (vs_program_binary iso) (vs_program_binary_size iso) 0x2cb false >>
  SubmitInternalMemory (vs_swizzle_data iso) (vs_swizzle_data_size iso) 0x2d5 false >>
  SubmitInternalMemory (vs_float_uniforms iso) (vs_float_uniforms_size iso) 0x2c0 true.

(** The body of the loop over the register snapshot (main.cpp:364-370). *)
Definition pica_register_body (regid : Z) (_ : unit) : M unit :=
  buf <- uninitialized 4 ;;
  value <- read_into buf ;;
  if state_mask regid =? 0 then ret tt
  else
    push_back (le_word value) >>
    push_back (Z.lor regid (Z.shiftl (state_mask regid) 16)).

(** The register snapshot (main.cpp:361-371). *)
Definition submit_pica_registers (header : CTHeader) : M unit :=
  let iso := initial_state_offsets header in
  seekg (pica_registers iso) >>
  let num_pica_registers :=
    Z.min (Z.of_nat (length pica_register_state_mask)) (pica_registers_size iso) in
  for_loop (seqZ 0 num_pica_registers) tt pica_register_body.

(** The padding loop (main.cpp:374-379).  One unit of fuel per iteration. *)
Fixpoint pad_command_list (fuel : nat) : M unit :=
  size <- command_list_size ;;
  if size mod (16 / 4) =? 0 then ret tt
  else
    match fuel with
    | O => fun _ => OutOfFuel
    | S fuel' =>
        x <- command_list_at (u32 (size - 2)) ;;
        push_back x >>
        size' <- command_list_size ;;
        y <- command_list_at (u32 (size' - 2)) ;;
        push_back y >>
        pad_command_list fuel'
    end.

Definition build_initial_state (fuel : nat) (header : CTHeader) : M unit :=
  submit_default_attributes header >>
  submit_shader_setup header >>
  submit_pica_registers header >>
  pad_command_list fuel.

Section Setup.

(** [sizeof(CiTrace::CTStreamElement)]; the type is declared in citrace.h. *)
Variable sizeof_CTStreamElement : nat.

(** Reading the stream into local memory (main.cpp:290-293).  The records
    are kept as the bytes the vector holds. *)
Definition read_stream (header : CTHeader) : M (list (list byte)) :=
  let stream :=
    replicate (Z.to_nat (stream_size header)) (replicate sizeof_CTStreamElement x00) in
  seekg (stream_offset header) >>
  for_loop (seqZ 0 (stream_size header)) stream
    (fun i stream =>
       match stream !! Z.to_nat i with
       | Some record =>
           record' <- read_into record ;;
           ret (<[Z.to_nat i := record']> stream)
       | None => fun _ => Undefined
       end).

(** main.cpp:289-389: from the header checks to the start of playback.
    Returns the stream held in memory. *)
Definition main_setup (fuel : nat) (header : CTHeader) : M (list (list byte)) :=
  stream <- read_stream header ;;
  emit (NetworkPrint MsgSuccessfullyRead) >>
  build_initial_state fuel header >>
  size <- command_list_size ;;
  emit (GSPGPU_FlushDataCache CommandListData (u32 (size * 4))) >>
  emit gfxInitDefault >>
  emit (NetworkPrint MsgCommandListLocation) >>
  emit (NetworkPrint MsgInitializationDone) >>
  ret stream.

End Setup.

(** ** Playback of the stream (main.cpp:411-556) *)

(** [PhysicalToVirtualAddress] as called: the failing path logs, closes the
    network log and terminates the process. *)
Definition translate (physical_address : Z) : M Z :=
  match PhysicalToVirtualAddress physical_address with
  | Some vaddr => ret vaddr
  | None =>
      emit (NetworkPrint (MsgUnknownPhysicalAddress physical_address)) >>
      emit NetworkExit >>
      terminate
  end.

Definition ReadHWRegs (reg : Z) : M Z :=
  fun w =>
    let v := u32 (hw_value w (hw_reads w)) in
    Done v (with_events (events w ++ [GSPGPU_ReadHWRegs reg v])
                        (with_hw_reads (S (hw_reads w)) w)).

(** [keysDown() & KEY_START] *)
Definition keysDown_START : M bool :=
  fun w => Done (start_down w (key_polls w)) (with_key_polls (S (key_polls w)) w).

Definition TransferBufferSize : Z := 1024.

(** The DMA loop (main.cpp:441-454).  One unit of fuel per chunk. *)
Fixpoint transfer_chunks (fuel : nat) (remaining addr : Z) : M unit :=
  match fuel with
  | O => fun _ => OutOfFuel
  | S fuel' =>
      let size := Z.min TransferBufferSize remaining in
      vaddr <- translate addr ;;
      emit (NetworkPrint (MsgTransfer size addr vaddr)) >>
      stored <- read_bytes size ;;
      emit (input_read ScratchBuffer size stored) >>
      emit (GSPGPU_FlushDataCache ScratchBuffer size) >>
      vaddr' <- translate addr ;;
      emit (GX_RequestDma vaddr' size) >>
      emit gspWaitForDMA >>
      if remaining <=? TransferBufferSize then ret tt
      else transfer_chunks fuel' (u32 (remaining - TransferBufferSize))
                                 (u32 (addr + TransferBufferSize))
  end.

(** The [MemoryLoad] case (main.cpp:423-472).  In the direct branch the
    [uint32_t] size is converted to the signed count of [istream::read].
    What is stored is recorded as an event; the memory it lands in is not
    modelled, so nothing here says what a load does to the objects that live
    at the destination (the linear heap, where the command list is
    allocated, is part of main RAM). *)
Definition play_memory_load (fuel : nat) (memory_load : CTMemoryLoad) : M unit :=
  seekg (ml_file_offset memory_load) >>
  if (VRAM_PADDR <=? ml_physical_address memory_load)
     && (ml_physical_address memory_load <? VRAM_PADDR_END)
  then
    emit (linearAlloc TransferBufferSize) >>
    vaddr <- translate (ml_physical_address memory_load) ;;
    emit (NetworkPrint (MsgLoadVRAM (ml_size memory_load) (ml_file_offset memory_load)
                                    (ml_physical_address memory_load) vaddr)) >>
    transfer_chunks fuel (ml_size memory_load) (ml_physical_address memory_load) >>
    emit linearFree
  else
    vaddr <- translate (ml_physical_address memory_load) ;;
    emit (NetworkPrint (MsgLoad (ml_size memory_load) (ml_file_offset memory_load)
                                (ml_physical_address memory_load) vaddr)) >>
    dest <- translate (ml_physical_address memory_load) ;;
    if dest =? 0 then
      emit (NetworkPrint MsgTurnedOutUnknown)
    else
      stored <- read_count (streamsize (ml_size memory_load)) ;;
      emit (input_read (Memory dest) (streamsize (ml_size memory_load)) stored) >>
      emit (GSPGPU_FlushDataCache (Memory dest) (ml_size memory_load)).

Definition register_write_size (s : RegisterSize) : Z :=
  match s with
  | SIZE_8 => 1
  | SIZE_16 => 2
  | SIZE_32 => 4
  | SIZE_64 => 8
  | SIZE_other => 0
  end.

Definition register_name (physical_address : Z) : string :=
  if physical_address =? 0x1040001C then "Memory Fill Control 1"
  else if physical_address =? 0x1040002C then "Memory Fill Control 2"
  else if physical_address =? 0x104018E0 then "Command List Size"
  else if physical_address =? 0x104018E8 then "Command List Address"
  else if physical_address =? 0x104018F0 then "Command List Trigger"
  else "".

(** [physical_address - 0x10100000 + 0x1EC00000 - 0x1EB00000] *)
Definition hw_register (physical_address : Z) : Z :=
  u32 (physical_address - 0x10100000 + 0x1EC00000 - 0x1EB00000).

(** Whether a register write starts an operation (main.cpp:533-536). *)
Definition triggers_operation (physical_address : Z) : bool :=
  (physical_address =? 0x1040001C) || (physical_address =? 0x1040002C)
  || (physical_address =? 0x10400C18) || (physical_address =? 0x104018F0).

(** The [do ... while (count++ < 100)] loop (main.cpp:541-547).  One unit of
    fuel per iteration. *)
Fixpoint wait_for_completion (fuel : nat) (reg : Z) (count : Z) : M unit :=
  match fuel with
  | O => fun _ => OutOfFuel
  | S fuel' =>
      val <- ReadHWRegs reg ;;
      if negb (Z.land val 1 =? 0) then ret tt
      else
        emit (svcSleepThread 1000) >>
        if count <? 100 then wait_for_completion fuel' reg (count + 1)
        else ret tt
  end.

(** The [RegisterWrite] case (main.cpp:474-550).  The value of the element
    reaches [GX_ProcessCommandList] through its [u8] flags parameter. *)
Definition play_register_write (fuel : nat) (register_write : CTRegisterWrite) : M unit :=
  let physical_address := rw_physical_address register_write in
  let size := register_write_size (rw_size register_write) in
  let name := register_name physical_address in
  let data := Z.land (rw_value register_write) 0xFFFFFFFF in
  (if size <=? 4 then
     (* debug_strings.at(size) throws for a size that is not a key *)
     if (size =? 1) || (size =? 2) || (size =? 4)
     then emit (NetworkPrint (MsgWriting size data (hw_register physical_address) name))
     else terminate
   else
     emit (NetworkPrint (MsgWriting64 (u32 (Z.shiftr (rw_value register_write) 32)) data
                                      (hw_register physical_address) name))) >>
  (if physical_address =? 0x104018F0 then
     size' <- ReadHWRegs (hw_register 0x104018E0) ;;
     addr <- ReadHWRegs (hw_register 0x104018E8) ;;
     vaddr <- translate (u32 (addr * 8)) ;;
     emit (GX_ProcessCommandList vaddr size' (u8 (rw_value register_write)))
   else
     emit (GSPGPU_WriteHWRegs (hw_register physical_address) data size)) >>
  if triggers_operation physical_address then
    emit (NetworkPrint MsgWaiting) >>
    wait_for_completion fuel (hw_register physical_address) 0
  else ret tt.

(** How the body of the stream loop leaves: on to the next element, or
    [goto exit]. *)
Inductive Control := NextElement | GotoExit.

(** The [switch] on the element type (main.cpp:416-555). *)
Definition play_element (fuel : nat) (stream_element : CTStreamElement) : M Control :=
  match stream_element with
  | FrameMarker =>
      emit (NetworkPrint MsgEndOfFrame) >>
      emit gfxSwapBuffersGpu >>
      emit gspWaitForVBlank >>
      ret NextElement
  | MemoryLoad memory_load =>
      play_memory_load fuel memory_load >> ret NextElement
  | RegisterWrite register_write =>
      play_register_write fuel register_write >> ret NextElement
  | UnknownElement type =>
      emit (NetworkPrint (MsgUnknownElementType type)) >> ret GotoExit
  end.

(** The loop over the stream (main.cpp:411-556). *)
Fixpoint play_stream (fuel : nat) (stream : list CTStreamElement) : M Control :=
  match stream with
  | [] => ret NextElement
  | stream_element :: rest =>
      emit hidScanInput >>
      start <- keysDown_START ;;
      if start then ret GotoExit
      else
        c <- play_element fuel stream_element ;;
        match c with
        | NextElement => play_stream fuel rest
        | GotoExit => ret GotoExit
        end
  end.

(** ** Definitions used in the statements *)

(** The world when the header has been read and checked: the file open at
    some position, nothing logged, an empty command list. *)
Definition opened (file : list byte) (pos : Z)
    (hw : nat -> Z) (keys : nat -> bool) (garbage : nat -> byte) : World :=
  {| input := {| contents := file; position := pos; failbit := false |};
     command_list := []; events := [];
     hw_reads := 0; key_polls := 0;
     hw_value := hw; start_down := keys; indeterminate := garbage |}.

Definition log (es : list Event) (w : World) : World :=
  with_events (events w ++ es) w.

(** A header whose fields are all zero. *)
Definition no_initial_state : InitialStateOffsets :=
  {| gpu_registers := 0; gpu_registers_size := 0;
     pica_registers := 0; pica_registers_size := 0;
     default_attributes := 0; default_attributes_size := 0;
     vs_program_binary := 0; vs_program_binary_size := 0;
     vs_swizzle_data := 0; vs_swizzle_data_size := 0;
     vs_float_uniforms := 0; vs_float_uniforms_size := 0;
     gs_program_binary := 0; gs_program_binary_size := 0;
     gs_swizzle_data := 0; gs_swizzle_data_size := 0;
     gs_float_uniforms := 0; gs_float_uniforms_size := 0 |}.

(** The [uint32_t] at byte offset [off] of the file. *)
Definition file_word (file : list byte) (off : Z) : Z :=
  le_word (take 4 (drop (Z.to_nat off) file)).

(** The three words packed from the four [uint32_t] at byte offset [off]. *)
Definition packed_at (file : list byte) (off : Z) : list Z :=
  [pack_word0 (file_word file (off + 12)) (file_word file (off + 8));
   pack_word1 (file_word file (off + 8)) (file_word file (off + 4));
   pack_word2 (file_word file (off + 4)) (file_word file off)].

(** What a read of [n] bytes at offset [off] obtains from the stream. *)
Definition bytes_at (s : ifstream) (off n : Z) : list byte :=
  fst (stream_read n (stream_seekg off s)).

(** The sizes of the DMA requests among the events. *)
Definition dma_sizes (es : list Event) : list Z :=
  flat_map (fun e => match e with GX_RequestDma _ size => [size] | _ => [] end) es.

(** The number of register read-backs among the events. *)
Definition read_backs (es : list Event) : nat :=
  length (List.filter (fun e => match e with GSPGPU_ReadHWRegs _ _ => true | _ => false end) es).

(** The words one default-attribute slot appends, when the four source
    words are in the file. *)
Definition default_attribute_slot (file : list byte) (header : CTHeader) (i : Z) : list Z :=
  [i; default_attribute_header]
    ++ packed_at file (default_attributes (initial_state_offsets header)).

(** The packed words of [k] consecutive groups of four source words. *)
Fixpoint groups_from (file : list byte) (off : Z) (k : nat) : list Z :=
  match k with
  | O => []
  | S k' => packed_at file off ++ groups_from file (off + 16) k'
  end.

(** A data stream with its command header: the header comes second, after
    the first data word. *)
Definition insert_after_first (hdr : Z) (l : list Z) : list Z :=
  match l with
  | [] => []
  | a :: rest => a :: hdr :: rest
  end.

(** The number of chunks of a transfer of [size] bytes, and the size of the
    [i]-th of them. *)
Definition chunk_count (size : Z) : Z :=
  if size <=? TransferBufferSize then 1
  else (size + TransferBufferSize - 1) / TransferBufferSize.

Definition chunk_size (size i : Z) : Z :=
  if i <? chunk_count size - 1 then TransferBufferSize
  else size - TransferBufferSize * (chunk_count size - 1).

(** Inputs the statements are tried on. *)

Definition header_of (iso : InitialStateOffsets) (offset size : Z) : CTHeader :=
  {| version := 1; initial_state_offsets := iso;
     stream_offset := offset; stream_size := size |}.

Definition with_default_attributes (off size : Z) : InitialStateOffsets :=
  {| gpu_registers := 0; gpu_registers_size := 0;
     pica_registers := 0; pica_registers_size := 0;
     default_attributes := off; default_attributes_size := size;
     vs_program_binary := 0; vs_program_binary_size := 0;
     vs_swizzle_data := 0; vs_swizzle_data_size := 0;
     vs_float_uniforms := 0; vs_float_uniforms_size := 0;
     gs_program_binary := 0; gs_program_binary_size := 0;
     gs_swizzle_data := 0; gs_swizzle_data_size := 0;
     gs_float_uniforms := 0; gs_float_uniforms_size := 0 |}.

Definition with_gs_program_binary (off size : Z) : InitialStateOffsets :=
  {| gpu_registers := 0; gpu_registers_size := 0;
     pica_registers := 0; pica_registers_size := 0;
     default_attributes := 0; default_attributes_size := 0;
     vs_program_binary := 0; vs_program_binary_size := 0;
     vs_swizzle_data := 0; vs_swizzle_data_size := 0;
     vs_float_uniforms := 0; vs_float_uniforms_size := 0;
     gs_program_binary := off; gs_program_binary_size := size;
     gs_swizzle_data := 0; gs_swizzle_data_size := 0;
     gs_float_uniforms := 0; gs_float_uniforms_size := 0 |}.

(** A file of the 32 bytes 01, 02, ..., 20 (hexadecimal). *)
Definition sample_file : list byte :=
  [x01; x02; x03; x04; x05; x06; x07; x08; x09; x0a; x0b; x0c; x0d; x0e; x0f; x10;
   x11; x12; x13; x14; x15; x16; x17; x18; x19; x1a; x1b; x1c; x1d; x1e; x1f; x20].

(** A world on [file]: hardware reads give 0, START is never down,
    uninitialised bytes are AA. *)
Definition sample_world (file : list byte) : World :=
  opened file 0 (fun _ => 0) (fun _ => false) (fun _ => xaa).

(** An address that is not 0 and lies in no declared region. *)
Definition untranslatable (p : Z) : Prop :=
  p <> 0 /\ forall r, In r declared_regions -> in_region r p = false.

(** The events of the [i]-th chunk of a transfer of [size] bytes from file
    offset [off] of the stream [s] to the physical address [addr] in video
    memory. *)
Definition chunk_events (s : ifstream) (off addr size : Z) (i : Z) : list Event :=
  let n := chunk_size size i in
  let a := addr + TransferBufferSize * i in
  let vaddr := a + r_delta video_memory in
  [NetworkPrint (MsgTransfer n a vaddr);
   input_read ScratchBuffer n (bytes_at s (off + TransferBufferSize * i) n);
   GSPGPU_FlushDataCache ScratchBuffer n;
   GX_RequestDma vaddr n;
   gspWaitForDMA].

Definition sum_list (l : list Z) : Z := foldr Z.add 0 l.

(** The stream [s] answers reads as [s0] would at offset [p]: either [s0]
    had failed already, or [s] is good at [p], or [s] has failed on the way
    and [p] is past the end of the file. *)
Definition reads_as (s0 : ifstream) (p : Z) (s : ifstream) : Prop :=
  contents s = contents s0 /\
  ((failbit s0 = true /\ failbit s = true) \/
   (failbit s0 = false /\ failbit s = false /\ position s = p) \/
   (failbit s0 = false /\ failbit s = true /\ Z.of_nat (length (contents s0)) <= p)).

(** ** Further definitions used in the statements *)

(** [k] consecutive [uint32_t] of the file from byte offset [off]. *)
Fixpoint words_from (file : list byte) (off : Z) (k : nat) : list Z :=
  match k with
  | O => []
  | S k' => file_word file off :: words_from file (off + 4) k'
  end.

(** The words the register snapshot appends for the register [regid], when
    the snapshot at byte offset [off] is in the file. *)
Definition register_commands (file : list byte) (off regid : Z) : list Z :=
  if state_mask regid =? 0 then []
  else [file_word file (off + 4 * regid);
        Z.lor regid (Z.shiftl (state_mask regid) 16)].

(** The number of registers below [n] whose mask is not 0. *)
Definition stateful_count (n : Z) : Z :=
  Z.of_nat (length (List.filter (fun regid => negb (state_mask regid =? 0)) (seqZ 0 n))).

(** The number of words each step of the builder appends, from the header
    alone. *)
Definition raw_upload_length (num_words : Z) : Z :=
  if num_words =? 0 then 0 else num_words + 3.

Definition float_upload_length (num_words : Z) : Z :=
  if num_words =? 0 then 0
  else if num_words / 4 <? 2 then 2
  else 3 * (num_words / 4).

Definition initial_state_length (header : CTHeader) : Z :=
  let iso := initial_state_offsets header in
  5 * (default_attributes_size iso / 4)
  + raw_upload_length (gs_program_binary_size iso)
  + raw_upload_length (gs_swizzle_data_size iso)
  + float_upload_length (gs_float_uniforms_size iso)
  + raw_upload_length (vs_program_binary_size iso)
  + raw_upload_length (vs_swizzle_data_size iso)
  + float_upload_length (vs_float_uniforms_size iso)
  + 2 * stateful_count (Z.min 0x300 (pica_registers_size iso)).

(** The size fields of a header are unsigned. *)
Definition sizes_unsigned (header : CTHeader) : Prop :=
  let iso := initial_state_offsets header in
  0 <= default_attributes_size iso /\
  0 <= gs_program_binary_size iso /\
  0 <= gs_swizzle_data_size iso /\
  0 <= gs_float_uniforms_size iso /\
  0 <= vs_program_binary_size iso /\
  0 <= vs_swizzle_data_size iso /\
  0 <= vs_float_uniforms_size iso /\
  0 <= pica_registers_size iso.

(** The three steps of [build_initial_state] that come before the padding. *)
Definition emit_initial_state (header : CTHeader) : M unit :=
  submit_default_attributes header >>
  submit_shader_setup header >>
  submit_pica_registers header.

(** [w'] is [w] after some reads from the file and with [extra] appended to
    the command list. *)
Definition built (w w' : World) (extra : list Z) : Prop :=
  exists s, w' = with_command_list (command_list w ++ extra) (with_input s w).

(** The [i]-th stream record of [size] bytes in the file, the stream
    starting at byte offset [off]. *)
Definition record_at (file : list byte) (off : Z) (size : nat) (i : Z) : list byte :=
  take size (drop (Z.to_nat (off + i * Z.of_nat size)) file).

(** The events of a wait that sees the low bit clear [m] times and then set:
    [m] read-backs each followed by a sleep, and the read-back that ends the
    wait. *)
Definition poll_events (reg : Z) (w : World) (m : nat) : list Event :=
  flat_map (fun j => [GSPGPU_ReadHWRegs reg (u32 (hw_value w (hw_reads w + j)));
                      svcSleepThread 1000]) (seq 0 m)
  ++ [GSPGPU_ReadHWRegs reg (u32 (hw_value w (hw_reads w + m)))].

(** The number of direct register writes among the events. *)
Definition hw_writes (es : list Event) : nat :=
  length (List.filter (fun e => match e with GSPGPU_WriteHWRegs _ _ _ => true | _ => false end) es).

(** Priming the command-list registers at the start of a playback session
    (main.cpp:402-409): the snapshot of the GPU registers is read into a
    vector of [gpu_registers_size] words and the words at the byte offsets
    0x18E0 and 0x18E8 are written to the hardware. *)
Definition prime_command_list_registers (header : CTHeader) : M unit :=
  let iso := initial_state_offsets header in
  let gpu_regs := replicate (Z.to_nat (gpu_registers_size iso)) 0 in
  seekg (gpu_registers iso) >>
  gpu_regs <- for_loop (seqZ 0 (gpu_registers_size iso)) gpu_regs
                (fun i gpu_regs =>
                   bytes <- read_into [x00; x00; x00; x00] ;;
                   ret (<[Z.to_nat i := le_word bytes]> gpu_regs)) ;;
  match gpu_regs !! Z.to_nat (0x18E0 / 4) with
  | None => fun _ => Undefined
  | Some size =>
      emit (GSPGPU_WriteHWRegs (hw_register 0x104018E0) size 4) >>
      match gpu_regs !! Z.to_nat (0x18E8 / 4) with
      | None => fun _ => Undefined
      | Some addr => emit (GSPGPU_WriteHWRegs (hw_register 0x104018E8) addr 4)
      end
  end.

(** A header whose GPU register snapshot has 0x640 words at offset 0, and a
    file of 0x1900 bytes to go with it. *)
Definition header_with_gpu_registers : CTHeader :=
  header_of
    {| gpu_registers := 0; gpu_registers_size := 0x640;
       pica_registers := 0; pica_registers_size := 0;
       default_attributes := 0; default_attributes_size := 0;
       vs_program_binary := 0; vs_program_binary_size := 0;
       vs_swizzle_data := 0; vs_swizzle_data_size := 0;
       vs_float_uniforms := 0; vs_float_uniforms_size := 0;
       gs_program_binary := 0; gs_program_binary_size := 0;
       gs_swizzle_data := 0; gs_swizzle_data_size := 0;
       gs_float_uniforms := 0; gs_float_uniforms_size := 0 |} 0 0.

Definition gpu_register_file : list byte := replicate 0x1900%nat x01.

(** A computation that comes to an end from any world, every call of the
    platform taken to return: it returns or terminates the process, and
    neither outruns its fuel nor reads a vector out of range. *)
Definition ends {A} (c : M A) : Prop :=
  forall w, match c w with Done _ _ | Terminated _ => True | _ => False end.

(** The fuel that is enough for an element: a register write polls at most
    101 times, a memory load takes one turn of the DMA loop for every
    [TransferBufferSize] bytes. *)
Definition fuel_for (fuel : nat) (e : CTStreamElement) : Prop :=
  (101 <= fuel)%nat /\
  match e with
  | MemoryLoad memory_load => ml_size memory_load <= TransferBufferSize * Z.of_nat fuel
  | _ => True
  end.

(** The [i]-th stream record as the read leaves it when the file may end
    early: the bytes the file has at its place, followed by zeros up to
    [size] bytes. *)
Definition padded_record_at (file : list byte) (off : Z) (size : nat) (i : Z) : list byte :=
  let record := record_at file off size i in
  record ++ replicate (size - length record) x00.

(** * Theorems *)

Ltac split_comparisons :=
  repeat match goal with
         | |- context [?a =? ?b] => destruct (Z.eqb_spec a b)
         | |- context [?a <=? ?b] => destruct (Z.leb_spec a b)
         | |- context [?a <? ?b] => destruct (Z.ltb_spec a b)
         end.

Ltac unfold_memory_map :=
  unfold video_memory, main_ram, dsp_memory, io_registers,
    VRAM_PADDR_END, FCRAM_PADDR_END, DSP_RAM_PADDR_END, IO_AREA_PADDR_END,
    VRAM_PADDR, VRAM_SIZE, FCRAM_PADDR, FCRAM_SIZE, DSP_RAM_PADDR, DSP_RAM_SIZE,
    IO_AREA_PADDR, IO_AREA_SIZE, VRAM_VADDR, FCRAMStartVAddr, DSP_RAM_VADDR,
    IO_AREA_VADDR in *; cbn [r_start r_end r_delta] in *.

Lemma u32_small (x : Z) : 0 <= x < 4294967296 -> u32 x = x.
Proof.
  intros H. unfold u32. apply Z.mod_small.
  change (2 ^ 32) with 4294967296. exact H.
Qed.

Lemma u32_range (x : Z) : 0 <= u32 x < 4294967296.
Proof.
  unfold u32. change (2 ^ 32) with 4294967296. apply Z.mod_pos_bound. lia.
Qed.

(** ** The address translator *)

(** The if-chain of [PhysicalToVirtualAddress] is the table lookup "first
    declared region that contains the address, plus its delta". *)
Lemma translate_agrees_with_table (p : Z) :
  0 <= p < 4294967296 -> PhysicalToVirtualAddress p = translate_by_table p.
Proof.
  intros Hp.
  unfold PhysicalToVirtualAddress, translate_by_table, first_containing,
    declared_regions.
  cbn [List.find]. unfold in_region.
  unfold_memory_map.
  split_comparisons; cbn [andb]; unfold_memory_map; try reflexivity; try lia;
    (f_equal; rewrite u32_small; lia).
Qed.

Lemma translate_in_region (r : Region) (p : Z) :
  In r declared_regions -> in_region r p = true ->
  first_containing p = Some r /\
  PhysicalToVirtualAddress p = Some (p + r_delta r) /\
  p + r_delta r <> 0.
Proof.
  intros Hr Hin.
  unfold in_region in Hin. apply andb_true_iff in Hin as [H1 H2].
  apply Z.leb_le in H1. apply Z.ltb_lt in H2.
  unfold first_containing, PhysicalToVirtualAddress, declared_regions,
    in_region, List.find in *.
  destruct Hr as [<-|[<-|[<-|[<-|[]]]]]; unfold_memory_map;
    split_comparisons; cbn [andb]; try lia;
    (split; [reflexivity|split; [f_equal; rewrite u32_small; lia|lia]]).
Qed.

(** C6. Address 0 translates to 0; an address inside a declared region
    translates to itself plus the constant delta of that region, which is the
    first region of the fixed order that contains it, and the result is never
    0, so 0 stands apart from every translated address of a region. *)
Theorem translate_affine_per_region :
  PhysicalToVirtualAddress 0 = Some 0 /\
  forall (r : Region) (p : Z),
    In r declared_regions -> in_region r p = true ->
    first_containing p = Some r /\
    PhysicalToVirtualAddress p = Some (p + r_delta r) /\
    p + r_delta r <> 0.
Proof.
  split; [reflexivity|]. exact translate_in_region.
Qed.

Lemma translate_affine_per_region_witness :
  first_containing 0x20000010 = Some main_ram /\
  PhysicalToVirtualAddress 0x20000010 = Some (0x20000010 + r_delta main_ram) /\
  0x20000010 + r_delta main_ram <> 0.
Proof.
  apply (proj2 translate_affine_per_region main_ram 0x20000010).
  - simpl. right. left. reflexivity.
  - reflexivity.
Defined.

(** ** The 4-to-3 packing *)

Ltac bit_step :=
  first
    [ rewrite Z.lor_spec | rewrite Z.land_spec
    | rewrite Z.testbit_mod_pow2 by lia
    | rewrite Z.testbit_ones by lia
    | rewrite Z.testbit_neg_r by lia
    | rewrite Z.shiftr_spec by lia
    | rewrite Z.shiftl_spec by lia
    | progress split_comparisons
    | progress cbn [andb orb]
    | match goal with
      | |- context [Z.testbit (Z.shiftl _ _) ?k] => destruct (Z.lt_ge_cases k 0)
      | |- context [Z.testbit (Z.shiftr _ _) ?k] => destruct (Z.lt_ge_cases k 0)
      end ].

Ltac bitwise :=
  apply Z.bits_inj'; intros i Hi;
  unfold u32;
  change 0xFF with (Z.ones 8); change 0xFFFF with (Z.ones 16);
  change 0xFFFFFF with (Z.ones 24);
  repeat bit_step;
  rewrite ?andb_true_r, ?andb_false_r, ?orb_false_r, ?orb_true_r;
  try lia; try reflexivity;
  try (f_equal; lia).

Lemma unpack_lane3 (v3 v2 : Z) : Z.shiftr (pack_word0 v3 v2) 8 = low24 v3.
Proof. unfold pack_word0, low24. bitwise. Qed.

Lemma unpack_lane2 (v3 v2 v1 : Z) :
  Z.lor (Z.shiftl (Z.land (pack_word0 v3 v2) 0xFF) 16)
        (Z.shiftr (pack_word1 v2 v1) 16) = low24 v2.
Proof. unfold pack_word0, pack_word1, low24. bitwise. Qed.

Lemma unpack_lane1 (v2 v1 v0 : Z) :
  Z.lor (Z.shiftl (Z.land (pack_word1 v2 v1) 0xFFFF) 8)
        (Z.shiftr (pack_word2 v1 v0) 24) = low24 v1.
Proof. unfold pack_word1, pack_word2, low24. bitwise. Qed.

Lemma unpack_lane0 (v1 v0 : Z) : Z.land (pack_word2 v1 v0) 0xFFFFFF = low24 v0.
Proof. unfold pack_word2, low24. bitwise. Qed.

(** C7, as amended. The three packed words are the stated expressions, and
    unpacking them gives back the low 24 bits of each of the four values: the
    top 8 bits of each value are what the packing drops. *)
Theorem pack_unpack_low24 (v0 v1 v2 v3 : Z) :
  pack4to3 v0 v1 v2 v3 =
    (Z.lor (u32 (Z.shiftl v3 8)) (Z.land (Z.shiftr v2 16) 0xFF),
     Z.lor (u32 (Z.shiftl (Z.land v2 0xFFFF) 16)) (Z.land (Z.shiftr v1 8) 0xFFFF),
     Z.lor (u32 (Z.shiftl (Z.land v1 0xFF) 24)) (Z.land v0 0xFFFFFF)) /\
  unpack3to4 (pack4to3 v0 v1 v2 v3) = (low24 v0, low24 v1, low24 v2, low24 v3).
Proof.
  split; [reflexivity|].
  unfold unpack3to4, pack4to3.
  rewrite unpack_lane0, unpack_lane1, unpack_lane2, unpack_lane3.
  reflexivity.
Qed.

(** C7 as stated fails: a value that differs from 0 only in its top 8 bits
    packs to the same words as 0, so no unpacking recovers its top 24 bits,
    and the low 8 bits of a value are kept, not dropped. *)
Lemma pack_loses_top_bits :
  unpack3to4 (pack4to3 0xAB000000 0 0 0)
    <> (top24 0xAB000000, top24 0, top24 0, top24 0) /\
  pack4to3 0xAB000000 0 0 0 = pack4to3 0 0 0 0 /\
  top24 0xAB000000 <> top24 0 /\
  pack4to3 0xFF 0 0 0 <> pack4to3 0 0 0 0.
Proof.
  vm_compute. repeat split; intro H; discriminate H.
Qed.

(** ** Facts about the stream and the world *)

Ltac world_simpl :=
  unfold with_input, with_command_list, with_events, with_hw_reads,
    with_key_polls, stream_seekg, log;
  cbn [input command_list events hw_reads key_polls hw_value start_down
       indeterminate contents position failbit].

Ltac run :=
  unfold bind, ret, push_back, emit, seekg, uninitialized, command_list_size,
    terminate;
  world_simpl.

Lemma stream_read_within (s : ifstream) (n : Z) :
  failbit s = false -> 0 <= position s -> 0 <= n ->
  position s + n <= Z.of_nat (length (contents s)) ->
  stream_read n s =
    (take (Z.to_nat n) (drop (Z.to_nat (position s)) (contents s)),
     {| contents := contents s; position := position s + n; failbit := false |}).
Proof.
  intros Hf Hp Hn Hlen. unfold stream_read. rewrite Hf.
  rewrite length_drop.
  destruct (Z.leb_spec n (Z.of_nat (length (contents s) - Z.to_nat (position s))))
    as [_|H]; [reflexivity|lia].
Qed.

Lemma read_into_within (buf : list byte) (w : World) :
  failbit (input w) = false -> 0 <= position (input w) ->
  position (input w) + Z.of_nat (length buf) <= Z.of_nat (length (contents (input w))) ->
  read_into buf w =
    Done (take (length buf) (drop (Z.to_nat (position (input w))) (contents (input w))))
         (with_input {| contents := contents (input w);
                        position := position (input w) + Z.of_nat (length buf);
                        failbit := false |} w).
Proof.
  intros Hf Hp Hlen. unfold read_into, bind, read_bytes.
  rewrite stream_read_within by first [assumption | lia].
  unfold ret. rewrite Nat2Z.id. f_equal.
  rewrite length_take, length_drop.
  rewrite (drop_ge buf) by lia. apply app_nil_r.
Qed.

(** A read always returns; it only touches the stream. *)
Lemma read_into_returns (buf : list byte) (w : World) :
  exists bytes s, read_into buf w = Done bytes (with_input s w).
Proof.
  unfold read_into, bind, read_bytes, ret.
  destruct (stream_read (Z.of_nat (length buf)) (input w)) as [got s].
  eexists _, s. reflexivity.
Qed.

Lemma word_at_window (file : list byte) (off : Z) (i : nat) :
  0 <= off -> (i < 4)%nat ->
  word_at i (take 16 (drop (Z.to_nat off) file)) = file_word file (off + 4 * Z.of_nat i).
Proof.
  intros Hoff Hi. unfold word_at, file_word. f_equal.
  rewrite skipn_firstn_comm, take_take, drop_drop.
  replace (4 `min` (16 - 4 * i))%nat with 4%nat by lia.
  f_equal. f_equal. lia.
Qed.

(** ** Default vertex attributes *)

Lemma default_attribute_step (header : CTHeader) (i : Z) (w : World) :
  let da := default_attributes (initial_state_offsets header) in
  let file := contents (input w) in
  0 <= da -> da + 16 <= Z.of_nat (length file) ->
  failbit (input w) = false ->
  default_attribute_body header i tt w =
    Done tt (with_command_list
               (command_list w ++ default_attribute_slot file header i)
               (with_input {| contents := file; position := da + 16; failbit := false |} w)).
Proof.
  intros da file Hda Hlen Hf.
  destruct w as [[c p f] cl ev hr kp hv sd ind].
  cbn in file, Hf. subst f file.
  unfold default_attribute_body. fold da. run.
  rewrite read_into_within; world_simpl; rewrite ?length_map, ?length_seq;
    try lia; try reflexivity.
  change (Z.of_nat 16) with 16.
  rewrite !(word_at_window c da) by lia.
  unfold default_attribute_slot, packed_at. fold da.
  rewrite <- !app_assoc.
  cbn [app Z.of_nat Pos.of_succ_nat Pos.succ Z.mul Pos.mul Pos.add].
  rewrite Z.add_0_r. reflexivity.
Qed.

Lemma default_attributes_loop (header : CTHeader) (l : list Z) (w : World) :
  let da := default_attributes (initial_state_offsets header) in
  let file := contents (input w) in
  0 <= da -> da + 16 <= Z.of_nat (length file) ->
  failbit (input w) = false ->
  for_loop l tt (default_attribute_body header) w =
    Done tt (with_command_list
               (command_list w ++ flat_map (default_attribute_slot file header) l)
               (with_input (match l with
                            | [] => input w
                            | _ => {| contents := file; position := da + 16;
                                      failbit := false |}
                            end) w)).
Proof.
  intros da file Hda Hlen Hf. subst file. revert w Hlen Hf.
  induction l as [|i l IH]; intros w Hlen Hf.
  - destruct w as [s cl ev hr kp hv sd ind]. cbn. rewrite app_nil_r. reflexivity.
  - cbn [for_loop]. unfold bind at 1.
    rewrite (default_attribute_step header i w Hda Hlen Hf). fold da.
    rewrite IH by (world_simpl; first [assumption | reflexivity]).
    destruct w as [[c p f] cl ev hr kp hv sd ind]. world_simpl.
    cbn [flat_map]. rewrite <- app_assoc.
    destruct l; reflexivity.
Qed.

Lemma flat_map_length_const {A B} (f : A -> list B) (k : nat) (l : list A) :
  (forall a, length (f a) = k) -> length (flat_map f l) = (k * length l)%nat.
Proof.
  intros Hf. induction l as [|a l IH]; cbn [flat_map length]; [lia|].
  rewrite length_app, Hf, IH. lia.
Qed.

(** C9. With the four source words of the default-attribute area in the
    file, every slot reads them again from the start of the area, so every
    slot appends its index, the command header and the same three packed
    words: five words a slot.  From an empty list an odd number of slots
    leaves an odd number of words. *)
Theorem default_attributes_same_source (header : CTHeader) (w : World) :
  let iso := initial_state_offsets header in
  let n := default_attributes_size iso / 4 in
  let file := contents (input w) in
  0 <= default_attributes iso ->
  default_attributes iso + 16 <= Z.of_nat (length file) ->
  failbit (input w) = false ->
  exists w',
    submit_default_attributes header w = Done tt w' /\
    command_list w' =
      command_list w ++
      flat_map (fun i => [i; default_attribute_header]
                           ++ packed_at file (default_attributes iso))
               (seqZ 0 n) /\
    length (command_list w') = (length (command_list w) + 5 * Z.to_nat n)%nat /\
    (command_list w = [] -> Z.odd n = true -> 0 <= n ->
     Z.odd (Z.of_nat (length (command_list w'))) = true).
Proof.
  intros iso n file Hda Hlen Hf.
  unfold submit_default_attributes. fold iso. fold n.
  rewrite default_attributes_loop by assumption.
  eexists. split; [reflexivity|].
  destruct w as [[c p f] cl ev hr kp hv sd ind]. world_simpl.
  cbn in file. subst file.
  assert (Hlength :
    length (cl ++ flat_map (default_attribute_slot c header) (seqZ 0 n))
    = (length cl + 5 * Z.to_nat n)%nat).
  { rewrite length_app, (flat_map_length_const _ 5), length_seqZ; [lia|].
    intros a. reflexivity. }
  split; [reflexivity|]. split; [exact Hlength|].
  intros Hcl Hodd Hn. cbn in Hcl. subst cl. rewrite Hlength.
  cbn [length Nat.add].
  rewrite Nat2Z.inj_mul, Z2Nat.id by assumption.
  rewrite Z.odd_mul, Hodd. reflexivity.
Qed.

Lemma default_attributes_same_source_witness :
  exists w',
    submit_default_attributes
      (header_of (with_default_attributes 16 12) 0 0) (sample_world sample_file)
    = Done tt w' /\
    length (command_list w') = 15%nat /\
    Z.odd (Z.of_nat (length (command_list w'))) = true.
Proof.
  destruct (default_attributes_same_source
              (header_of (with_default_attributes 16 12) 0 0)
              (sample_world sample_file))
    as (w' & Hrun & _ & Hlen & Hodd).
  - vm_compute. discriminate.
  - vm_compute. discriminate.
  - reflexivity.
  - exists w'. split; [exact Hrun|]. split; [exact Hlen|].
    apply Hodd; [reflexivity|reflexivity|vm_compute; discriminate].
Defined.

(** ** Uploads of internal memory *)

Lemma read_values_within (w : World) :
  failbit (input w) = false -> 0 <= position (input w) ->
  position (input w) + 16 <= Z.of_nat (length (contents (input w))) ->
  read_values w =
    Done (take 16 (drop (Z.to_nat (position (input w))) (contents (input w))))
         (with_input {| contents := contents (input w);
                        position := position (input w) + 16;
                        failbit := false |} w).
Proof.
  intros Hf Hp Hlen. unfold read_values, bind at 1, uninitialized.
  rewrite read_into_within; rewrite ?length_map, ?length_seq; try assumption.
  reflexivity.
Qed.

Lemma float_uniform_step (id num_words index : Z) (written : bool) (w : World) :
  let file := contents (input w) in
  let p := position (input w) in
  failbit (input w) = false -> 0 <= p -> p + 16 <= Z.of_nat (length file) ->
  float_uniform_body id num_words index written w =
    Done true
      (with_command_list
         (command_list w ++
          (if written then packed_at file p
           else insert_after_first (float_uniform_header id num_words) (packed_at file p)))
         (with_input {| contents := file; position := p + 16; failbit := false |} w)).
Proof.
  intros file p Hf Hp Hlen.
  unfold float_uniform_body, bind at 1.
  rewrite read_values_within by assumption.
  destruct w as [[c q f] cl ev hr kp hv sd ind].
  cbn in file, p, Hf. subst f file p.
  world_simpl.
  rewrite !(word_at_window c q) by lia.
  cbn [Z.of_nat Pos.of_succ_nat Pos.succ Z.mul Pos.mul Pos.add].
  rewrite Z.add_0_r.
  destruct written; run; unfold packed_at, insert_after_first;
    rewrite <- !app_assoc; reflexivity.
Qed.

Lemma float_uniform_loop (id num_words : Z) (l : list Z) :
  forall (written : bool) (w : World),
    let file := contents (input w) in
    let p := position (input w) in
    failbit (input w) = false -> 0 <= p ->
    p + 16 * Z.of_nat (length l) <= Z.of_nat (length file) ->
    for_loop l written (float_uniform_body id num_words) w =
      Done (match l with [] => written | _ => true end)
        (with_command_list
           (command_list w ++
            (if written then groups_from file p (length l)
             else insert_after_first (float_uniform_header id num_words)
                    (groups_from file p (length l))))
           (with_input {| contents := file;
                          position := p + 16 * Z.of_nat (length l);
                          failbit := false |} w)).
Proof.
  induction l as [|i l IH]; intros written w file p Hf Hp Hlen.
  - destruct w as [[c q f] cl ev hr kp hv sd ind].
    cbn in file, p, Hf. subst f file p. cbn [for_loop length groups_from].
    unfold ret. world_simpl.
    replace (q + 16 * Z.of_nat 0) with q by lia.
    destruct written; cbn [insert_after_first]; rewrite app_nil_r; reflexivity.
  - cbn [for_loop]. unfold bind at 1.
    cbn [length] in Hlen.
    rewrite float_uniform_step by (try assumption; fold file p; lia).
    rewrite IH by (world_simpl; fold file p; try reflexivity; lia).
    destruct w as [[c q f] cl ev hr kp hv sd ind].
    cbn in file, p, Hf. subst f file p. world_simpl.
    cbn [length groups_from].
    replace (q + 16 * Z.of_nat (S (length l)))
      with (q + 16 + 16 * Z.of_nat (length l)) by lia.
    rewrite <- app_assoc.
    replace (match l with [] => true | _ :: _ => true end) with true
      by (destruct l; reflexivity).
    destruct written; reflexivity.
Qed.

(** The float-uniform upload packs [num_words / 4 - 1] groups: the loop
    starts at index 1. *)
Lemma float_uniform_upload (file_offset num_words id : Z) (w : World) :
  let file := contents (input w) in
  let n := Z.to_nat (num_words / 4 - 1) in
  0 < num_words -> 0 <= file_offset ->
  file_offset + 4 * num_words <= Z.of_nat (length file) ->
  failbit (input w) = false ->
  SubmitInternalMemory file_offset num_words id true w =
    Done tt
      (with_command_list
         (command_list w ++ [0; Z.lor id 0xF0000] ++
          insert_after_first (float_uniform_header id num_words)
            (groups_from file file_offset n))
         (with_input {| contents := file;
                        position := file_offset + 16 * Z.of_nat n;
                        failbit := false |} w)).
Proof.
  intros file n Hnw Hoff Hlen Hf.
  unfold SubmitInternalMemory.
  destruct (Z.eqb_spec num_words 0) as [->|_]; [lia|].
  assert (Hn : 16 * Z.of_nat n <= 4 * num_words).
  { subst n. pose proof (Z.mul_div_le num_words 4 ltac:(lia)). lia. }
  unfold bind at 1. unfold bind at 1. unfold bind at 1. unfold bind at 1.
  unfold push_back at 1 2, seekg.
  rewrite float_uniform_loop;
    rewrite ?length_seqZ; world_simpl; rewrite ?Hf; world_simpl; fold file n;
    try reflexivity; try lia.
  unfold ret.
  destruct w as [[c q f] cl ev hr kp hv sd ind].
  cbn in file, Hf. subst f file. world_simpl.
  rewrite <- !app_assoc. reflexivity.
Qed.

Ltac drop_negative_bits :=
  repeat match goal with
         | |- context [Z.testbit ?a ?k] => rewrite (Z.testbit_neg_r a k) by lia
         end;
  rewrite ?andb_true_r, ?andb_false_r, ?orb_false_r, ?orb_true_r;
  try reflexivity.

(** The payload-length field of a data command header: the bits from bit
    20 up. *)
Lemma header_payload_field (base n : Z) :
  Z.shiftr (Z.lor (Z.lor (base mod 2 ^ 16) 0xF0000) (u32 (Z.shiftl (u32 n) 20))) 20
  = n mod 2 ^ 12.
Proof.
  apply Z.bits_inj'; intros i Hi. unfold u32.
  change 0xF0000 with (Z.shiftl (Z.ones 4) 16).
  repeat bit_step; drop_negative_bits; try lia; try (f_equal; lia).
Qed.

Lemma groups_from_length (file : list byte) (k : nat) :
  forall off, length (groups_from file off k) = (3 * k)%nat.
Proof.
  induction k as [|k IH]; intros off; [reflexivity|].
  cbn [groups_from]. rewrite length_app, IH. cbn [packed_at length]. lia.
Qed.

(** C4.  A float-uniform upload of [num_words] source words that lie in the
    file packs one group fewer than the [num_words / 4] groups of the area,
    because the loop over the groups starts at index 1.  The data command
    header, written once after the first packed word, announces
    [(num_words / 4) * 3] data words (its payload-length field is
    [(num_words / 4) * 3 - 1]), but three fewer are appended and the last
    group of the area is never read; with a single group nothing is packed
    and no header is written. *)
Theorem float_uniform_upload_drops_a_group (file_offset num_words id : Z) (w : World) :
  let file := contents (input w) in
  let groups := num_words / 4 in
  4 <= num_words -> 0 <= file_offset -> 0 <= id < 0xFFFF ->
  file_offset + 4 * num_words <= Z.of_nat (length file) ->
  failbit (input w) = false ->
  exists w',
    SubmitInternalMemory file_offset num_words id true w = Done tt w' /\
    command_list w' =
      command_list w ++ [0; Z.lor id 0xF0000] ++
      insert_after_first (float_uniform_header id num_words)
        (groups_from file file_offset (Z.to_nat (groups - 1))) /\
    Z.of_nat (length (groups_from file file_offset (Z.to_nat (groups - 1))))
      = 3 * groups - 3 /\
    Z.shiftr (float_uniform_header id num_words) 20 = (groups * 3 - 1) mod 4096 /\
    position (input w') = file_offset + 16 * (groups - 1).
Proof.
  intros file groups Hnw Hoff Hid Hlen Hf.
  assert (Hg : 1 <= groups).
  { subst groups. apply Z.div_le_lower_bound; lia. }
  eexists. split; [apply float_uniform_upload; first [assumption | lia]|].
  fold file groups.
  destruct w as [[c q f] cl ev hr kp hv sd ind].
  cbn [command_list input position with_command_list with_input].
  split; [reflexivity|]. split; [|split].
  - rewrite groups_from_length. lia.
  - unfold float_uniform_header. fold groups.
    rewrite (u32_small (id + 1)) by lia.
    rewrite <- (Z.mod_small (id + 1) (2 ^ 16)) by (change (2 ^ 16) with 65536; lia).
    apply header_payload_field.
  - lia.
Qed.

Lemma float_uniform_upload_drops_a_group_witness :
  exists w',
    SubmitInternalMemory 0 8 0x290 true (sample_world sample_file) = Done tt w' /\
    command_list w' =
      [] ++ [0; Z.lor 0x290 0xF0000] ++
      insert_after_first (float_uniform_header 0x290 8)
        (groups_from sample_file 0 (Z.to_nat (8 / 4 - 1))) /\
    Z.of_nat (length (groups_from sample_file 0 (Z.to_nat (8 / 4 - 1))))
      = 3 * (8 / 4) - 3 /\
    Z.shiftr (float_uniform_header 0x290 8) 20 = (8 / 4 * 3 - 1) mod 4096 /\
    position (input w') = 0 + 16 * (8 / 4 - 1).
Proof.
  apply (float_uniform_upload_drops_a_group 0 8 0x290 (sample_world sample_file)).
  - lia.
  - lia.
  - lia.
  - vm_compute. discriminate.
  - reflexivity.
Defined.

(** The upload at 8 and at 4 source words, computed.  With 8 source words
    only the first group is packed: three packed words in all where the
    header announces six, and the second group is not read.  With 4 source
    words nothing is packed and no header is written. *)
Lemma float_uniform_upload_misses_a_group :
  (exists w',
     SubmitInternalMemory 0 8 0x290 true (sample_world sample_file) = Done tt w' /\
     command_list w' =
       [0; 0xF0290] ++ [0x0F0E0D0B] ++ [float_uniform_header 0x290 8]
       ++ [0x0A090706; 0x05030201] /\
     length (command_list w') <> (2 + 1 + 3 * (8 / 4))%nat /\
     position (input w') = 16) /\
  (exists w',
     SubmitInternalMemory 0 4 0x290 true (sample_world sample_file) = Done tt w' /\
     command_list w' = [0; 0xF0290]).
Proof.
  split; eexists; (split; [vm_compute; reflexivity|]); vm_compute; repeat split; discriminate.
Qed.

(** ** Padding *)

Lemma u32_index_in_range (size : Z) : 2 <= size -> 0 <= u32 (size - 2) < size.
Proof.
  intros H. pose proof (u32_range (size - 2)) as Hr.
  destruct (Z.lt_ge_cases (size - 2) 4294967296).
  - rewrite u32_small by lia. lia.
  - lia.
Qed.

Lemma command_list_at_in_range (i : Z) (w : World) :
  0 <= i < Z.of_nat (length (command_list w)) ->
  exists x, command_list_at i w = Done x w.
Proof.
  intros Hi. unfold command_list_at.
  destruct (lookup_lt_is_Some_2 (command_list w) (Z.to_nat i)) as [x Hx]; [lia|].
  rewrite Hx. exists x. reflexivity.
Qed.

Lemma odd_not_multiple_of_4 (n : Z) : Z.odd n = true -> n mod (16 / 4) <> 0.
Proof.
  intros Hodd H0. change (16 / 4) with 4 in H0.
  apply Z.odd_spec in Hodd as [m Hm].
  pose proof (Z.div_mod n 4 ltac:(lia)). lia.
Qed.

(** On a list of odd length the padding loop consumes any fuel: its
    condition never becomes false. *)
Lemma pad_odd_never_ends (fuel : nat) :
  forall w : World,
    Z.odd (Z.of_nat (length (command_list w))) = true ->
    (3 <= length (command_list w))%nat ->
    pad_command_list fuel w = OutOfFuel.
Proof.
  induction fuel as [|fuel IH]; intros w Hodd Hlen.
  - cbn [pad_command_list]. unfold bind, command_list_size.
    pose proof (odd_not_multiple_of_4 _ Hodd) as Hmod.
    destruct (Z.eqb_spec (Z.of_nat (length (command_list w)) mod (16 / 4)) 0); [contradiction|reflexivity].
  - cbn [pad_command_list]. unfold bind at 1. unfold command_list_size at 1.
    pose proof (odd_not_multiple_of_4 _ Hodd) as Hmod.
    destruct (Z.eqb_spec (Z.of_nat (length (command_list w)) mod (16 / 4)) 0); [contradiction|].
    destruct (command_list_at_in_range (u32 (Z.of_nat (length (command_list w)) - 2)) w)
      as [x Hx]; [apply u32_index_in_range; lia|].
    unfold bind at 1. rewrite Hx.
    unfold bind at 1. unfold push_back at 1.
    unfold bind at 1. unfold command_list_size at 1.
    set (w1 := with_command_list (command_list w ++ [x]) w).
    assert (Hlen1 : length (command_list w1) = S (length (command_list w))).
    { subst w1. destruct w. world_simpl. rewrite length_app. cbn. lia. }
    destruct (command_list_at_in_range (u32 (Z.of_nat (length (command_list w1)) - 2)) w1)
      as [y Hy]; [apply u32_index_in_range; lia|].
    unfold bind at 1. rewrite Hy.
    unfold bind at 1. unfold push_back at 1.
    apply IH.
    + destruct w1. world_simpl. cbn [command_list] in Hlen1.
      rewrite length_app, Hlen1. cbn [length].
      replace (Z.of_nat (S (length (command_list w)) + 1))
        with (Z.succ (Z.succ (Z.of_nat (length (command_list w))))) by lia.
      rewrite Z.odd_succ_succ. exact Hodd.
    + destruct w1. world_simpl. cbn [command_list] in Hlen1.
      rewrite length_app, Hlen1. cbn [length]. lia.
Qed.

(** On a list of even length the padding loop ends after at most one turn,
    with a length that is a multiple of four. *)
Lemma pad_even_ends (fuel : nat) (w : World) :
  Z.even (Z.of_nat (length (command_list w))) = true ->
  exists w',
    pad_command_list (S fuel) w = Done tt w' /\
    Z.of_nat (length (command_list w')) mod 4 = 0 /\
    (length (command_list w') <= length (command_list w) + 2)%nat.
Proof.
  intros Heven.
  apply Z.even_spec in Heven as [m Hm].
  cbn [pad_command_list]. unfold bind at 1, command_list_size at 1.
  change (16 / 4) with 4.
  destruct (Z.eqb_spec (Z.of_nat (length (command_list w)) mod 4) 0) as [H0|H0].
  - exists w. unfold ret. split; [reflexivity|]. split; [exact H0|lia].
  - assert (Hlen : 2 <= Z.of_nat (length (command_list w))).
    { destruct (command_list w); cbn [length] in *; [contradiction H0; reflexivity|lia]. }
    destruct (command_list_at_in_range (u32 (Z.of_nat (length (command_list w)) - 2)) w)
      as [x Hx]; [apply u32_index_in_range; lia|].
    unfold bind at 1. rewrite Hx.
    unfold bind at 1, push_back at 1.
    unfold bind at 1, command_list_size at 1.
    set (w1 := with_command_list (command_list w ++ [x]) w).
    assert (Hlen1 : length (command_list w1) = S (length (command_list w))).
    { subst w1. destruct w. world_simpl. rewrite length_app. cbn. lia. }
    destruct (command_list_at_in_range (u32 (Z.of_nat (length (command_list w1)) - 2)) w1)
      as [y Hy]; [apply u32_index_in_range; lia|].
    unfold bind at 1. rewrite Hy.
    unfold bind at 1, push_back at 1.
    set (w2 := with_command_list (command_list w1 ++ [y]) w1).
    assert (Hlen2 : length (command_list w2) = S (S (length (command_list w)))).
    { subst w2. destruct w1. world_simpl. cbn [command_list] in Hlen1.
      rewrite length_app, Hlen1. cbn. lia. }
    assert (Hmod : Z.of_nat (length (command_list w2)) mod 4 = 0).
    { rewrite Hlen2.
      pose proof (Z.div_mod (Z.of_nat (length (command_list w))) 4 ltac:(lia)) as Hd.
      pose proof (Z.mod_pos_bound (Z.of_nat (length (command_list w))) 4 ltac:(lia)) as Hb.
      assert (Hr : Z.of_nat (length (command_list w)) mod 4 = 2) by lia.
      symmetry.
      apply (Z.mod_unique _ _ (Z.of_nat (length (command_list w)) / 4 + 1)); lia. }
    exists w2. split; [|split; [exact Hmod|lia]].
    destruct fuel; cbn [pad_command_list]; unfold bind at 1, command_list_size at 1;
      change (16 / 4) with 4; rewrite Hmod; reflexivity.
Qed.

(** ** The setup as a whole *)

Lemma default_attribute_body_grows (header : CTHeader) (i : Z) (w : World) :
  exists w',
    default_attribute_body header i tt w = Done tt w' /\
    length (command_list w') = (length (command_list w) + 5)%nat.
Proof.
  unfold default_attribute_body. run.
  match goal with
  | |- context [read_into ?buf ?w1] =>
      destruct (read_into_returns buf w1) as (bytes & s & Hread); rewrite Hread
  end.
  world_simpl. eexists. split; [reflexivity|].
  world_simpl. rewrite !length_app. cbn [length]. lia.
Qed.

(** C2, at the input [default_attributes_size = 4] with every other size 0.
    The one attribute slot leaves five words in the list and the padding
    loop, which appends two words a turn, never reaches a multiple of four:
    whatever the fuel, the construction does not end. *)
Theorem one_default_attribute_never_padded
    (sizeof_CTStreamElement fuel : nat) (file : list byte) (pos : Z)
    (hw : nat -> Z) (keys : nat -> bool) (garbage : nat -> byte) :
  main_setup sizeof_CTStreamElement fuel
    (header_of (with_default_attributes 0 4) 0 0)
    (opened file pos hw keys garbage) = OutOfFuel.
Proof.
  unfold main_setup, read_stream.
  cbn [stream_size stream_offset header_of].
  change (seqZ 0 0) with (@nil Z). cbn [for_loop Z.to_nat replicate].
  unfold bind at 1. unfold bind at 1. unfold bind at 1.
  unfold seekg at 1, ret at 1.
  unfold bind at 1. unfold bind at 1. unfold emit at 1.
  unfold bind at 1. unfold bind at 1.
  unfold build_initial_state.
  unfold bind at 1. unfold submit_default_attributes.
  cbn [initial_state_offsets header_of default_attributes_size with_default_attributes].
  change (seqZ 0 (4 / 4)) with [0]. cbn [for_loop].
  unfold bind at 1.
  match goal with
  | |- context [default_attribute_body ?h 0 tt ?w1] =>
      destruct (default_attribute_body_grows h 0 w1) as (w' & Hrun & Hlen);
      rewrite Hrun
  end.
  unfold ret at 1.
  unfold bind at 1. unfold submit_shader_setup.
  cbn [initial_state_offsets header_of with_default_attributes
       gs_program_binary_size gs_swizzle_data_size gs_float_uniforms_size
       vs_program_binary_size vs_swizzle_data_size vs_float_uniforms_size].
  unfold SubmitInternalMemory. cbn [Z.eqb].
  unfold bind at 1. unfold bind at 1. unfold bind at 1. unfold bind at 1.
  unfold bind at 1. unfold bind at 1. unfold ret at 1 2 3 4 5 6.
  unfold submit_pica_registers.
  cbn [initial_state_offsets header_of with_default_attributes pica_registers_size].
  rewrite Z.min_r by (vm_compute; discriminate).
  change (seqZ 0 0) with (@nil Z). cbn [for_loop].
  unfold bind at 1. unfold seekg at 1, ret at 1.
  rewrite pad_odd_never_ends; [reflexivity| |].
  - destruct w'. world_simpl. cbn [command_list] in Hlen.
    revert Hlen. world_simpl. cbn [length Nat.add]. intros ->. reflexivity.
  - destruct w'. world_simpl. cbn [command_list] in Hlen.
    revert Hlen. world_simpl. cbn [length Nat.add]. intros ->. lia.
Qed.

Lemma stream_read_at_end (s : ifstream) (n : Z) :
  failbit s = false -> Z.of_nat (length (contents s)) <= position s -> 0 < n ->
  stream_read n s =
    ([], {| contents := contents s; position := position s + 0; failbit := true |}).
Proof.
  intros Hf Hp Hn. unfold stream_read. rewrite Hf.
  rewrite drop_ge by lia. change (Z.of_nat (length (@nil byte))) with 0.
  destruct (Z.leb_spec n 0); [lia|reflexivity].
Qed.

Lemma read_into_at_end (buf : list byte) (w : World) :
  failbit (input w) = false ->
  Z.of_nat (length (contents (input w))) <= position (input w) ->
  buf <> [] ->
  read_into buf w =
    Done buf (with_input {| contents := contents (input w);
                            position := position (input w) + 0;
                            failbit := true |} w).
Proof.
  intros Hf Hp Hbuf. unfold read_into, bind, read_bytes.
  rewrite stream_read_at_end; try assumption.
  - reflexivity.
  - destruct buf; [contradiction|cbn [length]; lia].
Qed.

(** C3, at two truncated traces.  In the first the file ends where the one
    stream record should start; in the second it ends where the one word of
    the geometry-shader program should start.  Neither short read is
    noticed: the setup logs "Successfully read input file", builds a command
    list (with a zero word in place of the missing program word) and
    announces the start of playback, with the stream in the failed state. *)
Theorem truncated_trace_reaches_playback
    (k fuel : nat) (file : list byte) (pos : Z)
    (hw : nat -> Z) (keys : nat -> bool) (garbage : nat -> byte) :
  let eof := Z.of_nat (length file) in
  let failed := {| contents := file; position := eof + 0; failbit := true |} in
  main_setup (S k) fuel (header_of no_initial_state eof 1)
    (opened file pos hw keys garbage)
  = Done [replicate (S k) x00]
      (log [NetworkPrint MsgSuccessfullyRead;
            GSPGPU_FlushDataCache CommandListData 0;
            gfxInitDefault;
            NetworkPrint MsgCommandListLocation;
            NetworkPrint MsgInitializationDone]
         (with_input failed (opened file pos hw keys garbage)))
  /\
  main_setup (S k) fuel (header_of (with_gs_program_binary eof 1) 0 0)
    (opened file pos hw keys garbage)
  = Done []
      (log [NetworkPrint MsgSuccessfullyRead;
            GSPGPU_FlushDataCache CommandListData 16;
            gfxInitDefault;
            NetworkPrint MsgCommandListLocation;
            NetworkPrint MsgInitializationDone]
         (with_command_list [0; 0xF029b; 0; 0xF029c]
            (with_input failed (opened file pos hw keys garbage)))).
Proof.
  intros eof failed. split.
  - unfold main_setup, read_stream.
    cbn [stream_size stream_offset header_of].
    change (seqZ 0 1) with [0]. cbn [for_loop].
    change (Z.to_nat 1) with 1%nat. change (Z.to_nat 0) with 0%nat.
    cbn [replicate lookup list_lookup insert list_insert].
    unfold bind at 1. unfold bind at 1. unfold bind at 1.
    unfold seekg at 1. unfold bind at 1. unfold bind at 1.
    rewrite read_into_at_end
      by (unfold opened; world_simpl; first [reflexivity | lia | discriminate]).
    unfold opened; world_simpl.
    destruct fuel; vm_compute; reflexivity.
  - unfold main_setup, read_stream, build_initial_state,
      submit_default_attributes, submit_shader_setup.
    cbn [stream_size stream_offset header_of initial_state_offsets
         with_gs_program_binary default_attributes_size
         gs_program_binary gs_program_binary_size].
    change (seqZ 0 0) with (@nil Z). change (seqZ 0 (0 / 4)) with (@nil Z).
    cbn [for_loop]. unfold SubmitInternalMemory at 1.
    cbn [Z.eqb]. change (seqZ 1 (1 - 1)) with (@nil Z). cbn [for_loop].
    unfold push_back_read at 1.
    unfold bind, seekg, emit, push_back, ret. unfold opened. world_simpl.
    rewrite read_into_at_end
      by (world_simpl; first [reflexivity | lia | discriminate]).
    world_simpl.
    destruct fuel; vm_compute; reflexivity.
Qed.

(** ** Playback: addresses that do not translate *)

Lemma untranslatable_facts (p : Z) :
  untranslatable p ->
  PhysicalToVirtualAddress p = None /\
  (VRAM_PADDR <=? p) && (p <? VRAM_PADDR_END) = false /\
  (p =? 0x104018F0) = false /\
  triggers_operation p = false.
Proof.
  intros [H0 Hr].
  pose proof (Hr video_memory ltac:(simpl; auto)) as Hv.
  pose proof (Hr main_ram ltac:(simpl; auto)) as Hm.
  pose proof (Hr dsp_memory ltac:(simpl; auto)) as Hd.
  pose proof (Hr io_registers ltac:(simpl; auto)) as Hi.
  unfold in_region in Hv, Hm, Hd, Hi. cbn [r_start r_end video_memory main_ram dsp_memory io_registers] in *.
  unfold PhysicalToVirtualAddress. rewrite Hv, Hm, Hd, Hi.
  destruct (Z.eqb_spec p 0) as [|_]; [contradiction|].
  split; [reflexivity|]. split; [reflexivity|].
  apply andb_false_iff in Hi.
  unfold triggers_operation, IO_AREA_PADDR_END, IO_AREA_PADDR, IO_AREA_SIZE in *.
  split_comparisons; cbn [orb]; try reflexivity; destruct Hi; lia.
Qed.



(** C1, as amended.  A memory load whose address is not 0 and lies in no
    declared region does not return from the translation: the diagnostic is
    logged, the network log is closed and the process terminates, with no
    hardware operation for the element and no later element played.  A
    register write is not translated at all: for such an address (and a size
    class the format knows) the write is issued at the address shifted by the
    fixed offset and the loop goes on with the next element. *)
Theorem untranslatable_address_behaviour
    (fuel : nat) (rest : list CTStreamElement) (w : World) :
  start_down w (key_polls w) = false ->
  (forall memory_load : CTMemoryLoad,
     untranslatable (ml_physical_address memory_load) ->
     play_stream fuel (MemoryLoad memory_load :: rest) w =
       Terminated
         (log [hidScanInput;
               NetworkPrint (MsgUnknownPhysicalAddress (ml_physical_address memory_load));
               NetworkExit]
            (with_key_polls (S (key_polls w))
               (with_input (stream_seekg (ml_file_offset memory_load) (input w)) w)))) /\
  (forall register_write : CTRegisterWrite,
     untranslatable (rw_physical_address register_write) ->
     rw_size register_write <> SIZE_other ->
     exists m : Message,
       play_stream fuel (RegisterWrite register_write :: rest) w =
         play_stream fuel rest
           (log [hidScanInput;
                 NetworkPrint m;
                 GSPGPU_WriteHWRegs
                   (hw_register (rw_physical_address register_write))
                   (Z.land (rw_value register_write) 0xFFFFFFFF)
                   (register_write_size (rw_size register_write))]
              (with_key_polls (S (key_polls w)) w))).
Proof.
  intros Hkey. split.
  - intros [off size pa] Hun. cbn [ml_physical_address ml_file_offset] in *.
    destruct (untranslatable_facts pa Hun) as (Hnone & Hvram & _ & _).
    destruct w as [s cl ev hr kp hv sd ind]. cbn in Hkey.
    cbn [play_stream]. unfold bind at 1. unfold emit at 1.
    unfold bind at 1. unfold keysDown_START at 1. world_simpl. rewrite Hkey.
    unfold bind at 1. unfold play_element, play_memory_load.
    cbn [ml_physical_address ml_file_offset ml_size].
    rewrite Hvram. unfold translate. rewrite Hnone.
    run. rewrite <- !app_assoc. reflexivity.
  - intros [pa sz value] Hun Hsz. cbn [rw_physical_address rw_size rw_value] in *.
    destruct (untranslatable_facts pa Hun) as (_ & _ & Htrig & Hop).
    destruct w as [s cl ev hr kp hv sd ind]. cbn in Hkey.
    cbn [play_stream]. unfold bind at 1. unfold emit at 1.
    unfold bind at 1. unfold keysDown_START at 1. world_simpl. rewrite Hkey.
    unfold bind at 1. unfold play_element, play_register_write.
    cbn [rw_physical_address rw_size rw_value].
    rewrite Htrig, Hop.
    destruct sz; [| | | |contradiction]; cbn [register_write_size Z.leb Z.eqb Z.compare Pos.compare Pos.compare_cont Pos.eqb orb];
      eexists; run; rewrite <- !app_assoc; reflexivity.
Qed.

Lemma untranslatable_example : untranslatable 0x12345678.
Proof.
  split; [discriminate|].
  intros r [<-|[<-|[<-|[<-|[]]]]]; reflexivity.
Qed.

Lemma untranslatable_address_behaviour_witness :
  play_stream 1
    [MemoryLoad {| ml_file_offset := 0; ml_size := 4; ml_physical_address := 0x12345678 |};
     FrameMarker] (sample_world sample_file) =
    Terminated
      (log [hidScanInput; NetworkPrint (MsgUnknownPhysicalAddress 0x12345678); NetworkExit]
         (with_key_polls 1
            (with_input (stream_seekg 0 (input (sample_world sample_file)))
               (sample_world sample_file)))) /\
  exists m : Message,
    play_stream 1
      [RegisterWrite {| rw_physical_address := 0x12345678; rw_size := SIZE_16;
                        rw_value := 7 |};
       FrameMarker] (sample_world sample_file) =
      play_stream 1 [FrameMarker]
        (log [hidScanInput; NetworkPrint m;
              GSPGPU_WriteHWRegs (hw_register 0x12345678) (Z.land 7 0xFFFFFFFF)
                                 (register_write_size SIZE_16)]
           (with_key_polls 1 (sample_world sample_file))).
Proof.
  split.
  - apply (proj1 (untranslatable_address_behaviour 1 [FrameMarker]
                    (sample_world sample_file) eq_refl)
             {| ml_file_offset := 0; ml_size := 4; ml_physical_address := 0x12345678 |}).
    exact untranslatable_example.
  - apply (proj2 (untranslatable_address_behaviour 1 [FrameMarker]
                    (sample_world sample_file) eq_refl)
             {| rw_physical_address := 0x12345678; rw_size := SIZE_16; rw_value := 7 |}).
    + exact untranslatable_example.
    + discriminate.
Defined.

(** C1 as stated fails.  A memory load at 0x12345678, an address in no
    region, ends the process: the frame marker after it is never played.  A
    register write at that address is not skipped: the hardware write is
    issued. *)
Lemma untranslatable_address_is_not_skipped :
  play_stream 1
    [MemoryLoad {| ml_file_offset := 0; ml_size := 4; ml_physical_address := 0x12345678 |};
     FrameMarker] (sample_world sample_file) =
    Terminated
      (log [hidScanInput; NetworkPrint (MsgUnknownPhysicalAddress 0x12345678); NetworkExit]
         (with_key_polls 1 (sample_world sample_file))) /\
  play_stream 1
    [RegisterWrite {| rw_physical_address := 0x12345678; rw_size := SIZE_32; rw_value := 7 |}]
    (sample_world sample_file) =
    Done NextElement
      (log [hidScanInput; NetworkPrint (MsgWriting 4 7 0x02345678 "");
            GSPGPU_WriteHWRegs 0x02345678 7 4]
         (with_key_polls 1 (sample_world sample_file))).
Proof.
  split; vm_compute; reflexivity.
Qed.

(** ** Playback: waiting for a triggered operation *)

Lemma read_backs_app (a b : list Event) :
  read_backs (a ++ b) = (read_backs a + read_backs b)%nat.
Proof. unfold read_backs. rewrite List.filter_app, length_app. reflexivity. Qed.

(** The wait always returns, after at most [101 - count] read-backs. *)
Lemma wait_for_completion_returns (reg : Z) (fuel : nat) :
  forall (count : Z) (w : World),
    0 <= count <= 100 -> (Z.to_nat (101 - count) <= fuel)%nat ->
    exists w',
      wait_for_completion fuel reg count w = Done tt w' /\
      (read_backs (events w') <= read_backs (events w) + Z.to_nat (101 - count))%nat /\
      (1 <= read_backs (events w') - read_backs (events w))%nat.
Proof.
  induction fuel as [|fuel IH]; intros count w Hc Hfuel; [lia|].
  cbn [wait_for_completion]. unfold bind at 1, ReadHWRegs at 1.
  destruct (negb (Z.land (u32 (hw_value w (hw_reads w))) 1 =? 0)).
  - eexists. split; [reflexivity|]. unfold ret. destruct w. world_simpl.
    rewrite read_backs_app. cbn. lia.
  - unfold bind at 1, emit at 1.
    destruct (Z.ltb_spec count 100).
    + match goal with
      | |- context [wait_for_completion fuel reg (count + 1) ?w1] =>
          destruct (IH (count + 1) w1 ltac:(lia) ltac:(lia)) as (w' & Hrun & Hle & Hge)
      end.
      exists w'. split; [exact Hrun|].
      revert Hle Hge. destruct w. world_simpl.
      rewrite !read_backs_app. cbn [read_backs List.filter length Nat.add]. lia.
    + eexists. split; [reflexivity|]. unfold ret. destruct w. world_simpl.
      rewrite !read_backs_app. cbn. lia.
Qed.

(** When the low bit is never seen set the wait reads the register back
    [101 - count] times. *)
Lemma wait_without_completion (reg : Z) (fuel : nat) :
  forall (count : Z) (w : World),
    0 <= count <= 100 -> (Z.to_nat (101 - count) <= fuel)%nat ->
    (forall i, Z.land (u32 (hw_value w i)) 1 = 0) ->
    exists w',
      wait_for_completion fuel reg count w = Done tt w' /\
      read_backs (events w') = (read_backs (events w) + Z.to_nat (101 - count))%nat.
Proof.
  induction fuel as [|fuel IH]; intros count w Hc Hfuel Heven; [lia|].
  cbn [wait_for_completion]. unfold bind at 1, ReadHWRegs at 1.
  rewrite Heven. cbn [Z.eqb negb].
  unfold bind at 1, emit at 1.
  destruct (Z.ltb_spec count 100).
  - match goal with
    | |- context [wait_for_completion fuel reg (count + 1) ?w1] =>
        destruct (IH (count + 1) w1 ltac:(lia) ltac:(lia)) as (w' & Hrun & Hn)
    end.
    { destruct w. world_simpl. exact Heven. }
    exists w'. split; [exact Hrun|].
    rewrite Hn. destruct w. world_simpl.
    rewrite !read_backs_app. cbn [read_backs List.filter length Nat.add]. lia.
  - eexists. split; [reflexivity|]. unfold ret. destruct w. world_simpl.
    rewrite !read_backs_app. cbn [read_backs List.filter length Nat.add]. lia.
Qed.

(** C5, at a write to the fill-control register 0x1040001C on hardware
    whose read-backs never show the low bit.  The register is read back 101
    times before playback goes on: the [do]-[while] tests [count++ < 100]
    after the body, so the body runs for [count] = 0, ..., 100. *)
Theorem completion_poll_reads_101_times
    (k : nat) (file : list byte) (pos : Z) (keys : nat -> bool) (garbage : nat -> byte) :
  exists w',
    play_register_write (101 + k)
      {| rw_physical_address := 0x1040001C; rw_size := SIZE_32; rw_value := 1 |}
      (opened file pos (fun _ => 0) keys garbage) = Done tt w' /\
    read_backs (events w') = 101%nat.
Proof.
  unfold play_register_write.
  cbn [rw_physical_address rw_size rw_value register_write_size].
  change (triggers_operation 0x1040001C) with true.
  change (0x1040001C =? 0x104018F0) with false.
  change (4 <=? 4) with true. change ((4 =? 1) || (4 =? 2) || (4 =? 4)) with true.
  cbv iota.
  unfold bind at 1, emit at 1. unfold bind at 1, emit at 1.
  unfold bind at 1, emit at 1.
  match goal with
  | |- context [wait_for_completion ?f ?r 0 ?w1] =>
      destruct (wait_without_completion r f 0 w1 ltac:(lia) ltac:(lia)) as (w' & Hrun & Hn)
  end.
  { intros i. reflexivity. }
  exists w'. split; [exact Hrun|]. rewrite Hn. reflexivity.
Qed.

(** ** Playback: memory loads into video memory *)

Lemma reads_as_seekg (s0 : ifstream) (off : Z) : reads_as s0 off (stream_seekg off s0).
Proof.
  unfold reads_as, stream_seekg. destruct (failbit s0) eqn:Hf; cbn.
  - split; [reflexivity|]. left. auto.
  - split; [reflexivity|]. right. left. auto.
Qed.

Lemma reads_as_read (s0 s : ifstream) (p n : Z) :
  reads_as s0 p s -> 0 <= p -> 0 <= n ->
  fst (stream_read n s) = bytes_at s0 p n /\
  reads_as s0 (p + n) (snd (stream_read n s)).
Proof.
  intros [Hc Hcases] Hp Hn. unfold bytes_at, reads_as.
  destruct s0 as [c0 p0 f0], s as [c1 p1 f1].
  cbn [contents position failbit] in *. subst c1.
  destruct Hcases as [[H0 H1]|[(H0 & H1 & Hpos)|(H0 & H1 & Hlen)]]; subst.
  - unfold stream_seekg, stream_read. cbn.
    split; [reflexivity|]. split; [reflexivity|]. left. auto.
  - unfold stream_seekg, stream_read. cbn [failbit contents position].
    destruct (Z.leb_spec n (Z.of_nat (length (drop (Z.to_nat p) c0))))
      as [Hle|Hgt]; cbn [fst snd contents failbit position].
    + split; [reflexivity|]. split; [reflexivity|]. right. left. auto.
    + split; [reflexivity|]. split; [reflexivity|]. right. right.
      rewrite length_drop in Hgt. split; [reflexivity|]. split; [reflexivity|]. lia.
  - unfold stream_seekg, stream_read. cbn [failbit contents position fst snd].
    rewrite drop_ge by lia. change (Z.of_nat (length (@nil byte))) with 0.
    destruct (Z.leb_spec n 0) as [Hle|Hgt]; cbn [fst].
    + replace n with 0 by lia. split; [reflexivity|].
      split; [reflexivity|]. right. right. split; [reflexivity|]. split; [reflexivity|]. lia.
    + split; [reflexivity|].
      split; [reflexivity|]. right. right. split; [reflexivity|]. split; [reflexivity|]. lia.
Qed.

Lemma chunk_count_small (size : Z) : size <= 1024 -> chunk_count size = 1.
Proof.
  intros H. unfold chunk_count, TransferBufferSize.
  destruct (Z.leb_spec size 1024); [reflexivity|lia].
Qed.

Lemma chunk_count_large (size : Z) :
  1024 < size -> chunk_count size = chunk_count (size - 1024) + 1.
Proof.
  intros H. unfold chunk_count, TransferBufferSize.
  destruct (Z.leb_spec size 1024); [lia|].
  destruct (Z.leb_spec (size - 1024) 1024).
  - assert (Hq : (size + 1024 - 1) / 1024 = 2); [|lia].
    symmetry. apply (Z.div_unique _ _ 2 (size - 1025)); lia.
  - replace (size + 1024 - 1) with (size - 1024 + 1024 - 1 + 1 * 1024) by lia.
    rewrite Z.div_add by lia. reflexivity.
Qed.

Lemma chunk_count_pos (size : Z) : 1 <= chunk_count size.
Proof.
  unfold chunk_count, TransferBufferSize.
  destruct (Z.leb_spec size 1024); [lia|].
  assert (1 * 1024 <= size + 1024 - 1) by lia.
  pose proof (Z.div_le_mono (1 * 1024) (size + 1024 - 1) 1024 ltac:(lia) H0) as Hd.
  rewrite Z.div_mul in Hd by lia. exact Hd.
Qed.

Lemma chunk_size_first (size : Z) : chunk_size size 0 = Z.min 1024 size.
Proof.
  unfold chunk_size, TransferBufferSize.
  destruct (Z.le_gt_cases size 1024).
  - rewrite chunk_count_small by assumption.
    change (0 <? 1 - 1) with false. cbv iota. lia.
  - pose proof (chunk_count_large size ltac:(lia)).
    pose proof (chunk_count_pos (size - 1024)).
    destruct (Z.ltb_spec 0 (chunk_count size - 1)); lia.
Qed.

Lemma chunk_size_shift (size i : Z) :
  1024 < size -> chunk_size size (1 + i) = chunk_size (size - 1024) i.
Proof.
  intros H. unfold chunk_size, TransferBufferSize.
  rewrite (chunk_count_large size H).
  destruct (Z.ltb_spec (1 + i) (chunk_count (size - 1024) + 1 - 1));
    destruct (Z.ltb_spec i (chunk_count (size - 1024) - 1)); lia.
Qed.

Lemma chunk_events_shift (s0 : ifstream) (p addr size i : Z) :
  1024 < size ->
  chunk_events s0 p addr size (1 + i)
  = chunk_events s0 (p + 1024) (addr + 1024) (size - 1024) i.
Proof.
  intros H. unfold chunk_events, TransferBufferSize.
  rewrite chunk_size_shift by assumption.
  replace (addr + 1024 * (1 + i)) with (addr + 1024 + 1024 * i) by lia.
  replace (p + 1024 * (1 + i)) with (p + 1024 + 1024 * i) by lia.
  reflexivity.
Qed.

Lemma seqZ_unfold (n : Z) : 0 < n -> seqZ 0 n = 0 :: map (Z.add 1) (seqZ 0 (n - 1)).
Proof.
  intros H. rewrite seqZ_cons by assumption.
  f_equal. change (map (Z.add 1) (seqZ 0 (n - 1))) with (Z.add 1 <$> seqZ 0 (n - 1)).
  rewrite fmap_add_seqZ. f_equal; lia.
Qed.

Lemma flat_map_map {A B C} (f : B -> list C) (g : A -> B) (l : list A) :
  flat_map f (map g l) = flat_map (fun a => f (g a)) l.
Proof. induction l as [|a l IH]; cbn; [reflexivity|]. rewrite IH. reflexivity. Qed.

Lemma translate_video_memory (addr : Z) :
  VRAM_PADDR <= addr < VRAM_PADDR_END ->
  translate addr = ret (addr + r_delta video_memory).
Proof.
  intros H. unfold translate.
  destruct (translate_in_region video_memory addr) as (_ & Htr & _).
  - simpl. auto.
  - unfold in_region. cbn [r_start r_end video_memory].
    apply andb_true_iff. split; [apply Z.leb_le|apply Z.ltb_lt]; lia.
  - rewrite Htr. reflexivity.
Qed.

Lemma transfer_chunks_events (s0 : ifstream) (n : nat) :
  forall (fuel : nat) (remaining addr p : Z) (w : World),
    Z.of_nat n = chunk_count remaining -> (n <= fuel)%nat ->
    0 <= remaining < 4294967296 -> 0 <= p ->
    VRAM_PADDR <= addr ->
    addr + 1024 * (chunk_count remaining - 1) < VRAM_PADDR_END ->
    reads_as s0 p (input w) ->
    exists w',
      transfer_chunks fuel remaining addr w = Done tt w' /\
      events w' =
        events w ++
        flat_map (chunk_events s0 p addr remaining) (seqZ 0 (chunk_count remaining)).
Proof.
  induction n as [|n IH]; intros fuel remaining addr p w Hn Hfuel Hrem Hp Hlo Hhi Hs.
  { pose proof (chunk_count_pos remaining). lia. }
  destruct fuel as [|fuel]; [lia|].
  pose proof (chunk_count_pos remaining) as Hcc.
  cbn [transfer_chunks]. unfold TransferBufferSize.
  assert (Haddr : VRAM_PADDR <= addr < VRAM_PADDR_END) by lia.
  rewrite (translate_video_memory addr Haddr).
  unfold bind at 1, ret at 1. unfold bind at 1, emit at 1.
  unfold bind at 1, read_bytes at 1.
  destruct (reads_as_read s0 (input w) p (Z.min 1024 remaining) Hs Hp ltac:(lia))
    as [Hgot Hnext].
  revert Hgot Hnext. world_simpl.
  destruct (stream_read (Z.min 1024 remaining) (input w)) as [got s1].
  cbn [fst snd]. intros -> Hnext.
  unfold bind at 1, emit at 1. unfold bind at 1, emit at 1.
  unfold bind at 1, ret at 1. unfold bind at 1, emit at 1.
  unfold bind at 1, emit at 1. world_simpl.
  destruct (Z.leb_spec remaining 1024) as [Hsmall|Hlarge].
  - eexists. split; [reflexivity|]. unfold ret. world_simpl.
    rewrite chunk_count_small by assumption.
    change (seqZ 0 1) with [0]. cbn [flat_map]. rewrite app_nil_r.
    unfold chunk_events, TransferBufferSize. rewrite chunk_size_first.
    rewrite !Z.mul_0_r, !Z.add_0_r. rewrite <- !app_assoc. reflexivity.
  - pose proof (chunk_count_large remaining Hlarge) as Hcl.
    pose proof (chunk_count_pos (remaining - 1024)) as Hcc'.
    rewrite (u32_small (remaining - 1024)) by lia.
    rewrite (u32_small (addr + 1024)) by (unfold VRAM_PADDR_END, VRAM_PADDR, VRAM_SIZE in *; lia).
    replace (Z.min 1024 remaining) with 1024 in * by lia.
    match goal with
    | |- context [transfer_chunks fuel (remaining - 1024) (addr + 1024) ?w1] =>
        destruct (IH fuel (remaining - 1024) (addr + 1024) (p + 1024) w1)
          as (w' & Hrun & Hev); try lia; [exact Hnext|]
    end.
    exists w'. split; [exact Hrun|]. rewrite Hev. world_simpl.
    rewrite (seqZ_unfold (chunk_count remaining)) by lia.
    cbn [flat_map]. rewrite flat_map_map.
    rewrite (flat_map_ext _ _
               (fun i => chunk_events_shift s0 p addr remaining i Hlarge)).
    replace (chunk_count remaining - 1) with (chunk_count (remaining - 1024)) by lia.
    unfold chunk_events at 2, TransferBufferSize. rewrite chunk_size_first.
    replace (Z.min 1024 remaining) with 1024 by lia.
    rewrite !Z.mul_0_r, !Z.add_0_r. rewrite <- !app_assoc. reflexivity.
Qed.

Lemma dma_sizes_app (a b : list Event) : dma_sizes (a ++ b) = dma_sizes a ++ dma_sizes b.
Proof. unfold dma_sizes. apply flat_map_app. Qed.

Lemma dma_sizes_chunks (s0 : ifstream) (p addr size : Z) (l : list Z) :
  dma_sizes (flat_map (chunk_events s0 p addr size) l) = map (chunk_size size) l.
Proof.
  induction l as [|i l IH]; [reflexivity|].
  cbn [flat_map map]. rewrite dma_sizes_app, IH. reflexivity.
Qed.

Lemma chunk_sizes_sum (n : nat) :
  forall size : Z,
    Z.of_nat n = chunk_count size -> 0 <= size ->
    sum_list (map (chunk_size size) (seqZ 0 (chunk_count size))) = size.
Proof.
  induction n as [|n IH]; intros size Hn Hsize.
  { pose proof (chunk_count_pos size). lia. }
  destruct (Z.le_gt_cases size 1024) as [Hsmall|Hlarge].
  - rewrite chunk_count_small by assumption.
    change (seqZ 0 1) with [0]. cbn [map sum_list foldr].
    rewrite chunk_size_first. lia.
  - pose proof (chunk_count_large size ltac:(lia)) as Hcl.
    pose proof (chunk_count_pos (size - 1024)) as Hcc.
    rewrite (seqZ_unfold (chunk_count size)) by lia.
    cbn [map]. rewrite map_map.
    rewrite (map_ext _ _ (fun i => chunk_size_shift size i ltac:(lia))).
    replace (chunk_count size - 1) with (chunk_count (size - 1024)) by lia.
    cbn [sum_list foldr]. fold (sum_list (map (chunk_size (size - 1024))
                                            (seqZ 0 (chunk_count (size - 1024))))).
    rewrite IH by lia. rewrite chunk_size_first. lia.
Qed.

Lemma chunk_size_last (size : Z) :
  0 <= size ->
  chunk_size size (chunk_count size - 1) =
    if size <=? 1024 then size
    else if size mod 1024 =? 0 then 1024 else size mod 1024.
Proof.
  intros Hsize. unfold chunk_size, TransferBufferSize.
  rewrite Z.ltb_irrefl.
  unfold chunk_count, TransferBufferSize.
  destruct (Z.leb_spec size 1024); [lia|].
  pose proof (Z.div_mod size 1024 ltac:(lia)) as Hdm.
  pose proof (Z.mod_pos_bound size 1024 ltac:(lia)) as Hr.
  destruct (Z.eqb_spec (size mod 1024) 0) as [H0|H0].
  - assert ((size + 1024 - 1) / 1024 = size / 1024); [|lia].
    symmetry. apply (Z.div_unique _ _ _ 1023). lia. lia.
  - assert ((size + 1024 - 1) / 1024 = size / 1024 + 1); [|lia].
    symmetry. apply (Z.div_unique _ _ _ (size mod 1024 - 1)); lia.
Qed.

(** C8, as amended.  For a memory load into video memory whose chunks all
    start inside video memory, the copy is made of [chunk_count size] DMA
    transfers: all of 1024 bytes but the last, which has [size] bytes when
    [size <= 1024] and otherwise [size mod 1024] bytes, or 1024 when that is
    0.  The sizes add up to [size]; the [i]-th transfer takes what the file
    holds at offset [file_offset + 1024 * i] and goes to the translation of
    [physical_address + 1024 * i]. *)
Theorem video_memory_load_chunks (fuel : nat) (memory_load : CTMemoryLoad) (w : World) :
  let size := ml_size memory_load in
  let pa := ml_physical_address memory_load in
  let off := ml_file_offset memory_load in
  let chunks := seqZ 0 (chunk_count size) in
  0 <= size < 0x100000000 -> 0 <= off ->
  VRAM_PADDR <= pa ->
  pa + TransferBufferSize * (chunk_count size - 1) < VRAM_PADDR_END ->
  (Z.to_nat (chunk_count size) <= fuel)%nat ->
  (exists w',
     play_memory_load fuel memory_load w = Done tt w' /\
     events w' =
       events w ++
       [linearAlloc TransferBufferSize;
        NetworkPrint (MsgLoadVRAM size off pa (pa + r_delta video_memory))] ++
       flat_map (chunk_events (input w) off pa size) chunks ++
       [linearFree] /\
     dma_sizes (events w') = dma_sizes (events w) ++ map (chunk_size size) chunks) /\
  (forall i, 0 <= i < chunk_count size - 1 -> chunk_size size i = TransferBufferSize) /\
  chunk_size size (chunk_count size - 1) =
    (if size <=? 1024 then size
     else if size mod 1024 =? 0 then 1024 else size mod 1024) /\
  sum_list (map (chunk_size size) chunks) = size.
Proof.
  intros size pa off chunks Hsize Hoff Hlo Hhi Hfuel.
  pose proof (chunk_count_pos size) as Hcc.
  assert (Hpa : VRAM_PADDR <= pa < VRAM_PADDR_END)
    by (unfold TransferBufferSize in Hhi; lia).
  split; [|split; [|split]].
  - destruct memory_load as [off' size' pa'].
    cbn [ml_size ml_physical_address ml_file_offset] in *. subst size pa off.
    unfold play_memory_load. cbn [ml_size ml_physical_address ml_file_offset].
    unfold bind at 1, seekg at 1.
    replace ((VRAM_PADDR <=? pa') && (pa' <? VRAM_PADDR_END)) with true
      by (symmetry; apply andb_true_iff; split; [apply Z.leb_le|apply Z.ltb_lt]; lia).
    unfold bind at 1, emit at 1.
    rewrite translate_video_memory by assumption.
    unfold bind at 1, ret at 1. unfold bind at 1, emit at 1.
    unfold bind at 1.
    match goal with
    | |- context [transfer_chunks fuel size' pa' ?w1] =>
        destruct (transfer_chunks_events (input w) (Z.to_nat (chunk_count size'))
                    fuel size' pa' off' w1) as (w1' & Hrun & Hev);
          try lia; try assumption
    end.
    { unfold with_events, with_input. cbn [input]. apply reads_as_seekg. }
    rewrite Hrun. unfold emit.
    eexists. split; [reflexivity|].
    revert Hev. world_simpl. intros ->.
    split.
    + rewrite <- !app_assoc. reflexivity.
    + rewrite !dma_sizes_app, dma_sizes_chunks. cbn [dma_sizes flat_map].
      rewrite !app_nil_r. reflexivity.
  - intros i Hi. unfold chunk_size.
    destruct (Z.ltb_spec i (chunk_count size - 1)); [reflexivity|lia].
  - apply chunk_size_last. lia.
  - apply (chunk_sizes_sum (Z.to_nat (chunk_count size))); lia.
Qed.

Lemma video_memory_load_chunks_witness :
  exists w',
    play_memory_load 2
      {| ml_file_offset := 0; ml_size := 1500; ml_physical_address := 0x18000000 |}
      (sample_world sample_file) = Done tt w' /\
    dma_sizes (events w') = [1024; 476].
Proof.
  destruct (video_memory_load_chunks 2
              {| ml_file_offset := 0; ml_size := 1500; ml_physical_address := 0x18000000 |}
              (sample_world sample_file))
    as [(w' & Hrun & _ & Hdma) _].
  - cbn. lia.
  - cbn. lia.
  - vm_compute. discriminate.
  - vm_compute. reflexivity.
  - vm_compute. lia.
  - exists w'. split; [exact Hrun|]. rewrite Hdma. reflexivity.
Defined.

(** C8 as stated fails.  A load of 2048 bytes at the last four bytes of video
    memory makes one transfer of 1024 bytes; the second chunk starts outside
    every region, the translation terminates the process, and the sizes
    transferred add up to 1024, not 2048. *)
Lemma video_memory_load_leaves_the_region :
  exists w',
    play_memory_load 2
      {| ml_file_offset := 0; ml_size := 2048; ml_physical_address := 0x185FFFFC |}
      (sample_world sample_file) = Terminated w' /\
    dma_sizes (events w') = [1024] /\
    sum_list (dma_sizes (events w')) <> 2048.
Proof.
  eexists. split; [vm_compute; reflexivity|].
  split; [reflexivity|]. vm_compute. discriminate.
Qed.

(** * Further properties of the code *)

(** ** The address translator, beyond the declared regions *)

(** X1. The translator fails (logs, closes the network log and terminates)
    exactly for the addresses that are not 0 and lie in no declared region. *)
Theorem translate_fails_exactly_outside (p : Z) :
  PhysicalToVirtualAddress p = None <-> untranslatable p.
Proof.
  split.
  - intros H. unfold untranslatable.
    unfold PhysicalToVirtualAddress in H.
    destruct (Z.eqb_spec p 0) as [|Hp0]; [discriminate|].
    destruct ((VRAM_PADDR <=? p) && (p <? VRAM_PADDR_END)) eqn:Hv; [discriminate|].
    destruct ((FCRAM_PADDR <=? p) && (p <? FCRAM_PADDR_END)) eqn:Hm; [discriminate|].
    destruct ((DSP_RAM_PADDR <=? p) && (p <? DSP_RAM_PADDR_END)) eqn:Hd; [discriminate|].
    destruct ((IO_AREA_PADDR <=? p) && (p <? IO_AREA_PADDR_END)) eqn:Hi; [discriminate|].
    split; [exact Hp0|].
    intros r [<-|[<-|[<-|[<-|[]]]]]; assumption.
  - intros H. apply untranslatable_facts. exact H.
Qed.

(** X2. On video memory, main RAM and DSP memory the translation is
    injective: two addresses of these regions with the same translation are
    the same address.  The IO register window is left out because its
    translated range overlaps the one of video memory: the IO address
    0x10500000 and the first byte of video memory translate to the same
    address. *)
Theorem translate_injective_outside_io :
  (forall (r1 r2 : Region) (p q : Z),
     In r1 [video_memory; main_ram; dsp_memory] ->
     In r2 [video_memory; main_ram; dsp_memory] ->
     in_region r1 p = true -> in_region r2 q = true ->
     PhysicalToVirtualAddress p = PhysicalToVirtualAddress q -> p = q) /\
  (in_region io_registers 0x10500000 = true /\
   in_region video_memory 0x18000000 = true /\
   PhysicalToVirtualAddress 0x10500000 = PhysicalToVirtualAddress 0x18000000).
Proof.
  split; [|repeat split].
  intros r1 r2 p q H1 H2 Hp Hq Heq.
  assert (Hd1 : In r1 declared_regions) by (simpl in *; tauto).
  assert (Hd2 : In r2 declared_regions) by (simpl in *; tauto).
  destruct (translate_in_region r1 p Hd1 Hp) as (_ & Hp' & _).
  destruct (translate_in_region r2 q Hd2 Hq) as (_ & Hq' & _).
  rewrite Hp', Hq' in Heq. injection Heq as Heq.
  unfold in_region in Hp, Hq.
  apply andb_true_iff in Hp as [Hp1 Hp2]. apply andb_true_iff in Hq as [Hq1 Hq2].
  apply Z.leb_le in Hp1, Hq1. apply Z.ltb_lt in Hp2, Hq2.
  destruct H1 as [<-|[<-|[<-|[]]]]; destruct H2 as [<-|[<-|[<-|[]]]];
    unfold_memory_map; lia.
Qed.

(** X3. For an address of the IO register window the register offset handed
    to the GSP service is the translated address minus 0x1EB00000, and it
    lies between 0x100000 and 0x1100000. *)
Theorem hw_register_agrees_with_translation (p : Z) :
  in_region io_registers p = true ->
  PhysicalToVirtualAddress p = Some (hw_register p + 0x1EB00000) /\
  0x100000 <= hw_register p < 0x1100000.
Proof.
  intros Hin.
  destruct (translate_in_region io_registers p) as (_ & Htr & _);
    [simpl; auto|exact Hin|].
  rewrite Htr.
  unfold in_region in Hin. apply andb_true_iff in Hin as [H1 H2].
  apply Z.leb_le in H1. apply Z.ltb_lt in H2.
  unfold hw_register. unfold_memory_map.
  rewrite u32_small by lia. split; [f_equal; lia|lia].
Qed.

Lemma hw_register_agrees_with_translation_witness :
  PhysicalToVirtualAddress 0x104018F0 = Some (hw_register 0x104018F0 + 0x1EB00000) /\
  0x100000 <= hw_register 0x104018F0 < 0x1100000.
Proof.
  apply (hw_register_agrees_with_translation 0x104018F0). reflexivity.
Defined.

(** Every register that starts an operation, and so is polled after the
    write, lies in the IO register window. *)
Lemma trigger_registers_in_io_window (p : Z) :
  triggers_operation p = true -> in_region io_registers p = true.
Proof.
  unfold triggers_operation. intros H.
  repeat (apply orb_true_iff in H as [H|H]);
    apply Z.eqb_eq in H; subst p; reflexivity.
Qed.

(** ** The packing, as a function of 24-bit lanes *)

Lemma pack_word0_u32 (v3 v2 : Z) : u32 (pack_word0 v3 v2) = pack_word0 v3 v2.
Proof. unfold pack_word0. bitwise. Qed.

Lemma pack_word1_u32 (v2 v1 : Z) : u32 (pack_word1 v2 v1) = pack_word1 v2 v1.
Proof. unfold pack_word1. bitwise. Qed.

Lemma pack_word2_u32 (v1 v0 : Z) : u32 (pack_word2 v1 v0) = pack_word2 v1 v0.
Proof. unfold pack_word2. bitwise. Qed.

(** X4. Whatever the four source values, each of the three packed words is a
    32-bit value. *)
Theorem packed_words_fit_32_bits (v0 v1 v2 v3 : Z) :
  let '(word0, word1, word2) := pack4to3 v0 v1 v2 v3 in
  0 <= word0 < 4294967296 /\ 0 <= word1 < 4294967296 /\ 0 <= word2 < 4294967296.
Proof.
  unfold pack4to3.
  rewrite <- (pack_word0_u32 v3 v2), <- (pack_word1_u32 v2 v1), <- (pack_word2_u32 v1 v0).
  repeat split; apply u32_range.
Qed.

Lemma pack_word0_low24 (v3 v2 : Z) : pack_word0 (low24 v3) (low24 v2) = pack_word0 v3 v2.
Proof. unfold pack_word0, low24. bitwise. Qed.

Lemma pack_word1_low24 (v2 v1 : Z) : pack_word1 (low24 v2) (low24 v1) = pack_word1 v2 v1.
Proof. unfold pack_word1, low24. bitwise. Qed.

Lemma pack_word2_low24 (v1 v0 : Z) : pack_word2 (low24 v1) (low24 v0) = pack_word2 v1 v0.
Proof. unfold pack_word2, low24. bitwise. Qed.

(** X5. Two groups of four values pack to the same three words exactly when
    they agree on the low 24 bits of each value. *)
Theorem pack_equal_iff_low24_equal (v0 v1 v2 v3 u0 u1 u2 u3 : Z) :
  pack4to3 v0 v1 v2 v3 = pack4to3 u0 u1 u2 u3 <->
  low24 v0 = low24 u0 /\ low24 v1 = low24 u1 /\
  low24 v2 = low24 u2 /\ low24 v3 = low24 u3.
Proof.
  split.
  - intros H. unfold pack4to3 in H. injection H as H0 H1 H2.
    rewrite <- (unpack_lane0 v1 v0), <- (unpack_lane0 u1 u0).
    rewrite <- (unpack_lane1 v2 v1 v0), <- (unpack_lane1 u2 u1 u0).
    rewrite <- (unpack_lane2 v3 v2 v1), <- (unpack_lane2 u3 u2 u1).
    rewrite <- (unpack_lane3 v3 v2), <- (unpack_lane3 u3 u2).
    rewrite H0, H1, H2. auto.
  - intros (H0 & H1 & H2 & H3). unfold pack4to3.
    rewrite <- (pack_word0_low24 v3 v2), <- (pack_word1_low24 v2 v1),
      <- (pack_word2_low24 v1 v0).
    rewrite H0, H1, H2, H3.
    rewrite pack_word0_low24, pack_word1_low24, pack_word2_low24. reflexivity.
Qed.

(** ** The register state mask *)

Lemma state_mask_entries :
  forallb (fun m => (0 <=? m) && (m <=? 0xF)) pica_register_state_mask = true.
Proof. vm_compute. reflexivity. Qed.

Lemma state_mask_range (regid : Z) : 0 <= state_mask regid <= 0xF.
Proof.
  unfold state_mask.
  destruct (pica_register_state_mask !! Z.to_nat regid) as [m|] eqn:Hm; simpl; [|lia].
  pose proof state_mask_entries as Hall.
  rewrite forallb_forall in Hall.
  specialize (Hall m).
  assert (Hin : In m pica_register_state_mask).
  { apply list_elem_of_In. eapply list_elem_of_lookup_2. exact Hm. }
  apply Hall in Hin. apply andb_true_iff in Hin as [H1 H2].
  apply Z.leb_le in H1, H2. lia.
Qed.

Lemma command_word_low (r m : Z) :
  Z.land (Z.lor (r mod 2 ^ 16) (Z.shiftl (m mod 2 ^ 4) 16)) 0xFFFF = r mod 2 ^ 16.
Proof. bitwise; drop_negative_bits. Qed.

Lemma command_word_high (r m : Z) :
  Z.shiftr (Z.lor (r mod 2 ^ 16) (Z.shiftl (m mod 2 ^ 4) 16)) 16 = m mod 2 ^ 4.
Proof. bitwise; drop_negative_bits. Qed.

Lemma command_word_bound (r m : Z) :
  (Z.lor (r mod 2 ^ 16) (Z.shiftl (m mod 2 ^ 4) 16)) mod 2 ^ 20
  = Z.lor (r mod 2 ^ 16) (Z.shiftl (m mod 2 ^ 4) 16).
Proof. bitwise; drop_negative_bits. Qed.

(** X6. The command word of a register of the snapshot, [regid | (mask <<
    16)], can be taken apart again: its low 16 bits are the register index
    and the bits above are the mask, which has at most four bits. *)
Theorem register_command_word_decodes (regid : Z) :
  0 <= regid < 0x300 ->
  let word := Z.lor regid (Z.shiftl (state_mask regid) 16) in
  Z.land word 0xFFFF = regid /\
  Z.shiftr word 16 = state_mask regid /\
  0 <= state_mask regid <= 0xF /\
  0 <= word < 0x100000.
Proof.
  intros Hr word. subst word.
  pose proof (state_mask_range regid) as Hm.
  assert (Hr16 : regid mod 2 ^ 16 = regid)
    by (apply Z.mod_small; change (2 ^ 16) with 65536; lia).
  assert (Hm4 : state_mask regid mod 2 ^ 4 = state_mask regid)
    by (apply Z.mod_small; change (2 ^ 4) with 16; lia).
  pose proof (command_word_low regid (state_mask regid)) as Hlow.
  pose proof (command_word_high regid (state_mask regid)) as Hhigh.
  pose proof (command_word_bound regid (state_mask regid)) as Hbound.
  rewrite Hr16, Hm4 in Hlow, Hhigh, Hbound.
  split; [exact Hlow|]. split; [exact Hhigh|]. split; [exact Hm|].
  rewrite <- Hbound. change 0x100000 with (2 ^ 20). apply Z.mod_pos_bound.
  reflexivity.
Qed.

Lemma register_command_word_decodes_witness :
  let word := Z.lor 0x41 (Z.shiftl (state_mask 0x41) 16) in
  Z.land word 0xFFFF = 0x41 /\
  Z.shiftr word 16 = state_mask 0x41 /\
  0 <= state_mask 0x41 <= 0xF /\
  0 <= word < 0x100000.
Proof. apply (register_command_word_decodes 0x41). lia. Defined.

(** ** The builder on any file *)

Lemma built_refl (w : World) : built w w [].
Proof.
  exists (input w). destruct w. unfold with_command_list, with_input. cbn.
  rewrite app_nil_r. reflexivity.
Qed.

Lemma built_trans (w w1 w2 : World) (e1 e2 : list Z) :
  built w w1 e1 -> built w1 w2 e2 -> built w w2 (e1 ++ e2).
Proof.
  intros [s1 ->] [s2 ->]. exists s2. destruct w.
  unfold with_command_list, with_input. cbn. rewrite app_assoc. reflexivity.
Qed.

Lemma built_push (x : Z) (w : World) :
  built w (with_command_list (command_list w ++ [x]) w) [x].
Proof. exists (input w). destruct w. reflexivity. Qed.

Lemma built_read (s : ifstream) (w : World) : built w (with_input s w) [].
Proof.
  exists s. destruct w. unfold with_command_list, with_input. cbn.
  rewrite app_nil_r. reflexivity.
Qed.

Lemma built_facts (w w' : World) (extra : list Z) :
  built w w' extra ->
  command_list w' = command_list w ++ extra /\ events w' = events w /\
  indeterminate w' = indeterminate w.
Proof. intros [s ->]. destruct w. auto. Qed.

Lemma push_back_read_returns (w : World) :
  exists x w', push_back_read w = Done tt w' /\ built w w' [x].
Proof.
  unfold push_back_read, bind at 1.
  destruct (read_into_returns [x00; x00; x00; x00] w) as (bytes & s & Hread).
  rewrite Hread. unfold push_back. eexists _, _. split; [reflexivity|].
  apply (built_trans w (with_input s w) _ [] [le_word bytes]);
    [apply built_read|apply built_push].
Qed.

Lemma default_attribute_body_returns (header : CTHeader) (i : Z) (w : World) :
  exists extra w',
    default_attribute_body header i tt w = Done tt w' /\
    built w w' extra /\ length extra = 5%nat.
Proof.
  unfold default_attribute_body. run.
  match goal with
  | |- context [read_into ?buf ?w1] =>
      destruct (read_into_returns buf w1) as (bytes & s & Hread); rewrite Hread
  end.
  world_simpl. eexists _, _. split; [reflexivity|].
  split.
  - exists s. destruct w. world_simpl.
    rewrite <- !app_assoc. cbn [app]. reflexivity.
  - reflexivity.
Qed.

Lemma default_attributes_returns (header : CTHeader) (l : list Z) :
  forall w : World,
    exists extra w',
      for_loop l tt (default_attribute_body header) w = Done tt w' /\
      built w w' extra /\ length extra = (5 * length l)%nat.
Proof.
  induction l as [|i l IH]; intros w.
  - exists [], w. split; [reflexivity|]. split; [apply built_refl|reflexivity].
  - cbn [for_loop]. unfold bind at 1.
    destruct (default_attribute_body_returns header i w) as (e1 & w1 & Hrun & Hb & Hlen).
    rewrite Hrun.
    destruct (IH w1) as (e2 & w2 & Hrun2 & Hb2 & Hlen2).
    exists (e1 ++ e2), w2. split; [exact Hrun2|].
    split; [eapply built_trans; eassumption|].
    rewrite length_app, Hlen, Hlen2. cbn [length]. lia.
Qed.

Lemma push_back_read_loop_returns (l : list Z) :
  forall w : World,
    exists extra w',
      for_loop l tt (fun _ _ => push_back_read) w = Done tt w' /\
      built w w' extra /\ length extra = length l.
Proof.
  induction l as [|i l IH]; intros w.
  - exists [], w. split; [reflexivity|]. split; [apply built_refl|reflexivity].
  - cbn [for_loop]. unfold bind at 1.
    destruct (push_back_read_returns w) as (x & w1 & Hrun & Hb). rewrite Hrun.
    destruct (IH w1) as (e2 & w2 & Hrun2 & Hb2 & Hlen2).
    exists ([x] ++ e2), w2. split; [exact Hrun2|].
    split; [eapply built_trans; eassumption|].
    cbn [app length]. rewrite Hlen2. reflexivity.
Qed.

Lemma read_values_returns (w : World) :
  exists bytes s, read_values w = Done bytes (with_input s w).
Proof.
  unfold read_values, bind at 1, uninitialized.
  apply read_into_returns.
Qed.

Lemma float_uniform_body_returns (id num_words index : Z) (written : bool) (w : World) :
  exists extra w',
    float_uniform_body id num_words index written w = Done true w' /\
    built w w' extra /\ length extra = (if written then 3 else 4)%nat.
Proof.
  unfold float_uniform_body, bind at 1.
  destruct (read_values_returns w) as (bytes & s & Hread). rewrite Hread.
  set (a := pack_word0 (word_at 3 bytes) (word_at 2 bytes)).
  set (b := pack_word1 (word_at 2 bytes) (word_at 1 bytes)).
  set (c := pack_word2 (word_at 1 bytes) (word_at 0 bytes)).
  destruct written.
  - exists [a; b; c], (with_command_list (command_list w ++ [a; b; c]) (with_input s w)).
    split; [|split; [exists s; reflexivity|reflexivity]].
    run. destruct w. world_simpl. rewrite <- !app_assoc. reflexivity.
  - set (h := float_uniform_header id num_words).
    exists [a; h; b; c],
      (with_command_list (command_list w ++ [a; h; b; c]) (with_input s w)).
    split; [|split; [exists s; reflexivity|reflexivity]].
    run. destruct w. world_simpl. rewrite <- !app_assoc. reflexivity.
Qed.

Lemma float_uniform_loop_returns (id num_words : Z) (l : list Z) :
  forall (written : bool) (w : World),
    exists b extra w',
      for_loop l written (float_uniform_body id num_words) w = Done b w' /\
      built w w' extra /\
      length extra =
        (match l with
         | [] => 0
         | _ => if written then 3 * length l else 3 * length l + 1
         end)%nat.
Proof.
  induction l as [|i l IH]; intros written w.
  - exists written, [], w. split; [reflexivity|]. split; [apply built_refl|reflexivity].
  - cbn [for_loop]. unfold bind at 1.
    destruct (float_uniform_body_returns id num_words i written w)
      as (e1 & w1 & Hrun & Hb & Hlen).
    rewrite Hrun.
    destruct (IH true w1) as (b & e2 & w2 & Hrun2 & Hb2 & Hlen2).
    exists b, (e1 ++ e2), w2. split; [exact Hrun2|].
    split; [eapply built_trans; eassumption|].
    rewrite length_app, Hlen, Hlen2. cbn [length].
    destruct written, l; cbn [length]; lia.
Qed.

Lemma SubmitInternalMemory_returns (file_offset num_words id : Z) (is_float_uniform : bool) (w : World) :
  0 <= num_words ->
  exists extra w',
    SubmitInternalMemory file_offset num_words id is_float_uniform w = Done tt w' /\
    built w w' extra /\
    Z.of_nat (length extra) =
      (if is_float_uniform then float_upload_length num_words
       else raw_upload_length num_words).
Proof.
  intros Hnw. unfold SubmitInternalMemory, float_upload_length, raw_upload_length.
  destruct (Z.eqb_spec num_words 0) as [->|Hne].
  - exists [], w. split; [reflexivity|]. split; [apply built_refl|].
    destruct is_float_uniform; reflexivity.
  - unfold bind at 1, push_back at 1. unfold bind at 1, push_back at 1.
    unfold bind at 1, seekg at 1.
    set (w0 := with_input _ _).
    assert (Hb0 : built w w0 [0; Z.lor id 0xF0000]).
    { subst w0. exists (stream_seekg file_offset (input w)). destruct w. world_simpl.
      rewrite <- !app_assoc. reflexivity. }
    destruct is_float_uniform.
    + unfold bind at 1.
      destruct (float_uniform_loop_returns id num_words (seqZ 1 (num_words / 4 - 1)) false w0)
        as (b & e & w1 & Hrun & Hb & Hlen).
      rewrite Hrun. unfold ret.
      eexists _, w1. split; [reflexivity|].
      split; [eapply built_trans; eassumption|].
      rewrite length_app, Hlen. cbn [length].
      pose proof (Z.div_pos num_words 4 Hnw ltac:(lia)) as Hg.
      destruct (Z.ltb_spec (num_words / 4) 2) as [Hsmall|Hlarge].
      * rewrite seqZ_nil by lia. reflexivity.
      * assert (Hl : length (seqZ 1 (num_words / 4 - 1)) = Z.to_nat (num_words / 4 - 1))
          by apply length_seqZ.
        destruct (seqZ 1 (num_words / 4 - 1)) as [|x l] eqn:Hseq;
          [cbn [length] in Hl; lia|].
        rewrite Hl. lia.
    + unfold bind at 1.
      destruct (push_back_read_returns w0) as (x & w1 & Hrun1 & Hb1). rewrite Hrun1.
      unfold bind at 1, push_back at 1.
      set (w2 := with_command_list _ w1).
      assert (Hb2 : built w1 w2 [raw_header id num_words]) by apply built_push.
      destruct (push_back_read_loop_returns (seqZ 1 (num_words - 1)) w2)
        as (e & w3 & Hrun3 & Hb3 & Hlen3).
      rewrite Hrun3.
      eexists _, w3. split; [reflexivity|].
      split.
      * eapply built_trans; [exact Hb0|].
        eapply built_trans; [exact Hb1|].
        eapply built_trans; [exact Hb2|exact Hb3].
      * rewrite !length_app, Hlen3, length_seqZ. cbn [length]. lia.
Qed.

(** X7. Whatever the file holds, an upload of internal memory returns and
    appends a number of words fixed by its word count alone: none for a count
    of 0; [num_words + 3] for raw data; for float uniforms 2 words when
    [num_words / 4 < 2] and [3 * (num_words / 4)] words otherwise.  It logs
    nothing. *)
Theorem upload_length (file_offset num_words id : Z) (is_float_uniform : bool) (w : World) :
  0 <= num_words ->
  exists extra w',
    SubmitInternalMemory file_offset num_words id is_float_uniform w = Done tt w' /\
    built w w' extra /\
    Z.of_nat (length extra) =
      (if is_float_uniform then float_upload_length num_words
       else raw_upload_length num_words).
Proof. apply SubmitInternalMemory_returns. Qed.

Lemma upload_length_witness :
  exists extra w',
    SubmitInternalMemory 28 3 0x29b false (sample_world sample_file) = Done tt w' /\
    built (sample_world sample_file) w' extra /\
    Z.of_nat (length extra) = raw_upload_length 3.
Proof.
  apply (upload_length 28 3 0x29b false (sample_world sample_file)). lia.
Defined.

(** ** The register snapshot *)

Lemma pica_register_body_returns (regid : Z) (w : World) :
  exists extra w',
    pica_register_body regid tt w = Done tt w' /\
    built w w' extra /\
    length extra = if state_mask regid =? 0 then 0%nat else 2%nat.
Proof.
  unfold pica_register_body. unfold bind at 1, uninitialized. cbv beta iota.
  unfold bind at 1.
  match goal with
  | |- context [read_into ?buf ?w1] =>
      destruct (read_into_returns buf w1) as (bytes & s & Hread); rewrite Hread
  end.
  destruct (state_mask regid =? 0).
  - exists [], (with_input s w). split; [reflexivity|].
    split; [apply built_read|reflexivity].
  - set (a := le_word bytes).
    set (b := Z.lor regid (Z.shiftl (state_mask regid) 16)).
    exists [a; b], (with_command_list (command_list w ++ [a; b]) (with_input s w)).
    split; [|split; [exists s; reflexivity|reflexivity]].
    run. destruct w. world_simpl. rewrite <- !app_assoc. reflexivity.
Qed.

Lemma pica_register_loop_returns (l : list Z) :
  forall w : World,
    exists extra w',
      for_loop l tt pica_register_body w = Done tt w' /\
      built w w' extra /\
      length extra =
        (2 * length (List.filter (fun regid => negb (state_mask regid =? 0)%Z) l))%nat.
Proof.
  induction l as [|regid l IH]; intros w.
  - exists [], w. split; [reflexivity|]. split; [apply built_refl|reflexivity].
  - cbn [for_loop]. unfold bind at 1.
    destruct (pica_register_body_returns regid w) as (e1 & w1 & Hrun & Hb & Hlen).
    rewrite Hrun.
    destruct (IH w1) as (e2 & w2 & Hrun2 & Hb2 & Hlen2).
    exists (e1 ++ e2), w2. split; [exact Hrun2|].
    split; [eapply built_trans; eassumption|].
    rewrite length_app, Hlen, Hlen2. cbn [List.filter].
    destruct (state_mask regid =? 0); cbn [negb length]; lia.
Qed.

Lemma submit_pica_registers_returns (header : CTHeader) (w : World) :
  exists extra w',
    submit_pica_registers header w = Done tt w' /\
    built w w' extra /\
    Z.of_nat (length extra) =
      2 * stateful_count (Z.min 0x300 (pica_registers_size (initial_state_offsets header))).
Proof.
  unfold submit_pica_registers, bind at 1, seekg at 1.
  change (Z.of_nat (length pica_register_state_mask)) with 0x300.
  match goal with
  | |- context [for_loop ?l tt pica_register_body ?w0] =>
      destruct (pica_register_loop_returns l w0) as (e & w1 & Hrun & Hb & Hlen)
  end.
  exists e, w1. split; [exact Hrun|].
  split.
  - eapply (built_trans w _ w1 [] e); [apply built_read|exact Hb].
  - rewrite Hlen. unfold stateful_count. lia.
Qed.

Lemma read_word_within (w : World) :
  failbit (input w) = false -> 0 <= position (input w) ->
  position (input w) + 4 <= Z.of_nat (length (contents (input w))) ->
  forall buf, length buf = 4%nat ->
  read_into buf w =
    Done (take 4 (drop (Z.to_nat (position (input w))) (contents (input w))))
         (with_input {| contents := contents (input w);
                        position := position (input w) + 4;
                        failbit := false |} w).
Proof.
  intros Hf Hp Hlen buf Hbuf.
  rewrite read_into_within by (rewrite ?Hbuf; first [assumption | lia]).
  rewrite Hbuf. reflexivity.
Qed.

Lemma pica_register_step (off regid : Z) (w : World) :
  let file := contents (input w) in
  failbit (input w) = false -> 0 <= off -> 0 <= regid ->
  position (input w) = off + 4 * regid ->
  off + 4 * regid + 4 <= Z.of_nat (length file) ->
  pica_register_body regid tt w =
    Done tt (with_command_list (command_list w ++ register_commands file off regid)
               (with_input {| contents := file; position := off + 4 * (regid + 1);
                              failbit := false |} w)).
Proof.
  intros file Hf Hoff Hreg Hpos Hlen. subst file.
  unfold pica_register_body. unfold bind at 1, uninitialized. cbv beta iota.
  unfold bind at 1.
  rewrite read_word_within; world_simpl; rewrite ?length_map, ?length_seq;
    try assumption; try lia; try reflexivity.
  unfold register_commands, file_word. rewrite Hpos.
  replace (off + 4 * regid + 4) with (off + 4 * (regid + 1)) by lia.
  destruct (state_mask regid =? 0).
  - unfold ret. destruct w. world_simpl. rewrite app_nil_r. reflexivity.
  - run. destruct w. world_simpl. rewrite <- !app_assoc. reflexivity.
Qed.

Lemma pica_register_loop (off : Z) (k : nat) :
  forall (first : Z) (w : World),
    let file := contents (input w) in
    failbit (input w) = false -> 0 <= off -> 0 <= first ->
    position (input w) = off + 4 * first ->
    off + 4 * (first + Z.of_nat k) <= Z.of_nat (length file) ->
    for_loop (seqZ first (Z.of_nat k)) tt pica_register_body w =
      Done tt (with_command_list
                 (command_list w ++
                  flat_map (register_commands file off) (seqZ first (Z.of_nat k)))
                 (with_input {| contents := file;
                                position := off + 4 * (first + Z.of_nat k);
                                failbit := false |} w)).
Proof.
  induction k as [|k IH]; intros first w file Hf Hoff Hfirst Hpos Hlen.
  - change (seqZ first (Z.of_nat 0)) with (@nil Z). cbn [for_loop flat_map].
    unfold ret. destruct w as [[c p f] cl ev hr kp hv sd ind].
    cbn in file, Hf, Hpos. subst. world_simpl.
    rewrite app_nil_r, Z.add_0_r. reflexivity.
  - rewrite seqZ_cons by lia. cbn [for_loop flat_map]. unfold bind at 1.
    rewrite (pica_register_step off first w) by (try assumption; fold file; lia).
    replace (Z.pred (Z.of_nat (S k))) with (Z.of_nat k) by lia.
    replace (Z.succ first) with (first + 1) by lia.
    rewrite IH; world_simpl; fold file; try reflexivity; try lia.
    destruct w as [[c p f] cl ev hr kp hv sd ind]. world_simpl.
    rewrite <- app_assoc.
    replace (first + 1 + Z.of_nat k) with (first + Z.of_nat (S k)) by lia.
    reflexivity.
Qed.

(** X8. With the register snapshot in the file, the replay appends, in
    ascending register order, a value word and a command word for every
    register below [min(0x300, pica_registers_size)] whose mask is not 0, and
    nothing for the others; the value words of skipped registers are read
    past all the same, so the value of a register is always the word at its
    own index in the snapshot. *)
Theorem register_snapshot_replay (header : CTHeader) (w : World) :
  let iso := initial_state_offsets header in
  let file := contents (input w) in
  let n := Z.min 0x300 (pica_registers_size iso) in
  failbit (input w) = false ->
  0 <= pica_registers iso -> 0 <= pica_registers_size iso ->
  pica_registers iso + 4 * n <= Z.of_nat (length file) ->
  submit_pica_registers header w =
    Done tt (with_command_list
               (command_list w ++
                flat_map (register_commands file (pica_registers iso)) (seqZ 0 n))
               (with_input {| contents := file;
                              position := pica_registers iso + 4 * n;
                              failbit := false |} w)).
Proof.
  intros iso file n Hf Hoff Hsize Hlen.
  unfold submit_pica_registers, bind at 1, seekg at 1. fold iso.
  change (Z.of_nat (length pica_register_state_mask)) with 0x300. fold n.
  assert (Hn : 0 <= n) by (subst n; lia).
  set (w0 := with_input (stream_seekg (pica_registers iso) (input w)) w).
  assert (Hw0 : input w0 = {| contents := contents (input w);
                              position := pica_registers iso; failbit := false |}).
  { subst w0. unfold with_input, stream_seekg. cbn [input]. rewrite Hf. reflexivity. }
  pose proof (pica_register_loop (pica_registers iso) (Z.to_nat n) 0 w0) as Hloop.
  cbv zeta in Hloop. rewrite Hw0 in Hloop. cbn [contents position failbit] in Hloop.
  rewrite Z2Nat.id in Hloop by assumption.
  rewrite Hloop by (subst file; first [reflexivity | lia]).
  subst w0. destruct w as [[c p f] cl ev hr kp hv sd ind]. world_simpl.
  cbn in Hf. subst f. reflexivity.
Qed.

Lemma register_snapshot_replay_witness :
  submit_pica_registers
    (header_of {| gpu_registers := 0; gpu_registers_size := 0;
                  pica_registers := 4; pica_registers_size := 2;
                  default_attributes := 0; default_attributes_size := 0;
                  vs_program_binary := 0; vs_program_binary_size := 0;
                  vs_swizzle_data := 0; vs_swizzle_data_size := 0;
                  vs_float_uniforms := 0; vs_float_uniforms_size := 0;
                  gs_program_binary := 0; gs_program_binary_size := 0;
                  gs_swizzle_data := 0; gs_swizzle_data_size := 0;
                  gs_float_uniforms := 0; gs_float_uniforms_size := 0 |} 0 0)
    (sample_world sample_file)
  = Done tt (with_command_list
               ([] ++ flat_map (register_commands sample_file 4) (seqZ 0 (Z.min 0x300 2)))
               (with_input {| contents := sample_file;
                              position := 4 + 4 * Z.min 0x300 2;
                              failbit := false |} (sample_world sample_file))).
Proof.
  apply (register_snapshot_replay
           (header_of {| gpu_registers := 0; gpu_registers_size := 0;
                         pica_registers := 4; pica_registers_size := 2;
                         default_attributes := 0; default_attributes_size := 0;
                         vs_program_binary := 0; vs_program_binary_size := 0;
                         vs_swizzle_data := 0; vs_swizzle_data_size := 0;
                         vs_float_uniforms := 0; vs_float_uniforms_size := 0;
                         gs_program_binary := 0; gs_program_binary_size := 0;
                         gs_swizzle_data := 0; gs_swizzle_data_size := 0;
                         gs_float_uniforms := 0; gs_float_uniforms_size := 0 |} 0 0)
           (sample_world sample_file)).
  - reflexivity.
  - cbn. lia.
  - cbn. lia.
  - vm_compute. discriminate.
Defined.

(** ** Raw uploads *)

Lemma push_back_read_within (w : World) :
  let file := contents (input w) in
  let p := position (input w) in
  failbit (input w) = false -> 0 <= p -> p + 4 <= Z.of_nat (length file) ->
  push_back_read w =
    Done tt (with_command_list (command_list w ++ [file_word file p])
               (with_input {| contents := file; position := p + 4; failbit := false |} w)).
Proof.
  intros file p Hf Hp Hlen. subst file p.
  unfold push_back_read, bind at 1.
  rewrite read_word_within by (first [assumption | reflexivity]).
  unfold push_back, file_word. destruct w. reflexivity.
Qed.

Lemma push_back_read_loop (l : list Z) :
  forall w : World,
    let file := contents (input w) in
    let p := position (input w) in
    failbit (input w) = false -> 0 <= p ->
    p + 4 * Z.of_nat (length l) <= Z.of_nat (length file) ->
    for_loop l tt (fun _ _ => push_back_read) w =
      Done tt (with_command_list (command_list w ++ words_from file p (length l))
                 (with_input {| contents := file;
                                position := p + 4 * Z.of_nat (length l);
                                failbit := false |} w)).
Proof.
  induction l as [|i l IH]; intros w file p Hf Hp Hlen; subst file p.
  - cbn [for_loop length words_from]. unfold ret.
    destruct w as [[c q f] cl ev hr kp hv sd ind]. cbn in Hf. subst f.
    world_simpl. rewrite app_nil_r, Z.add_0_r. reflexivity.
  - cbn [for_loop]. unfold bind at 1. cbn [length] in Hlen.
    rewrite push_back_read_within by (first [assumption | lia]).
    rewrite IH by (world_simpl; first [reflexivity | lia]).
    destruct w as [[c q f] cl ev hr kp hv sd ind]. world_simpl.
    cbn [length words_from]. rewrite <- app_assoc.
    replace (q + 4 + 4 * Z.of_nat (length l)) with (q + 4 * Z.of_nat (S (length l))) by lia.
    reflexivity.
Qed.

(** X9. A raw upload of [num_words] words that lie in the file appends the
    words 0 and [id | 0xF0000], then all [num_words] source words in file
    order with the data command header in second place, after the first
    word; it leaves the stream right behind the data. *)
Theorem raw_upload_shape (file_offset num_words id : Z) (w : World) :
  let file := contents (input w) in
  0 < num_words -> 0 <= file_offset ->
  file_offset + 4 * num_words <= Z.of_nat (length file) ->
  failbit (input w) = false ->
  SubmitInternalMemory file_offset num_words id false w =
    Done tt
      (with_command_list
         (command_list w ++ [0; Z.lor id 0xF0000] ++
          insert_after_first (raw_header id num_words)
            (words_from file file_offset (Z.to_nat num_words)))
         (with_input {| contents := file;
                        position := file_offset + 4 * num_words;
                        failbit := false |} w)).
Proof.
  intros file Hnw Hoff Hlen Hf. subst file.
  destruct w as [[c q f] cl ev hr kp hv sd ind]. cbn in Hf, Hlen. subst f.
  unfold SubmitInternalMemory.
  destruct (Z.eqb_spec num_words 0) as [->|_]; [lia|].
  unfold bind at 1, push_back at 1. world_simpl.
  unfold bind at 1, push_back at 1. world_simpl.
  unfold bind at 1, seekg at 1. world_simpl.
  unfold bind at 1.
  rewrite push_back_read_within by (cbn; first [reflexivity | lia]).
  world_simpl.
  unfold bind at 1, push_back at 1. world_simpl.
  pose proof (push_back_read_loop (seqZ 1 (num_words - 1))) as Hloop.
  rewrite length_seqZ in Hloop.
  rewrite Hloop by (cbn; first [reflexivity | lia]).
  world_simpl.
  replace (Z.to_nat num_words) with (S (Z.to_nat (num_words - 1))) by lia.
  cbn [words_from insert_after_first]. unfold file_word.
  rewrite <- !app_assoc. cbn [app].
  replace (file_offset + 4 + 4 * Z.of_nat (Z.to_nat (num_words - 1)))
    with (file_offset + 4 * num_words) by lia.
  reflexivity.
Qed.

Lemma raw_upload_shape_witness :
  SubmitInternalMemory 4 3 0x29b false (sample_world sample_file) =
    Done tt
      (with_command_list
         ([] ++ [0; Z.lor 0x29b 0xF0000] ++
          insert_after_first (raw_header 0x29b 3)
            (words_from sample_file 4 (Z.to_nat 3)))
         (with_input {| contents := sample_file; position := 4 + 4 * 3;
                        failbit := false |} (sample_world sample_file))).
Proof.
  apply (raw_upload_shape 4 3 0x29b (sample_world sample_file)).
  - lia.
  - lia.
  - vm_compute. discriminate.
  - reflexivity.
Defined.



(** ** Padding and the construction as a whole *)

Lemma pad_aligned (fuel : nat) (w : World) :
  Z.of_nat (length (command_list w)) mod 4 = 0 ->
  pad_command_list fuel w = Done tt w.
Proof.
  intros H. destruct fuel; cbn [pad_command_list];
    unfold bind at 1, command_list_size at 1; change (16 / 4) with 4;
    rewrite H; reflexivity.
Qed.

Lemma pad_one_turn (fuel : nat) (w : World) (l : list Z) (a b : Z) :
  command_list w = l ++ [a; b] ->
  Z.of_nat (length (command_list w)) mod 4 = 2 ->
  Z.of_nat (length (command_list w)) < 4294967296 ->
  pad_command_list (S fuel) w =
    Done tt (with_command_list (command_list w ++ [a; b]) w).
Proof.
  intros Hcl Hmod Hsmall.
  assert (Hlen : length (command_list w) = (length l + 2)%nat)
    by (rewrite Hcl, length_app; reflexivity).
  cbn [pad_command_list]. unfold bind at 1, command_list_size at 1.
  change (16 / 4) with 4. rewrite Hmod. cbn [Z.eqb].
  unfold bind at 1, command_list_at at 1.
  rewrite u32_small by lia.
  replace (Z.to_nat (Z.of_nat (length (command_list w)) - 2)) with (length l) by lia.
  rewrite Hcl at 1. rewrite lookup_app_r by lia.
  rewrite Nat.sub_diag. cbn [lookup list_lookup].
  unfold bind at 1, push_back at 1.
  unfold bind at 1, command_list_size at 1.
  unfold bind at 1, command_list_at at 1.
  set (w1 := with_command_list (command_list w ++ [a]) w).
  assert (Hcl1 : command_list w1 = l ++ [a; b; a]).
  { subst w1. destruct w as [inp cl ev hr kp hv sd ind]. world_simpl.
    cbn [command_list] in Hcl. rewrite Hcl, <- app_assoc. reflexivity. }
  assert (Hlen1 : length (command_list w1) = (length l + 3)%nat)
    by (rewrite Hcl1, length_app; reflexivity).
  rewrite u32_small by lia.
  replace (Z.to_nat (Z.of_nat (length (command_list w1)) - 2)) with (S (length l)) by lia.
  rewrite Hcl1. rewrite lookup_app_r by lia.
  replace (S (length l) - length l)%nat with 1%nat by lia. cbn [lookup list_lookup].
  unfold bind at 1, push_back at 1.
  rewrite pad_aligned.
  - subst w1. destruct w as [inp cl ev hr kp hv sd ind]. world_simpl.
    rewrite <- !app_assoc. reflexivity.
  - subst w1. destruct w as [inp cl ev hr kp hv sd ind]. world_simpl.
    cbn [command_list] in Hmod.
    rewrite !length_app. cbn [length].
    replace (Z.of_nat (length cl + 1 + 1)) with (Z.of_nat (length cl) + 2) by lia.
    rewrite <- Z.add_mod_idemp_l by lia. rewrite Hmod. reflexivity.
Qed.

(** X11. The padding leaves a list whose length is a multiple of four as it
    is; a list whose length is two more than a multiple of four gets its last
    two words appended once more, in the same order, and the loop ends. *)
Theorem padding_repeats_last_command (fuel : nat) (w : World) (l : list Z) (a b : Z) :
  command_list w = l ++ [a; b] ->
  Z.of_nat (length (command_list w)) < 4294967296 ->
  (Z.of_nat (length (command_list w)) mod 4 = 0 ->
   pad_command_list fuel w = Done tt w) /\
  (Z.of_nat (length (command_list w)) mod 4 = 2 ->
   pad_command_list (S fuel) w =
     Done tt (with_command_list (l ++ [a; b; a; b]) w)).
Proof.
  intros Hcl Hsmall. split.
  - apply pad_aligned.
  - intros Hmod. rewrite (pad_one_turn fuel w l a b Hcl Hmod Hsmall).
    rewrite Hcl, <- app_assoc. reflexivity.
Qed.

Lemma padding_repeats_last_command_witness :
  (Z.of_nat (length (command_list
     (with_command_list [1; 2; 3; 4; 5; 6] (sample_world sample_file)))) mod 4 = 0 ->
   pad_command_list 0 (with_command_list [1; 2; 3; 4; 5; 6] (sample_world sample_file))
   = Done tt (with_command_list [1; 2; 3; 4; 5; 6] (sample_world sample_file))) /\
  (Z.of_nat (length (command_list
     (with_command_list [1; 2; 3; 4; 5; 6] (sample_world sample_file)))) mod 4 = 2 ->
   pad_command_list 1 (with_command_list [1; 2; 3; 4; 5; 6] (sample_world sample_file))
   = Done tt (with_command_list ([1; 2; 3; 4] ++ [5; 6; 5; 6])
                (with_command_list [1; 2; 3; 4; 5; 6] (sample_world sample_file)))).
Proof.
  apply (padding_repeats_last_command 0
           (with_command_list [1; 2; 3; 4; 5; 6] (sample_world sample_file))
           [1; 2; 3; 4] 5 6).
  - reflexivity.
  - vm_compute. reflexivity.
Defined.

Lemma pad_two_more (fuel : nat) (w : World) :
  Z.of_nat (length (command_list w)) mod 4 = 2 ->
  exists x y,
    pad_command_list (S fuel) w =
      Done tt (with_command_list (command_list w ++ [x; y]) w).
Proof.
  intros Hmod.
  assert (Hlen : 2 <= Z.of_nat (length (command_list w))).
  { destruct (command_list w) as [|a [|b l]]; cbn [length] in *;
      [discriminate Hmod|discriminate Hmod|lia]. }
  cbn [pad_command_list]. unfold bind at 1, command_list_size at 1.
  change (16 / 4) with 4. rewrite Hmod. cbn [Z.eqb].
  destruct (command_list_at_in_range (u32 (Z.of_nat (length (command_list w)) - 2)) w)
    as [x Hx]; [apply u32_index_in_range; lia|].
  unfold bind at 1. rewrite Hx.
  unfold bind at 1, push_back at 1.
  unfold bind at 1, command_list_size at 1.
  set (w1 := with_command_list (command_list w ++ [x]) w).
  assert (Hlen1 : length (command_list w1) = S (length (command_list w))).
  { subst w1. destruct w as [inp cl ev hr kp hv sd ind]. world_simpl.
    rewrite length_app. cbn [length]. lia. }
  destruct (command_list_at_in_range (u32 (Z.of_nat (length (command_list w1)) - 2)) w1)
    as [y Hy]; [apply u32_index_in_range; lia|].
  unfold bind at 1. rewrite Hy.
  unfold bind at 1, push_back at 1.
  exists x, y. rewrite pad_aligned.
  - subst w1. destruct w as [inp cl ev hr kp hv sd ind]. world_simpl.
    rewrite <- !app_assoc. reflexivity.
  - subst w1. destruct w as [inp cl ev hr kp hv sd ind]. world_simpl.
    cbn [command_list] in Hmod.
    rewrite !length_app. cbn [length].
    replace (Z.of_nat (length cl + 1 + 1)) with (Z.of_nat (length cl) + 2) by lia.
    rewrite <- Z.add_mod_idemp_l by lia. rewrite Hmod. reflexivity.
Qed.

Lemma stateful_count_nonneg (n : Z) : 0 <= stateful_count n.
Proof. unfold stateful_count. lia. Qed.

Lemma initial_state_length_not_1 (header : CTHeader) :
  sizes_unsigned header -> initial_state_length header <> 1.
Proof.
  intros (Hda & H1 & H2 & H3 & H4 & H5 & H6 & _).
  unfold initial_state_length, raw_upload_length, float_upload_length.
  pose proof (Z.div_pos _ 4 Hda ltac:(lia)).
  pose proof (stateful_count_nonneg
                (Z.min 0x300 (pica_registers_size (initial_state_offsets header)))).
  split_comparisons; lia.
Qed.

Lemma bind_assoc {A B C} (c : M A) (k : A -> M B) (h : B -> M C) (w : World) :
  bind (bind c k) h w = bind c (fun a => bind (k a) h) w.
Proof. unfold bind. destruct (c w); reflexivity. Qed.

Lemma bind_returns {A B} (c : M A) (k : A -> M B) (w w' : World) (a : A) :
  c w = Done a w' -> bind c k w = k a w'.
Proof. intros H. unfold bind. rewrite H. reflexivity. Qed.

Lemma submit_shader_setup_returns (header : CTHeader) (w : World) :
  sizes_unsigned header ->
  let iso := initial_state_offsets header in
  exists extra w',
    submit_shader_setup header w = Done tt w' /\ built w w' extra /\
    Z.of_nat (length extra) =
      raw_upload_length (gs_program_binary_size iso)
      + raw_upload_length (gs_swizzle_data_size iso)
      + float_upload_length (gs_float_uniforms_size iso)
      + raw_upload_length (vs_program_binary_size iso)
      + raw_upload_length (vs_swizzle_data_size iso)
      + float_upload_length (vs_float_uniforms_size iso).
Proof.
  intros (_ & H1 & H2 & H3 & H4 & H5 & H6 & _) iso. fold iso in H1, H2, H3, H4, H5, H6.
  unfold submit_shader_setup. fold iso.
  destruct (SubmitInternalMemory_returns (gs_program_binary iso) _ 0x29b false w H1)
    as (e1 & w1 & R1 & B1 & L1).
  destruct (SubmitInternalMemory_returns (gs_swizzle_data iso) _ 0x2a5 false w1 H2)
    as (e2 & w2 & R2 & B2 & L2).
  destruct (SubmitInternalMemory_returns (gs_float_uniforms iso) _ 0x290 true w2 H3)
    as (e3 & w3 & R3 & B3 & L3).
  destruct (SubmitInternalMemory_returns (vs_program_binary iso) _ 0x2cb false w3 H4)
    as (e4 & w4 & R4 & B4 & L4).
  destruct (SubmitInternalMemory_returns (vs_swizzle_data iso) _ 0x2d5 false w4 H5)
    as (e5 & w5 & R5 & B5 & L5).
  destruct (SubmitInternalMemory_returns (vs_float_uniforms iso) _ 0x2c0 true w5 H6)
    as (e6 & w6 & R6 & B6 & L6).
  exists (e1 ++ e2 ++ e3 ++ e4 ++ e5 ++ e6), w6.
  split.
  - rewrite (bind_returns _ _ _ _ _ R1), (bind_returns _ _ _ _ _ R2),
      (bind_returns _ _ _ _ _ R3), (bind_returns _ _ _ _ _ R4),
      (bind_returns _ _ _ _ _ R5). exact R6.
  - split.
    + eapply built_trans; [exact B1|]. eapply built_trans; [exact B2|].
      eapply built_trans; [exact B3|]. eapply built_trans; [exact B4|].
      eapply built_trans; [exact B5|exact B6].
    + rewrite !length_app, !Nat2Z.inj_add, L1, L2, L3, L4, L5, L6. lia.
Qed.

Lemma emit_initial_state_returns (header : CTHeader) (w : World) :
  sizes_unsigned header ->
  exists extra w',
    emit_initial_state header w = Done tt w' /\ built w w' extra /\
    Z.of_nat (length extra) = initial_state_length header.
Proof.
  intros Hsizes. pose proof Hsizes as (Hda & _ & _ & _ & _ & _ & _ & Hpr).
  unfold emit_initial_state, submit_default_attributes.
  destruct (default_attributes_returns header
              (seqZ 0 (default_attributes_size (initial_state_offsets header) / 4)) w)
    as (e1 & w1 & R1 & B1 & L1).
  destruct (submit_shader_setup_returns header w1 Hsizes) as (e2 & w2 & R2 & B2 & L2).
  destruct (submit_pica_registers_returns header w2) as (e3 & w3 & R3 & B3 & L3).
  exists (e1 ++ e2 ++ e3), w3. split.
  - rewrite (bind_returns _ _ _ _ _ R1), (bind_returns _ _ _ _ _ R2). exact R3.
  - split.
    + eapply built_trans; [exact B1|]. eapply built_trans; [exact B2|exact B3].
    + rewrite !length_app, !Nat2Z.inj_add, L1, L2, L3, length_seqZ.
      unfold initial_state_length.
      pose proof (Z.div_pos _ 4 Hda ltac:(lia)). lia.
Qed.

Lemma build_initial_state_split (fuel : nat) (header : CTHeader) (w : World) :
  build_initial_state fuel header w =
    bind (emit_initial_state header) (fun _ => pad_command_list fuel) w.
Proof.
  unfold build_initial_state, emit_initial_state, bind.
  destruct (submit_default_attributes header w) as [[] w1| | |]; try reflexivity.
  destruct (submit_shader_setup header w1) as [[] w2| | |]; reflexivity.
Qed.

Lemma build_initial_state_returns (header : CTHeader) (w : World) :
  sizes_unsigned header -> command_list w = [] ->
  let total := initial_state_length header in
  Z.even total = true ->
  forall fuel, exists w',
    build_initial_state (S fuel) header w = Done tt w' /\
    events w' = events w /\
    Z.of_nat (length (command_list w')) = (if total mod 4 =? 0 then total else total + 2).
Proof.
  intros Hsizes Hcl total Heven fuel.
  destruct (emit_initial_state_returns header w Hsizes) as (extra & w1 & Hrun & Hb & Hlen).
  destruct (built_facts w w1 extra Hb) as (Hcl1 & Hev1 & _).
  rewrite Hcl in Hcl1. cbn [app] in Hcl1. fold total in Hlen.
  rewrite build_initial_state_split, (bind_returns _ _ _ _ _ Hrun).
  destruct (Z.eqb_spec (total mod 4) 0) as [H0|H0].
  - exists w1. split; [apply pad_aligned; rewrite Hcl1, Hlen; exact H0|].
    split; [exact Hev1|]. rewrite Hcl1. exact Hlen.
  - assert (Hmod : Z.of_nat (length (command_list w1)) mod 4 = 2).
    { rewrite Hcl1, Hlen.
      apply Z.even_spec in Heven as [m Hm].
      pose proof (Z.div_mod total 4 ltac:(lia)).
      pose proof (Z.mod_pos_bound total 4 ltac:(lia)). lia. }
    destruct (pad_two_more fuel w1 Hmod) as (x & y & Hpad).
    eexists. split; [exact Hpad|].
    destruct w1 as [inp1 cl1 ev1 hr1 kp1 hv1 sd1 ind1]. world_simpl.
    cbn [events command_list] in Hev1, Hcl1. subst cl1.
    split; [exact Hev1|]. rewrite length_app. cbn [length]. lia.
Qed.

(** X12. Started on an empty list, the construction of the initial state
    emits a number of words that the header alone determines
    ([initial_state_length]) and never logs, terminates the process or reads
    the list out of range.  When that number is even the construction ends,
    with that many words if it is a multiple of four and two more otherwise;
    when it is odd the padding loop never ends. *)
Theorem initial_state_construction (header : CTHeader) (w : World) :
  sizes_unsigned header -> command_list w = [] ->
  let total := initial_state_length header in
  (Z.even total = true ->
   forall fuel, exists w',
     build_initial_state (S fuel) header w = Done tt w' /\
     events w' = events w /\
     Z.of_nat (length (command_list w')) = (if total mod 4 =? 0 then total else total + 2)) /\
  (Z.odd total = true ->
   forall fuel, build_initial_state fuel header w = OutOfFuel).
Proof.
  intros Hsizes Hcl total. split.
  - apply build_initial_state_returns; assumption.
  - intros Hodd fuel.
    destruct (emit_initial_state_returns header w Hsizes) as (extra & w1 & Hrun & Hb & Hlen).
    destruct (built_facts w w1 extra Hb) as (Hcl1 & Hev1 & _).
    rewrite Hcl in Hcl1. cbn [app] in Hcl1. fold total in Hlen.
    rewrite build_initial_state_split, (bind_returns _ _ _ _ _ Hrun).
    pose proof (initial_state_length_not_1 header Hsizes) as Hne. fold total in Hne.
    apply pad_odd_never_ends.
    + rewrite Hcl1, Hlen. exact Hodd.
    + rewrite Hcl1. apply Z.odd_spec in Hodd as [m Hm]. lia.
Qed.

Lemma initial_state_construction_witness :
  (Z.even (initial_state_length (header_of (with_default_attributes 0 4) 0 0)) = true ->
   forall fuel, exists w',
     build_initial_state (S fuel) (header_of (with_default_attributes 0 4) 0 0)
       (sample_world sample_file) = Done tt w' /\
     events w' = events (sample_world sample_file) /\
     Z.of_nat (length (command_list w')) =
       (if initial_state_length (header_of (with_default_attributes 0 4) 0 0) mod 4 =? 0
        then initial_state_length (header_of (with_default_attributes 0 4) 0 0)
        else initial_state_length (header_of (with_default_attributes 0 4) 0 0) + 2)) /\
  (Z.odd (initial_state_length (header_of (with_default_attributes 0 4) 0 0)) = true ->
   forall fuel,
     build_initial_state fuel (header_of (with_default_attributes 0 4) 0 0)
       (sample_world sample_file) = OutOfFuel).
Proof.
  apply (initial_state_construction (header_of (with_default_attributes 0 4) 0 0)
           (sample_world sample_file)).
  - unfold sizes_unsigned. cbn. lia.
  - reflexivity.
Defined.

(** ** Reading the stream *)

Lemma read_into_failed (buf : list byte) (w : World) :
  failbit (input w) = true -> read_into buf w = Done buf w.
Proof.
  intros Hf. unfold read_into, bind, read_bytes, stream_read. rewrite Hf.
  unfold ret. destruct w as [inp cl ev hr kp hv sd ind]. reflexivity.
Qed.

Lemma read_into_short (buf : list byte) (w : World) :
  let rest := drop (Z.to_nat (position (input w))) (contents (input w)) in
  failbit (input w) = false ->
  (length rest < length buf)%nat ->
  read_into buf w =
    Done (rest ++ drop (length rest) buf)
         (with_input {| contents := contents (input w);
                        position := position (input w) + Z.of_nat (length rest);
                        failbit := true |} w).
Proof.
  intros rest Hf Hshort. unfold read_into, bind, read_bytes, stream_read.
  rewrite Hf. fold rest.
  destruct (Z.leb_spec (Z.of_nat (length buf)) (Z.of_nat (length rest))); [lia|].
  reflexivity.
Qed.

Lemma map_constant {A B} (f : A -> B) (c : B) (l : list A) :
  Forall (fun x => f x = c) l -> map f l = replicate (length l) c.
Proof.
  induction 1 as [|x l Hx _ IH]; [reflexivity|].
  cbn [map length replicate]. rewrite Hx, IH. reflexivity.
Qed.

Section ReadStream.

Variable sizeof_CTStreamElement : nat.

Lemma padded_record_whole (file : list byte) (off i : Z) :
  0 <= off -> 0 <= i ->
  off + (i + 1) * Z.of_nat sizeof_CTStreamElement <= Z.of_nat (length file) ->
  padded_record_at file off sizeof_CTStreamElement i
  = record_at file off sizeof_CTStreamElement i.
Proof.
  intros Hoff Hi Hlen. unfold padded_record_at. cbv zeta.
  assert (Hl : length (record_at file off sizeof_CTStreamElement i) = sizeof_CTStreamElement).
  { unfold record_at. rewrite length_take, length_drop. nia. }
  rewrite Hl, Nat.sub_diag. apply app_nil_r.
Qed.

Lemma padded_record_past_end (file : list byte) (off i : Z) :
  0 <= off -> 0 <= i ->
  Z.of_nat (length file) <= off + i * Z.of_nat sizeof_CTStreamElement ->
  padded_record_at file off sizeof_CTStreamElement i
  = replicate sizeof_CTStreamElement x00.
Proof.
  intros Hoff Hi Hlen. unfold padded_record_at, record_at. cbv zeta.
  rewrite drop_ge by nia. rewrite take_nil. cbn [length app].
  rewrite Nat.sub_0_r. reflexivity.
Qed.

Lemma read_stream_loop_failed (l : list Z) :
  forall (stream : list (list byte)) (w : World),
    failbit (input w) = true ->
    Forall (fun i => 0 <= i < Z.of_nat (length stream)) l ->
    for_loop l stream
      (fun i stream =>
         match stream !! Z.to_nat i with
         | Some record =>
             record' <- read_into record ;;
             ret (<[Z.to_nat i := record']> stream)
         | None => fun _ => Undefined
         end) w = Done stream w.
Proof.
  induction l as [|i l IH]; intros stream w Hf Hl; [reflexivity|].
  inversion Hl as [|? ? Hi Hl']; subst. cbn [for_loop]. unfold bind at 1.
  destruct (lookup_lt_is_Some_2 stream (Z.to_nat i) ltac:(lia)) as [record Hrec].
  rewrite Hrec. unfold bind at 1. rewrite read_into_failed by exact Hf.
  unfold ret at 1. rewrite list_insert_id by exact Hrec.
  apply IH; assumption.
Qed.

Lemma read_stream_loop_padded (file : list byte) (off : Z) (k : nat) :
  forall (first : Z) (pre : list (list byte)) (m : nat) (w : World),
    (0 < sizeof_CTStreamElement)%nat ->
    contents (input w) = file -> failbit (input w) = false ->
    0 <= off -> 0 <= first ->
    position (input w) = off + first * Z.of_nat sizeof_CTStreamElement ->
    Z.of_nat (length pre) = first -> (k <= m)%nat ->
    exists w',
      for_loop (seqZ first (Z.of_nat k))
        (pre ++ replicate m (replicate sizeof_CTStreamElement x00))
        (fun i stream =>
           match stream !! Z.to_nat i with
           | Some record =>
               record' <- read_into record ;;
               ret (<[Z.to_nat i := record']> stream)
           | None => fun _ => Undefined
           end) w
      = Done (pre
              ++ map (padded_record_at file off sizeof_CTStreamElement)
                     (seqZ first (Z.of_nat k))
              ++ replicate (m - k) (replicate sizeof_CTStreamElement x00)) w' /\
      built w w' [].
Proof.
  induction k as [|k IH]; intros first pre m w Hsz Hc Hf Hoff Hfirst Hpos Hpre Hk.
  - change (seqZ first (Z.of_nat 0)) with (@nil Z). cbn [for_loop map app].
    exists w. split; [|apply built_refl]. rewrite Nat.sub_0_r. reflexivity.
  - destruct m as [|m]; [lia|].
    rewrite seqZ_cons by lia. cbn [for_loop map]. unfold bind at 1.
    replace (Z.pred (Z.of_nat (S k))) with (Z.of_nat k) by lia.
    replace (Z.succ first) with (first + 1) by lia.
    assert (Hidx : Z.to_nat first = length pre) by lia.
    assert (Hp0 : 0 <= position (input w)) by (rewrite Hpos; nia).
    set (zeros := replicate sizeof_CTStreamElement x00).
    cbn [replicate].
    rewrite Hidx, list_lookup_middle by reflexivity.
    unfold bind at 1.
    assert (Hz : length zeros = sizeof_CTStreamElement) by apply length_replicate.
    assert (Hins : forall record,
               <[length pre := record]> (pre ++ zeros :: replicate m zeros)
               = (pre ++ [record]) ++ replicate m zeros).
    { intros record.
      rewrite insert_app_r_alt by lia. rewrite Nat.sub_diag. cbn [list_insert].
      rewrite <- app_assoc. reflexivity. }
    destruct (Z.le_gt_cases
                (position (input w) + Z.of_nat sizeof_CTStreamElement)
                (Z.of_nat (length file))) as [Hin|Hout].
    + rewrite read_into_within by (rewrite ?Hz, ?Hc; first [assumption | lia]).
      unfold ret at 1. rewrite Hz, Hc, Hpos, Hins.
      match goal with
      | |- context [for_loop _ _ _ ?w1] =>
          destruct (IH (first + 1)
                      (pre ++ [take sizeof_CTStreamElement
                                 (drop (Z.to_nat (off + first * Z.of_nat sizeof_CTStreamElement))
                                       file)])
                      m w1) as (w' & Hrun & Hb)
      end; try reflexivity; try lia.
      * unfold with_input. cbn [input position]. lia.
      * rewrite length_app. cbn [length]. lia.
      * exists w'. split; [|eapply (built_trans w _ w' [] []); [apply built_read|exact Hb]].
        subst zeros. rewrite Hrun, <- app_assoc. cbn [app].
        rewrite padded_record_whole by lia. unfold record_at at 1.
        replace (S m - S k)%nat with (m - k)%nat by lia. reflexivity.
    + assert (Hrest : (length (drop (Z.to_nat (position (input w))) (contents (input w)))
                       < length zeros)%nat).
      { rewrite length_drop, Hc, Hz. lia. }
      rewrite read_into_short by first [assumption | exact Hrest].
      unfold ret at 1. rewrite Hins.
      rewrite read_stream_loop_failed.
      * eexists. split; [|apply built_read].
        f_equal. rewrite <- app_assoc. cbn [app]. f_equal. f_equal.
        -- unfold padded_record_at, record_at. cbv zeta.
           rewrite Hc, Hpos.
           rewrite take_ge by (rewrite length_drop; lia).
           f_equal. subst zeros. rewrite drop_replicate. reflexivity.
        -- rewrite (map_constant _ zeros).
           ++ rewrite length_seqZ, Nat2Z.id, <- replicate_add. f_equal. lia.
           ++ apply Forall_seqZ. intros i Hi.
              apply padded_record_past_end; nia.
      * reflexivity.
      * apply Forall_seqZ. intros i Hi.
        rewrite !length_app, length_replicate. cbn [length]. lia.
Qed.

(** X13. The stream read does not notice a file that ends early: whatever
    the length of the file, record [i] of the result holds the bytes the
    file has at offset [stream_offset + i * sizeof(CTStreamElement)],
    followed by zeros up to the size of a record.  A record the file holds
    in full is read as it is, a record cut short by the end of the file
    keeps zeros in its missing bytes, and every record past the end of the
    file is all zeros. *)
Theorem truncated_stream_is_zero_filled (header : CTHeader) (w : World) :
  let file := contents (input w) in
  (0 < sizeof_CTStreamElement)%nat ->
  failbit (input w) = false ->
  0 <= stream_offset header -> 0 <= stream_size header ->
  exists w',
    read_stream sizeof_CTStreamElement header w =
      Done (map (padded_record_at file (stream_offset header) sizeof_CTStreamElement)
                (seqZ 0 (stream_size header))) w' /\
    built w w' [].
Proof.
  intros file Hsz Hf Hoff Hsize.
  unfold read_stream, bind at 1, seekg at 1.
  set (w0 := with_input _ w).
  assert (Hw0 : input w0 = {| contents := file; position := stream_offset header;
                              failbit := false |}).
  { subst w0. unfold with_input, stream_seekg. cbn [input]. rewrite Hf. reflexivity. }
  pose proof (read_stream_loop_padded file (stream_offset header)
                (Z.to_nat (stream_size header)) 0 []
                (Z.to_nat (stream_size header)) w0) as Hloop.
  rewrite Hw0, !Z2Nat.id in Hloop by assumption.
  cbn [contents position failbit app length] in Hloop.
  destruct Hloop as (w' & Hrun & Hb); try reflexivity; try lia.
  exists w'. split; [|eapply (built_trans w _ w' [] []); [apply built_read|exact Hb]].
  rewrite Hrun, Nat.sub_diag. cbn [replicate]. rewrite app_nil_r. reflexivity.
Qed.

Lemma read_stream_loop (file : list byte) (off : Z) (k : nat) :
  forall (first : Z) (stream : list (list byte)) (w : World),
    contents (input w) = file -> failbit (input w) = false ->
    0 <= off -> 0 <= first ->
    position (input w) = off + first * Z.of_nat sizeof_CTStreamElement ->
    off + (first + Z.of_nat k) * Z.of_nat sizeof_CTStreamElement <= Z.of_nat (length file) ->
    first + Z.of_nat k <= Z.of_nat (length stream) ->
    Forall (fun record => length record = sizeof_CTStreamElement) stream ->
    exists w',
      for_loop (seqZ first (Z.of_nat k)) stream
        (fun i stream =>
           match stream !! Z.to_nat i with
           | Some record =>
               record' <- read_into record ;;
               ret (<[Z.to_nat i := record']> stream)
           | None => fun _ => Undefined
           end) w
      = Done (take (Z.to_nat first) stream
              ++ map (record_at file off sizeof_CTStreamElement) (seqZ first (Z.of_nat k))
              ++ drop (Z.to_nat (first + Z.of_nat k)) stream) w' /\
      built w w' [].
Proof.
  induction k as [|k IH]; intros first stream w Hc Hf Hoff Hfirst Hpos Hlen Hsl Hall.
  - change (seqZ first (Z.of_nat 0)) with (@nil Z). cbn [for_loop map app].
    exists w. split; [|apply built_refl]. unfold ret.
    rewrite Z.add_0_r, take_drop. reflexivity.
  - rewrite seqZ_cons by lia. cbn [for_loop map]. unfold bind at 1.
    destruct (lookup_lt_is_Some_2 stream (Z.to_nat first) ltac:(lia)) as [record Hrec].
    rewrite Hrec.
    assert (Hrl : length record = sizeof_CTStreamElement)
      by (eapply (Forall_lookup_1 _ _ _ _ Hall); exact Hrec).
    unfold bind at 1.
    rewrite read_into_within by (rewrite ?Hrl, ?Hc; first [assumption | nia]).
    unfold ret at 1. rewrite Hrl, Hc, Hpos.
    replace (Z.pred (Z.of_nat (S k))) with (Z.of_nat k) by lia.
    replace (Z.succ first) with (first + 1) by lia.
    match goal with
    | |- context [for_loop _ ?stream1 _ ?w1] =>
        destruct (IH (first + 1) stream1 w1) as (w' & Hrun & Hb)
    end; try reflexivity; try lia.
    + unfold with_input. cbn [input position]. nia.
    + rewrite length_insert. lia.
    + apply Forall_insert; [exact Hall|]. rewrite length_take, length_drop. nia.
    + exists w'. split; [|eapply (built_trans w _ w' [] []); [apply built_read|exact Hb]].
      rewrite Hrun. f_equal.
      replace (Z.to_nat (first + 1)) with (S (Z.to_nat first)) by lia.
      rewrite (take_S_r _ _ (take sizeof_CTStreamElement
                               (drop (Z.to_nat (off + first * Z.of_nat sizeof_CTStreamElement)) file)))
        by (apply list_lookup_insert_eq; lia).
      rewrite take_insert_ge by lia.
      rewrite drop_insert_lt by lia.
      rewrite <- app_assoc. cbn [app]. unfold record_at at 2.
      replace (first + 1 + Z.of_nat k) with (first + Z.of_nat (S k)) by lia.
      reflexivity.
Qed.

(** X14. When the file holds the [stream_size] records from
    [stream_offset] on, the stream read returns them in file order: record
    [i] is the [sizeof(CTStreamElement)] bytes at offset
    [stream_offset + i * sizeof(CTStreamElement)]. *)
Theorem read_stream_records (header : CTHeader) (w : World) :
  let file := contents (input w) in
  failbit (input w) = false ->
  0 <= stream_offset header -> 0 <= stream_size header ->
  stream_offset header + stream_size header * Z.of_nat sizeof_CTStreamElement
    <= Z.of_nat (length file) ->
  exists w',
    read_stream sizeof_CTStreamElement header w =
      Done (map (record_at file (stream_offset header) sizeof_CTStreamElement)
                (seqZ 0 (stream_size header))) w' /\
    built w w' [].
Proof.
  intros file Hf Hoff Hsize Hlen.
  unfold read_stream, bind at 1, seekg at 1.
  set (w0 := with_input _ w).
  assert (Hw0 : input w0 = {| contents := file; position := stream_offset header;
                              failbit := false |}).
  { subst w0. unfold with_input, stream_seekg. cbn [input]. rewrite Hf. reflexivity. }
  pose proof (read_stream_loop file (stream_offset header) (Z.to_nat (stream_size header)) 0
                (replicate (Z.to_nat (stream_size header))
                           (replicate sizeof_CTStreamElement x00)) w0) as Hloop.
  rewrite Hw0, length_replicate, !Z2Nat.id in Hloop by assumption.
  cbn [contents position failbit] in Hloop.
  destruct Hloop as (w' & Hrun & Hb); try reflexivity; try lia.
  - apply Forall_replicate. apply length_replicate.
  - exists w'. split; [|eapply (built_trans w _ w' [] []); [apply built_read|exact Hb]].
    rewrite Hrun. cbn [Z.to_nat take app].
    rewrite drop_ge by (rewrite length_replicate; lia).
    rewrite app_nil_r. reflexivity.
Qed.

End ReadStream.

Lemma truncated_stream_is_zero_filled_witness :
  exists w',
    read_stream 8 (header_of no_initial_state 20 3) (sample_world sample_file) =
      Done (map (padded_record_at sample_file 20 8) (seqZ 0 3)) w' /\
    built (sample_world sample_file) w' [].
Proof.
  apply (truncated_stream_is_zero_filled 8 (header_of no_initial_state 20 3)
           (sample_world sample_file)).
  - lia.
  - reflexivity.
  - cbn. lia.
  - cbn. lia.
Defined.

Lemma read_stream_records_witness :
  exists w',
    read_stream 8
      (header_of no_initial_state 16 2) (sample_world sample_file) =
      Done (map (record_at sample_file 16 8) (seqZ 0 2)) w' /\
    built (sample_world sample_file) w' [].
Proof.
  apply (read_stream_records 8 (header_of no_initial_state 16 2) (sample_world sample_file)).
  - reflexivity.
  - cbn. lia.
  - cbn. lia.
  - vm_compute. discriminate.
Defined.

(** ** The stream loop *)

Lemma play_stream_app_eq (fuel : nat) (l1 l2 : list CTStreamElement) (w : World) :
  play_stream fuel (l1 ++ l2) w =
    match play_stream fuel l1 w with
    | Done NextElement w1 => play_stream fuel l2 w1
    | other => other
    end.
Proof.
  revert w. induction l1 as [|e l1 IH]; intros w; [reflexivity|].
  cbn [app play_stream]. unfold bind, emit, keysDown_START, ret. world_simpl.
  destruct (start_down w (key_polls w)); [reflexivity|].
  destruct (play_element fuel e _) as [[|] w1| | |]; try reflexivity.
  apply IH.
Qed.

(** X15. Playing a stream made of two parts is playing the first part and,
    when that ends with the loop still running, the second part from the
    world reached; when the first part leaves the loop, terminates the
    process or fails, so does the whole. *)
Theorem play_stream_app (fuel : nat) (l1 l2 : list CTStreamElement) (w : World) :
  play_stream fuel (l1 ++ l2) w =
    match play_stream fuel l1 w with
    | Done NextElement w1 => play_stream fuel l2 w1
    | other => other
    end.
Proof. apply play_stream_app_eq. Qed.

(** X16. When the part of the stream played so far has left the loop
    running and START is not down, an element of unknown type logs one
    diagnostic and leaves the loop: whatever follows it in the stream is not
    played. *)
Theorem unknown_element_ends_the_session
    (fuel : nat) (pre rest : list CTStreamElement) (type : Z) (w w1 : World) :
  play_stream fuel pre w = Done NextElement w1 ->
  start_down w1 (key_polls w1) = false ->
  play_stream fuel (pre ++ UnknownElement type :: rest) w =
    Done GotoExit
      (log [hidScanInput; NetworkPrint (MsgUnknownElementType type)]
         (with_key_polls (S (key_polls w1)) w1)).
Proof.
  intros Hpre Hkey. rewrite play_stream_app_eq, Hpre.
  cbn [play_stream]. unfold bind at 1, emit at 1.
  unfold bind at 1, keysDown_START at 1. world_simpl. rewrite Hkey.
  unfold bind at 1. cbn [play_element]. run.
  destruct w1 as [inp cl ev hr kp hv sd ind]. world_simpl. rewrite <- !app_assoc. reflexivity.
Qed.

Lemma unknown_element_ends_the_session_witness :
  play_stream 1 ([FrameMarker] ++ UnknownElement 9 :: [FrameMarker]) (sample_world sample_file) =
    Done GotoExit
      (log [hidScanInput; NetworkPrint (MsgUnknownElementType 9)]
         (with_key_polls 2
            (log [hidScanInput; NetworkPrint MsgEndOfFrame; gfxSwapBuffersGpu;
                  gspWaitForVBlank]
               (with_key_polls 1 (sample_world sample_file))))).
Proof.
  apply (unknown_element_ends_the_session 1 [FrameMarker] [FrameMarker] 9
           (sample_world sample_file)
           (log [hidScanInput; NetworkPrint MsgEndOfFrame; gfxSwapBuffersGpu;
                 gspWaitForVBlank]
              (with_key_polls 1 (sample_world sample_file)))).
  - reflexivity.
  - reflexivity.
Defined.

(** X17. When the part of the stream played so far has left the loop
    running and START is down at the next check, the loop is left at once:
    the next element, whatever it is, and the rest of the stream are not
    played. *)
Theorem start_key_ends_the_session
    (fuel : nat) (pre rest : list CTStreamElement) (e : CTStreamElement) (w w1 : World) :
  play_stream fuel pre w = Done NextElement w1 ->
  start_down w1 (key_polls w1) = true ->
  play_stream fuel (pre ++ e :: rest) w =
    Done GotoExit (log [hidScanInput] (with_key_polls (S (key_polls w1)) w1)).
Proof.
  intros Hpre Hkey. rewrite play_stream_app_eq, Hpre.
  cbn [play_stream]. unfold bind at 1, emit at 1.
  unfold bind at 1, keysDown_START at 1. world_simpl. rewrite Hkey.
  unfold ret. destruct w1 as [inp cl ev hr kp hv sd ind]. reflexivity.
Qed.

Lemma start_key_ends_the_session_witness :
  play_stream 1 ([] ++ FrameMarker :: [FrameMarker])
    (opened sample_file 0 (fun _ => 0) (fun _ => true) (fun _ => xaa)) =
    Done GotoExit
      (log [hidScanInput]
         (with_key_polls 1
            (opened sample_file 0 (fun _ => 0) (fun _ => true) (fun _ => xaa)))).
Proof.
  apply (start_key_ends_the_session 1 [] [FrameMarker] FrameMarker
           (opened sample_file 0 (fun _ => 0) (fun _ => true) (fun _ => xaa))
           (opened sample_file 0 (fun _ => 0) (fun _ => true) (fun _ => xaa)));
    reflexivity.
Defined.

(** X18. A register write whose size class is none of 8, 16, 32 and 64
    bits ends the process (the lookup of the log format for size 0 throws)
    before anything is logged for it and before the hardware is touched; the
    rest of the stream is not played. *)
Theorem unknown_size_class_terminates
    (fuel : nat) (register_write : CTRegisterWrite) (rest : list CTStreamElement)
    (w : World) :
  rw_size register_write = SIZE_other ->
  start_down w (key_polls w) = false ->
  play_stream fuel (RegisterWrite register_write :: rest) w =
    Terminated (log [hidScanInput] (with_key_polls (S (key_polls w)) w)).
Proof.
  intros Hsize Hkey. destruct register_write as [pa sz value].
  cbn [rw_size] in Hsize. subst sz.
  cbn [play_stream]. unfold bind at 1, emit at 1.
  unfold bind at 1, keysDown_START at 1. world_simpl. rewrite Hkey.
  unfold bind at 1. cbn [play_element]. unfold bind at 1.
  unfold play_register_write.
  cbn [rw_size rw_physical_address rw_value register_write_size].
  change (0 <=? 4) with true. change ((0 =? 1) || (0 =? 2) || (0 =? 4)) with false.
  cbv iota. unfold bind at 1, terminate.
  destruct w as [inp cl ev hr kp hv sd ind]. reflexivity.
Qed.

Lemma unknown_size_class_terminates_witness :
  play_stream 1
    [RegisterWrite {| rw_physical_address := 0x1040001C; rw_size := SIZE_other;
                      rw_value := 1 |}; FrameMarker] (sample_world sample_file) =
    Terminated (log [hidScanInput] (with_key_polls 1 (sample_world sample_file))).
Proof.
  apply (unknown_size_class_terminates 1
           {| rw_physical_address := 0x1040001C; rw_size := SIZE_other; rw_value := 1 |}
           [FrameMarker] (sample_world sample_file)); reflexivity.
Defined.

(** ** The wait for a triggered operation, in full *)

Lemma wait_sees_bit_set (reg : Z) (m : nat) :
  forall (fuel : nat) (count : Z) (w : World),
    0 <= count -> count + Z.of_nat m <= 100 -> (m < fuel)%nat ->
    (forall j, (j < m)%nat -> Z.land (u32 (hw_value w (hw_reads w + j))) 1 = 0) ->
    Z.land (u32 (hw_value w (hw_reads w + m))) 1 <> 0 ->
    wait_for_completion fuel reg count w =
      Done tt (log (poll_events reg w m) (with_hw_reads (hw_reads w + m + 1) w)).
Proof.
  induction m as [|m IH]; intros fuel count w Hc Hm Hfuel Heven Hodd;
    (destruct fuel as [|fuel]; [lia|]);
    destruct w as [inp cl ev hr kp hv sd ind];
    cbn [hw_value hw_reads] in Heven, Hodd;
    cbn [wait_for_completion]; unfold bind at 1, ReadHWRegs at 1; world_simpl.
  - rewrite Nat.add_0_r in Hodd.
    destruct (Z.eqb_spec (Z.land (u32 (hv hr)) 1) 0) as [H0|_]; [contradiction|].
    cbn [negb]. unfold ret, poll_events. cbn [seq flat_map app]. world_simpl.
    rewrite !Nat.add_0_r. replace (hr + 1)%nat with (S hr) by lia. reflexivity.
  - pose proof (Heven 0%nat ltac:(lia)) as H0. rewrite Nat.add_0_r in H0.
    rewrite H0. cbn [Z.eqb negb].
    unfold bind at 1, emit at 1. world_simpl.
    destruct (Z.ltb_spec count 100); [|lia].
    rewrite IH; try lia; world_simpl.
    + unfold poll_events. world_simpl.
      cbn [seq flat_map]. rewrite <- seq_shift, flat_map_map.
      rewrite Nat.add_0_r.
      replace (S hr + m + 1)%nat with (hr + S m + 1)%nat by lia.
      replace (S hr + m)%nat with (hr + S m)%nat by lia.
      rewrite <- !app_assoc. cbn [app]. do 4 f_equal.
      f_equal. f_equal. apply flat_map_ext. intros j.
      replace (S hr + j)%nat with (hr + S j)%nat by lia. reflexivity.
    + intros j Hj.
      replace (S hr + j)%nat with (hr + S j)%nat by lia.
      apply (Heven (S j)). lia.
    + replace (S hr + m)%nat with (hr + S m)%nat by lia. exact Hodd.
Qed.

(** X19. The wait stops at the first read-back that shows the low bit: when
    the first [m] read-backs have it clear and the next has it set, with
    [m <= 100], the register is read back [m + 1] times, with a sleep of 1000
    ns after each of the first [m] and none after the last. *)
Theorem completion_poll_stops_at_first_set_bit (reg : Z) (m fuel : nat) (w : World) :
  (m <= 100)%nat -> (m < fuel)%nat ->
  (forall j, (j < m)%nat -> Z.land (u32 (hw_value w (hw_reads w + j))) 1 = 0) ->
  Z.land (u32 (hw_value w (hw_reads w + m))) 1 <> 0 ->
  wait_for_completion fuel reg 0 w =
    Done tt (log (poll_events reg w m) (with_hw_reads (hw_reads w + m + 1) w)) /\
  read_backs (poll_events reg w m) = S m.
Proof.
  intros Hm Hfuel Heven Hodd. split.
  - apply wait_sees_bit_set; try assumption; lia.
  - unfold poll_events. rewrite read_backs_app. cbn [read_backs List.filter length].
    assert (H : forall l, read_backs
                (flat_map (fun j => [GSPGPU_ReadHWRegs reg (u32 (hw_value w (hw_reads w + j)));
                                     svcSleepThread 1000]) l) = length l).
    { induction l as [|j l IHl]; [reflexivity|].
      cbn [flat_map]. rewrite read_backs_app, IHl. reflexivity. }
    rewrite H, length_seq. lia.
Qed.

Lemma completion_poll_stops_at_first_set_bit_witness :
  wait_for_completion 5 0x30001C 0
    (opened sample_file 0 (fun n => if (n <? 2)%nat then 0 else 1) (fun _ => false)
       (fun _ => xaa)) =
    Done tt
      (log (poll_events 0x30001C
              (opened sample_file 0 (fun n => if (n <? 2)%nat then 0 else 1)
                 (fun _ => false) (fun _ => xaa)) 2)
         (with_hw_reads (0 + 2 + 1)
            (opened sample_file 0 (fun n => if (n <? 2)%nat then 0 else 1)
               (fun _ => false) (fun _ => xaa)))) /\
  read_backs (poll_events 0x30001C
                (opened sample_file 0 (fun n => if (n <? 2)%nat then 0 else 1)
                   (fun _ => false) (fun _ => xaa)) 2) = 3%nat.
Proof.
  apply (completion_poll_stops_at_first_set_bit 0x30001C 2 5
           (opened sample_file 0 (fun n => if (n <? 2)%nat then 0 else 1)
              (fun _ => false) (fun _ => xaa))).
  - lia.
  - lia.
  - intros j Hj. cbn [hw_value hw_reads opened Nat.add].
    destruct j as [|[|j]]; [reflexivity|reflexivity|lia].
  - cbn. discriminate.
Defined.

(** X20. With fuel for 101 turns the wait always returns, whatever the
    hardware answers, after at least one and at most 101 read-backs. *)
Theorem completion_poll_is_bounded (reg : Z) (fuel : nat) (w : World) :
  (101 <= fuel)%nat ->
  exists w',
    wait_for_completion fuel reg 0 w = Done tt w' /\
    (read_backs (events w) + 1 <= read_backs (events w'))%nat /\
    (read_backs (events w') <= read_backs (events w) + 101)%nat.
Proof.
  intros Hfuel.
  destruct (wait_for_completion_returns reg fuel 0 w ltac:(lia) ltac:(lia))
    as (w' & Hrun & Hle & Hge).
  exists w'. split; [exact Hrun|]. split; [lia|].
  change (Z.to_nat (101 - 0)) with 101%nat in Hle. exact Hle.
Qed.

Lemma completion_poll_is_bounded_witness :
  exists w',
    wait_for_completion 101 0x30001C 0 (sample_world sample_file) = Done tt w' /\
    (read_backs (events (sample_world sample_file)) + 1 <= read_backs (events w'))%nat /\
    (read_backs (events w') <= read_backs (events (sample_world sample_file)) + 101)%nat.
Proof.
  apply (completion_poll_is_bounded 0x30001C 101 (sample_world sample_file)). lia.
Defined.

(** ** Memory loads outside video memory *)

(** X21. A memory load into main RAM, DSP memory or the IO window is one
    read from the file offset of the element to the translated address,
    followed by a cache flush of [size] bytes there.  A size below 2^31 is
    the count of the read.  A size from 2^31 on becomes a negative count:
    nothing is stored, the stream is left in the failed state, and the
    flush is issued with the full size all the same. *)
Theorem direct_memory_load (fuel : nat) (memory_load : CTMemoryLoad) (r : Region) (w : World) :
  let size := ml_size memory_load in
  let pa := ml_physical_address memory_load in
  let off := ml_file_offset memory_load in
  let dest := pa + r_delta r in
  In r [main_ram; dsp_memory; io_registers] -> in_region r pa = true ->
  0 <= size < 0x100000000 ->
  play_memory_load fuel memory_load w =
    if size <? 0x80000000 then
      Done tt
        (log [NetworkPrint (MsgLoad size off pa dest);
              input_read (Memory dest) size (bytes_at (input w) off size);
              GSPGPU_FlushDataCache (Memory dest) size]
           (with_input (snd (stream_read size (stream_seekg off (input w)))) w))
    else
      Done tt
        (log [NetworkPrint (MsgLoad size off pa dest);
              input_read (Memory dest) (size - 0x100000000) [];
              GSPGPU_FlushDataCache (Memory dest) size]
           (with_input {| contents := contents (input w);
                          position := position (stream_seekg off (input w));
                          failbit := true |} w)).
Proof.
  intros size pa off dest Hr Hin Hsize. subst dest.
  assert (Hd : In r declared_regions) by (simpl in *; tauto).
  destruct (translate_in_region r pa Hd Hin) as (_ & Htr & Hnz).
  assert (Hvram : (VRAM_PADDR <=? pa) && (pa <? VRAM_PADDR_END) = false).
  { unfold in_region in Hin. apply andb_true_iff in Hin as [H1 H2].
    apply Z.leb_le in H1. apply Z.ltb_lt in H2.
    destruct Hr as [<-|[<-|[<-|[]]]]; unfold_memory_map; split_comparisons;
      cbn [andb]; try reflexivity; lia. }
  destruct memory_load as [off' size' pa'].
  cbn [ml_size ml_physical_address ml_file_offset] in *. subst size pa off.
  unfold play_memory_load. cbn [ml_size ml_physical_address ml_file_offset].
  rewrite Hvram. unfold translate. rewrite Htr.
  unfold streamsize. rewrite (u32_small size') by lia.
  unfold bytes_at, read_count, read_bytes. destruct w as [[c q f] cl ev hr kp hv sd ind].
  run. cbv beta.
  destruct (Z.eqb_spec (pa' + r_delta r) 0) as [H0|_]; [contradiction|].
  destruct (Z.ltb_spec size' 0x80000000) as [Hsmall|Hbig].
  - destruct (Z.ltb_spec size' 0) as [Hneg|_]; [lia|].
    world_simpl.
    destruct (stream_read size' _) as [got s]. cbn [fst snd]. world_simpl.
    rewrite <- !app_assoc. reflexivity.
  - destruct (Z.ltb_spec (size' - 0x100000000) 0) as [_|Hpos]; [|lia].
    world_simpl. destruct f; world_simpl; rewrite <- !app_assoc; reflexivity.
Qed.

Lemma direct_memory_load_witness :
  play_memory_load 0
    {| ml_file_offset := 4; ml_size := 8; ml_physical_address := 0x20000100 |}
    (sample_world sample_file) =
    (if 8 <? 0x80000000 then
       Done tt
         (log [NetworkPrint (MsgLoad 8 4 0x20000100 (0x20000100 + r_delta main_ram));
               input_read (Memory (0x20000100 + r_delta main_ram)) 8
                 (bytes_at (input (sample_world sample_file)) 4 8);
               GSPGPU_FlushDataCache (Memory (0x20000100 + r_delta main_ram)) 8]
            (with_input
               (snd (stream_read 8 (stream_seekg 4 (input (sample_world sample_file)))))
               (sample_world sample_file)))
     else
       Done tt
         (log [NetworkPrint (MsgLoad 8 4 0x20000100 (0x20000100 + r_delta main_ram));
               input_read (Memory (0x20000100 + r_delta main_ram)) (8 - 0x100000000) [];
               GSPGPU_FlushDataCache (Memory (0x20000100 + r_delta main_ram)) 8]
            (with_input
               {| contents := contents (input (sample_world sample_file));
                  position := position (stream_seekg 4 (input (sample_world sample_file)));
                  failbit := true |}
               (sample_world sample_file)))) /\
  play_memory_load 0
    {| ml_file_offset := 4; ml_size := 0x80000000; ml_physical_address := 0x20000100 |}
    (sample_world sample_file) =
    (if 0x80000000 <? 0x80000000 then
       Done tt
         (log [NetworkPrint (MsgLoad 0x80000000 4 0x20000100
                               (0x20000100 + r_delta main_ram));
               input_read (Memory (0x20000100 + r_delta main_ram)) 0x80000000
                 (bytes_at (input (sample_world sample_file)) 4 0x80000000);
               GSPGPU_FlushDataCache (Memory (0x20000100 + r_delta main_ram)) 0x80000000]
            (with_input
               (snd (stream_read 0x80000000
                       (stream_seekg 4 (input (sample_world sample_file)))))
               (sample_world sample_file)))
     else
       Done tt
         (log [NetworkPrint (MsgLoad 0x80000000 4 0x20000100
                               (0x20000100 + r_delta main_ram));
               input_read (Memory (0x20000100 + r_delta main_ram))
                 (0x80000000 - 0x100000000) [];
               GSPGPU_FlushDataCache (Memory (0x20000100 + r_delta main_ram)) 0x80000000]
            (with_input
               {| contents := contents (input (sample_world sample_file));
                  position := position (stream_seekg 4 (input (sample_world sample_file)));
                  failbit := true |}
               (sample_world sample_file)))).
Proof.
  split.
  - apply (direct_memory_load 0
             {| ml_file_offset := 4; ml_size := 8; ml_physical_address := 0x20000100 |}
             main_ram (sample_world sample_file)).
    + simpl. auto.
    + reflexivity.
    + cbn. lia.
  - apply (direct_memory_load 0
             {| ml_file_offset := 4; ml_size := 0x80000000;
                ml_physical_address := 0x20000100 |}
             main_ram (sample_world sample_file)).
    + simpl. auto.
    + reflexivity.
    + cbn. lia.
Defined.

(** ** The command-list trigger *)

Lemma hw_writes_app (a b : list Event) :
  hw_writes (a ++ b) = (hw_writes a + hw_writes b)%nat.
Proof. unfold hw_writes. rewrite List.filter_app, length_app. reflexivity. Qed.

Lemma wait_for_completion_writes_nothing (fuel : nat) :
  forall (reg count : Z) (w w' : World),
    wait_for_completion fuel reg count w = Done tt w' ->
    hw_writes (events w') = hw_writes (events w).
Proof.
  induction fuel as [|fuel IH]; intros reg count w w' H; [discriminate|].
  cbn [wait_for_completion] in H. unfold bind at 1, ReadHWRegs at 1 in H.
  destruct (negb (Z.land (u32 (hw_value w (hw_reads w))) 1 =? 0)).
  - unfold ret in H. injection H as <-. destruct w as [inp cl ev hr kp hv sd ind]. world_simpl.
    rewrite hw_writes_app. cbn. lia.
  - unfold bind at 1, emit at 1 in H.
    destruct (count <? 100).
    + apply IH in H. rewrite H. destruct w as [inp cl ev hr kp hv sd ind]. world_simpl.
      rewrite !hw_writes_app. cbn. lia.
    + unfold ret in H. injection H as <-. destruct w as [inp cl ev hr kp hv sd ind]. world_simpl.
      rewrite !hw_writes_app. cbn. lia.
Qed.

(** X23. A write to the command-list trigger 0x104018F0 never reaches the
    register: the size and address registers are read back, the address
    times 8 is translated and the command list found there is submitted,
    and then the trigger register is polled.  The flags of the submission
    are the low 8 bits of the written value, the value being converted to
    the [u8] flags parameter.  No direct register write is issued.  When the
    address read back does not translate, the process terminates instead. *)
Theorem command_list_trigger_is_rerouted
    (fuel : nat) (register_write : CTRegisterWrite) (w : World) :
  rw_physical_address register_write = 0x104018F0 ->
  rw_size register_write <> SIZE_other ->
  let size := u32 (hw_value w (hw_reads w)) in
  let addr := u32 (hw_value w (S (hw_reads w))) in
  exists m : Message,
    match PhysicalToVirtualAddress (u32 (addr * 8)) with
    | Some vaddr =>
        play_register_write fuel register_write w =
          wait_for_completion fuel (hw_register 0x104018F0) 0
            (log [NetworkPrint m;
                  GSPGPU_ReadHWRegs (hw_register 0x104018E0) size;
                  GSPGPU_ReadHWRegs (hw_register 0x104018E8) addr;
                  GX_ProcessCommandList vaddr size (rw_value register_write mod 256);
                  NetworkPrint MsgWaiting]
               (with_hw_reads (S (S (hw_reads w))) w)) /\
        forall w', play_register_write fuel register_write w = Done tt w' ->
                   hw_writes (events w') = hw_writes (events w)
    | None =>
        play_register_write fuel register_write w =
          Terminated
            (log [NetworkPrint m;
                  GSPGPU_ReadHWRegs (hw_register 0x104018E0) size;
                  GSPGPU_ReadHWRegs (hw_register 0x104018E8) addr;
                  NetworkPrint (MsgUnknownPhysicalAddress (u32 (addr * 8)));
                  NetworkExit]
               (with_hw_reads (S (S (hw_reads w))) w))
    end.
Proof.
  intros Hpa Hsize size addr.
  destruct register_write as [pa sz value].
  cbn [rw_physical_address rw_size rw_value] in *. subst pa.
  assert (Hgen : forall m0 : Message,
    (emit (NetworkPrint m0) >>
     (if 0x104018F0 =? 0x104018F0
      then size' <- ReadHWRegs (hw_register 0x104018E0) ;;
           addr' <- ReadHWRegs (hw_register 0x104018E8) ;;
           vaddr <- translate (u32 (addr' * 8)) ;;
           emit (GX_ProcessCommandList vaddr size' (u8 value))
      else emit (GSPGPU_WriteHWRegs (hw_register 0x104018F0)
                   (Z.land value 0xFFFFFFFF) (register_write_size sz))) >>
     (if triggers_operation 0x104018F0
      then emit (NetworkPrint MsgWaiting) >>
           wait_for_completion fuel (hw_register 0x104018F0) 0
      else ret tt)) w =
    match PhysicalToVirtualAddress (u32 (addr * 8)) with
    | Some vaddr =>
        wait_for_completion fuel (hw_register 0x104018F0) 0
          (log [NetworkPrint m0;
                GSPGPU_ReadHWRegs (hw_register 0x104018E0) size;
                GSPGPU_ReadHWRegs (hw_register 0x104018E8) addr;
                GX_ProcessCommandList vaddr size (value mod 256);
                NetworkPrint MsgWaiting]
             (with_hw_reads (S (S (hw_reads w))) w))
    | None =>
        Terminated
          (log [NetworkPrint m0;
                GSPGPU_ReadHWRegs (hw_register 0x104018E0) size;
                GSPGPU_ReadHWRegs (hw_register 0x104018E8) addr;
                NetworkPrint (MsgUnknownPhysicalAddress (u32 (addr * 8)));
                NetworkExit]
             (with_hw_reads (S (S (hw_reads w))) w))
    end).
  { intros m0. change (0x104018F0 =? 0x104018F0) with true.
    change (triggers_operation 0x104018F0) with true. cbv iota.
    subst size addr.
    unfold bind at 1, emit at 1. unfold bind at 1. unfold bind at 1.
    unfold ReadHWRegs at 1. unfold bind at 1. unfold ReadHWRegs at 1.
    world_simpl. unfold bind at 1. unfold translate.
    destruct (PhysicalToVirtualAddress _) as [vaddr|].
    - unfold ret at 1. unfold emit at 1. unfold bind at 1, emit at 1.
      destruct w as [inp cl ev hr kp hv sd ind]. world_simpl. rewrite <- !app_assoc. reflexivity.
    - run. destruct w as [inp cl ev hr kp hv sd ind]. world_simpl. rewrite <- !app_assoc. reflexivity. }
  unfold play_register_write.
  cbn [rw_physical_address rw_size rw_value].
  destruct sz; [| | | |contradiction];
    cbn [register_write_size Z.leb Z.eqb Z.compare Pos.compare Pos.compare_cont
         Pos.eqb orb];
    eexists; rewrite Hgen;
    (destruct (PhysicalToVirtualAddress _) as [vaddr|]; [|reflexivity]);
    (split; [reflexivity|]);
    intros w' Hrun; apply wait_for_completion_writes_nothing in Hrun;
    rewrite Hrun; destruct w as [inp cl ev hr kp hv sd ind]; unfold log; world_simpl;
    rewrite hw_writes_app; cbn; lia.
Qed.

Lemma command_list_trigger_is_rerouted_witness :
  exists m : Message,
    match PhysicalToVirtualAddress
            (u32 (u32 (hw_value (opened sample_file 0 (fun _ => 0x03000001)
                                   (fun _ => false) (fun _ => xaa))
                                (S (hw_reads (opened sample_file 0 (fun _ => 0x03000001)
                                                (fun _ => false) (fun _ => xaa))))) * 8))
    with
    | Some vaddr =>
        play_register_write 101
          {| rw_physical_address := 0x104018F0; rw_size := SIZE_32; rw_value := 0x1FF |}
          (opened sample_file 0 (fun _ => 0x03000001) (fun _ => false) (fun _ => xaa)) =
          wait_for_completion 101 (hw_register 0x104018F0) 0
            (log [NetworkPrint m;
                  GSPGPU_ReadHWRegs (hw_register 0x104018E0) (u32 0x03000001);
                  GSPGPU_ReadHWRegs (hw_register 0x104018E8) (u32 0x03000001);
                  GX_ProcessCommandList vaddr (u32 0x03000001) (0x1FF mod 256);
                  NetworkPrint MsgWaiting]
               (with_hw_reads 2
                  (opened sample_file 0 (fun _ => 0x03000001) (fun _ => false)
                     (fun _ => xaa)))) /\
        forall w',
          play_register_write 101
            {| rw_physical_address := 0x104018F0; rw_size := SIZE_32; rw_value := 0x1FF |}
            (opened sample_file 0 (fun _ => 0x03000001) (fun _ => false) (fun _ => xaa))
          = Done tt w' ->
          hw_writes (events w') =
          hw_writes (events (opened sample_file 0 (fun _ => 0x03000001) (fun _ => false)
                               (fun _ => xaa)))
    | None =>
        play_register_write 101
          {| rw_physical_address := 0x104018F0; rw_size := SIZE_32; rw_value := 0x1FF |}
          (opened sample_file 0 (fun _ => 0x03000001) (fun _ => false) (fun _ => xaa)) =
          Terminated
            (log [NetworkPrint m;
                  GSPGPU_ReadHWRegs (hw_register 0x104018E0) (u32 0x03000001);
                  GSPGPU_ReadHWRegs (hw_register 0x104018E8) (u32 0x03000001);
                  NetworkPrint (MsgUnknownPhysicalAddress (u32 (u32 0x03000001 * 8)));
                  NetworkExit]
               (with_hw_reads 2
                  (opened sample_file 0 (fun _ => 0x03000001) (fun _ => false)
                     (fun _ => xaa))))
    end.
Proof.
  apply (command_list_trigger_is_rerouted 101
           {| rw_physical_address := 0x104018F0; rw_size := SIZE_32; rw_value := 0x1FF |}
           (opened sample_file 0 (fun _ => 0x03000001) (fun _ => false) (fun _ => xaa))).
  - reflexivity.
  - discriminate.
Defined.

(** ** Priming the command-list registers *)

Lemma gpu_register_loop_returns (l : list Z) :
  forall (gpu_regs : list Z) (w : World),
    exists gpu_regs' w',
      for_loop l gpu_regs
        (fun i gpu_regs =>
           bytes <- read_into [x00; x00; x00; x00] ;;
           ret (<[Z.to_nat i := le_word bytes]> gpu_regs)) w = Done gpu_regs' w' /\
      built w w' [] /\ length gpu_regs' = length gpu_regs.
Proof.
  induction l as [|i l IH]; intros gpu_regs w.
  - exists gpu_regs, w. split; [reflexivity|]. split; [apply built_refl|reflexivity].
  - cbn [for_loop]. unfold bind at 1. unfold bind at 1.
    destruct (read_into_returns [x00; x00; x00; x00] w) as (bytes & s & Hread).
    rewrite Hread. unfold ret at 1.
    destruct (IH (<[Z.to_nat i := le_word bytes]> gpu_regs) (with_input s w))
      as (regs' & w' & Hrun & Hb & Hlen).
    exists regs', w'. split; [exact Hrun|].
    split; [eapply (built_trans w _ w' [] []); [apply built_read|exact Hb]|].
    rewrite Hlen. apply length_insert.
Qed.

(** X24. Priming the command-list registers reads the vector of GPU
    registers at the word indices 0x638 and 0x63A whatever its size: with
    [gpu_registers_size] of 0x63A or less, also 0, the access is out of
    range. *)
Theorem priming_needs_the_gpu_registers (header : CTHeader) (w : World) :
  gpu_registers_size (initial_state_offsets header) <= 0x63A ->
  prime_command_list_registers header w = Undefined.
Proof.
  intros Hsize. unfold prime_command_list_registers.
  unfold bind at 1, seekg at 1. unfold bind at 1.
  match goal with
  | |- context [for_loop ?l ?regs _ ?w0] =>
      destruct (gpu_register_loop_returns l regs w0) as (regs' & w' & Hrun & _ & Hlen)
  end.
  rewrite Hrun. rewrite length_replicate in Hlen.
  change (Z.to_nat (0x18E0 / 4)) with 0x638%nat.
  change (Z.to_nat (0x18E8 / 4)) with 0x63A%nat.
  destruct (regs' !! 0x638%nat) as [size|] eqn:H1; [|reflexivity].
  unfold bind at 1, emit at 1.
  rewrite (lookup_ge_None_2 regs' 0x63A%nat); [reflexivity|]. lia.
Qed.

Lemma priming_needs_the_gpu_registers_witness :
  prime_command_list_registers (header_of no_initial_state 0 0) (sample_world sample_file)
  = Undefined.
Proof.
  apply (priming_needs_the_gpu_registers (header_of no_initial_state 0 0)
           (sample_world sample_file)).
  cbn. lia.
Defined.

Lemma lookup_words_from (file : list byte) (k : nat) :
  forall (off : Z) (i : nat),
    (i < k)%nat ->
    words_from file off k !! i = Some (file_word file (off + 4 * Z.of_nat i)).
Proof.
  induction k as [|k IH]; intros off i Hi; [lia|].
  destruct i as [|i]; cbn [words_from lookup list_lookup].
  - rewrite Z.add_0_r. reflexivity.
  - change (words_from file (off + 4) k !! i
            = Some (file_word file (off + 4 * Z.of_nat (S i)))).
    rewrite IH by lia. do 2 f_equal. lia.
Qed.

Lemma gpu_register_loop (file : list byte) (off : Z) (k : nat) :
  forall (first : Z) (gpu_regs : list Z) (w : World),
    contents (input w) = file -> failbit (input w) = false ->
    0 <= off -> 0 <= first ->
    position (input w) = off + 4 * first ->
    off + 4 * (first + Z.of_nat k) <= Z.of_nat (length file) ->
    first + Z.of_nat k <= Z.of_nat (length gpu_regs) ->
    exists w',
      for_loop (seqZ first (Z.of_nat k)) gpu_regs
        (fun i gpu_regs =>
           bytes <- read_into [x00; x00; x00; x00] ;;
           ret (<[Z.to_nat i := le_word bytes]> gpu_regs)) w
      = Done (take (Z.to_nat first) gpu_regs
              ++ words_from file (off + 4 * first) k
              ++ drop (Z.to_nat (first + Z.of_nat k)) gpu_regs) w' /\
      built w w' [].
Proof.
  induction k as [|k IH]; intros first gpu_regs w Hc Hf Hoff Hfirst Hpos Hlen Hrl.
  - change (seqZ first (Z.of_nat 0)) with (@nil Z). cbn [for_loop words_from app].
    exists w. split; [|apply built_refl]. unfold ret.
    rewrite Z.add_0_r, take_drop. reflexivity.
  - rewrite seqZ_cons by lia. cbn [for_loop words_from]. unfold bind at 1.
    unfold bind at 1.
    rewrite read_word_within by (rewrite ?Hc; first [assumption | reflexivity | lia]).
    unfold ret at 1. rewrite Hc, Hpos.
    replace (Z.pred (Z.of_nat (S k))) with (Z.of_nat k) by lia.
    replace (Z.succ first) with (first + 1) by lia.
    match goal with
    | |- context [for_loop _ ?regs1 _ ?w1] =>
        destruct (IH (first + 1) regs1 w1) as (w' & Hrun & Hb)
    end; try reflexivity; try lia.
    + unfold with_input. cbn [input position]. lia.
    + rewrite length_insert. lia.
    + exists w'. split; [|eapply (built_trans w _ w' [] []); [apply built_read|exact Hb]].
      rewrite Hrun. f_equal.
      replace (Z.to_nat (first + 1)) with (S (Z.to_nat first)) by lia.
      rewrite (take_S_r _ _ (le_word (take 4 (drop (Z.to_nat (off + 4 * first)) file))))
        by (apply list_lookup_insert_eq; lia).
      rewrite take_insert_ge by lia.
      rewrite drop_insert_lt by lia.
      rewrite <- app_assoc. cbn [app]. unfold file_word.
      replace (first + 1 + Z.of_nat k) with (first + Z.of_nat (S k)) by lia.
      replace (off + 4 * (first + 1)) with (off + 4 * first + 4) by lia.
      reflexivity.
Qed.

(** X25. With more than 0x63A GPU registers in the snapshot, and the
    snapshot in the file, priming writes two words to the hardware and
    nothing else: the word at byte offset 0x18E0 of the snapshot to the
    command-list size register, then the word at byte offset 0x18E8 to the
    command-list address register. *)
Theorem priming_writes_size_and_address (header : CTHeader) (w : World) :
  let iso := initial_state_offsets header in
  let file := contents (input w) in
  failbit (input w) = false -> 0 <= gpu_registers iso ->
  0x63A < gpu_registers_size iso ->
  gpu_registers iso + 4 * gpu_registers_size iso <= Z.of_nat (length file) ->
  exists w',
    prime_command_list_registers header w = Done tt w' /\
    events w' =
      events w ++
      [GSPGPU_WriteHWRegs (hw_register 0x104018E0)
         (file_word file (gpu_registers iso + 0x18E0)) 4;
       GSPGPU_WriteHWRegs (hw_register 0x104018E8)
         (file_word file (gpu_registers iso + 0x18E8)) 4] /\
    command_list w' = command_list w.
Proof.
  intros iso file Hf Hoff Hsize Hlen.
  unfold prime_command_list_registers. fold iso.
  unfold bind at 1, seekg at 1. unfold bind at 1.
  set (w0 := with_input _ w).
  assert (Hw0 : input w0 = {| contents := file; position := gpu_registers iso;
                              failbit := false |}).
  { subst w0. unfold with_input, stream_seekg. cbn [input]. rewrite Hf. reflexivity. }
  pose proof (gpu_register_loop file (gpu_registers iso)
                (Z.to_nat (gpu_registers_size iso)) 0
                (replicate (Z.to_nat (gpu_registers_size iso)) 0) w0) as Hloop.
  rewrite Hw0, length_replicate, !Z2Nat.id in Hloop by lia.
  cbn [contents position failbit] in Hloop.
  destruct Hloop as (w1 & Hrun & Hb); try reflexivity; try lia.
  rewrite Hrun. change (Z.to_nat 0) with 0%nat. rewrite take_0. cbn [app].
  rewrite drop_ge by (rewrite length_replicate; lia).
  rewrite app_nil_r, Z.mul_0_r, Z.add_0_r.
  change (Z.to_nat (0x18E0 / 4)) with 0x638%nat.
  change (Z.to_nat (0x18E8 / 4)) with 0x63A%nat.
  rewrite !lookup_words_from by lia.
  assert (Hb' : built w w1 []).
  { eapply (built_trans w _ w1 [] []); [apply built_read|exact Hb]. }
  destruct (built_facts w w1 [] Hb') as (Hcl & Hev & _).
  rewrite app_nil_r in Hcl.
  eexists. split; [reflexivity|].
  unfold bind, emit. destruct w1 as [inp cl ev hr kp hv sd ind]. world_simpl. cbn [events command_list] in *.
  rewrite Hev, Hcl, <- app_assoc. split; reflexivity.
Qed.

Lemma priming_writes_size_and_address_witness :
  exists w',
    prime_command_list_registers header_with_gpu_registers (sample_world gpu_register_file)
    = Done tt w' /\
    events w' =
      [GSPGPU_WriteHWRegs (hw_register 0x104018E0) (file_word gpu_register_file 0x18E0) 4;
       GSPGPU_WriteHWRegs (hw_register 0x104018E8) (file_word gpu_register_file 0x18E8) 4].
Proof.
  destruct (priming_writes_size_and_address header_with_gpu_registers
              (sample_world gpu_register_file)) as (w' & Hrun & Hev & _).
  - reflexivity.
  - cbn. lia.
  - cbn. lia.
  - vm_compute. discriminate.
  - exists w'. split; [exact Hrun|exact Hev].
Defined.

(** ** The writes to the other registers *)

(** X26. A register write of 8, 16 or 32 bits to any register but the
    command-list trigger logs the write and is one hardware write of the low
    32 bits of the value, whatever the size class, with the size argument 1, 2
    or 4.  The registers 0x1040001C, 0x1040002C and 0x10400C18 are polled for
    completion afterwards; for every other register the element ends with
    the write.  So the element always returns, with exactly one register
    write, and with 1 to 101 read-backs of the register if it is one of the
    three and none otherwise. *)
Theorem plain_register_write
    (fuel : nat) (pa value size : Z) (sz : RegisterSize) (w : World) :
  pa <> 0x104018F0 ->
  (sz = SIZE_8 /\ size = 1) \/ (sz = SIZE_16 /\ size = 2) \/ (sz = SIZE_32 /\ size = 4) ->
  (101 <= fuel)%nat ->
  let reg := hw_register pa in
  let data := Z.land value 0xFFFFFFFF in
  let polled := (pa =? 0x1040001C) || (pa =? 0x1040002C) || (pa =? 0x10400C18) in
  let written :=
    [NetworkPrint (MsgWriting size data reg (register_name pa));
     GSPGPU_WriteHWRegs reg data size] in
  let element := {| rw_physical_address := pa; rw_size := sz; rw_value := value |} in
  play_register_write fuel element w =
    (if polled
     then wait_for_completion fuel reg 0 (log (written ++ [NetworkPrint MsgWaiting]) w)
     else Done tt (log written w)) /\
  exists w',
    play_register_write fuel element w = Done tt w' /\
    hw_writes (events w') = S (hw_writes (events w)) /\
    (if polled
     then (read_backs (events w) + 1 <= read_backs (events w') <= read_backs (events w) + 101)%nat
     else read_backs (events w') = read_backs (events w)).
Proof.
  intros Hpa Hsz Hfuel reg data polled written element.
  assert (Hrun : play_register_write fuel element w =
            if polled
            then wait_for_completion fuel reg 0 (log (written ++ [NetworkPrint MsgWaiting]) w)
            else Done tt (log written w)).
  { subst reg data polled written element.
    unfold play_register_write. cbn [rw_physical_address rw_size rw_value].
    unfold triggers_operation.
    destruct (Z.eqb_spec pa 0x104018F0) as [|_]; [contradiction|].
    rewrite orb_false_r.
    destruct w as [inp cl ev hr kp hv sd ind].
    destruct Hsz as [[-> ->]|[[-> ->]|[-> ->]]];
      cbn [register_write_size Z.leb Z.eqb Z.compare Pos.compare Pos.compare_cont
           Pos.eqb orb];
      destruct ((pa =? 0x1040001C) || (pa =? 0x1040002C) || (pa =? 0x10400C18));
      run; unfold log; world_simpl; rewrite <- ?app_assoc; reflexivity. }
  split; [exact Hrun|]. rewrite Hrun.
  assert (Hw : forall tail,
            hw_writes (events (log (written ++ tail) w))
            = (S (hw_writes (events w)) + hw_writes tail)%nat /\
            read_backs (events (log (written ++ tail) w))
            = (read_backs (events w) + read_backs tail)%nat).
  { intros tail. subst written. destruct w as [inp cl ev hr kp hv sd ind].
    unfold log. world_simpl.
    rewrite !hw_writes_app, !read_backs_app. cbn. lia. }
  destruct polled.
  - destruct (wait_for_completion_returns reg fuel 0
                (log (written ++ [NetworkPrint MsgWaiting]) w) ltac:(lia) ltac:(lia))
      as (w' & Hwait & Hle & Hge).
    exists w'. split; [exact Hwait|].
    pose proof (wait_for_completion_writes_nothing fuel reg 0 _ w' Hwait) as Hnone.
    destruct (Hw [NetworkPrint MsgWaiting]) as [Hw1 Hw2].
    rewrite Hw1 in Hnone. rewrite Hw2 in Hle, Hge.
    change (Z.to_nat (101 - 0)) with 101%nat in Hle. cbn in Hnone, Hle, Hge.
    split; [lia|]. lia.
  - exists (log written w). split; [reflexivity|].
    destruct (Hw []) as [Hw1 Hw2]. rewrite app_nil_r in Hw1, Hw2.
    rewrite Hw1, Hw2. cbn. lia.
Qed.

Lemma plain_register_write_witness :
  play_register_write 101
    {| rw_physical_address := 0x10400C18; rw_size := SIZE_8;
       rw_value := 0x1234567800ABCDEF |} (sample_world sample_file) =
    (if (0x10400C18 =? 0x1040001C) || (0x10400C18 =? 0x1040002C)
        || (0x10400C18 =? 0x10400C18)
     then wait_for_completion 101 (hw_register 0x10400C18) 0
            (log ([NetworkPrint (MsgWriting 1 (Z.land 0x1234567800ABCDEF 0xFFFFFFFF)
                                   (hw_register 0x10400C18) (register_name 0x10400C18));
                   GSPGPU_WriteHWRegs (hw_register 0x10400C18)
                     (Z.land 0x1234567800ABCDEF 0xFFFFFFFF) 1]
                  ++ [NetworkPrint MsgWaiting]) (sample_world sample_file))
     else Done tt
            (log [NetworkPrint (MsgWriting 1 (Z.land 0x1234567800ABCDEF 0xFFFFFFFF)
                                  (hw_register 0x10400C18) (register_name 0x10400C18));
                  GSPGPU_WriteHWRegs (hw_register 0x10400C18)
                    (Z.land 0x1234567800ABCDEF 0xFFFFFFFF) 1]
               (sample_world sample_file))) /\
  exists w',
    play_register_write 101
      {| rw_physical_address := 0x10400C18; rw_size := SIZE_8;
         rw_value := 0x1234567800ABCDEF |} (sample_world sample_file) = Done tt w' /\
    hw_writes (events w') = S (hw_writes (events (sample_world sample_file))) /\
    (if (0x10400C18 =? 0x1040001C) || (0x10400C18 =? 0x1040002C)
        || (0x10400C18 =? 0x10400C18)
     then (read_backs (events (sample_world sample_file)) + 1 <= read_backs (events w')
           <= read_backs (events (sample_world sample_file)) + 101)%nat
     else read_backs (events w') = read_backs (events (sample_world sample_file))).
Proof.
  apply (plain_register_write 101 0x10400C18 0x1234567800ABCDEF 1 SIZE_8
           (sample_world sample_file)).
  - discriminate.
  - left. split; reflexivity.
  - lia.
Defined.

(** ** Every loop of the playback is bounded *)

Lemma ends_ret {A} (a : A) : ends (ret a).
Proof. intros w. exact I. Qed.

Lemma ends_terminate {A} : ends (@terminate A).
Proof. intros w. exact I. Qed.

Lemma ends_bind {A B} (c : M A) (k : A -> M B) :
  ends c -> (forall a, ends (k a)) -> ends (bind c k).
Proof.
  intros Hc Hk w. unfold bind. specialize (Hc w).
  destruct (c w) as [a w1|w1| |]; try contradiction; [apply Hk|exact I].
Qed.

Lemma ends_emit (e : Event) : ends (emit e).
Proof. intros w. exact I. Qed.

Lemma ends_seekg (off : Z) : ends (seekg off).
Proof. intros w. exact I. Qed.

Lemma ends_read_bytes (n : Z) : ends (read_bytes n).
Proof.
  intros w. unfold read_bytes. destruct (stream_read n (input w)). exact I.
Qed.

Lemma ends_read_count (n : Z) : ends (read_count n).
Proof.
  unfold read_count. destruct (n <? 0); [intros w; exact I|apply ends_read_bytes].
Qed.

Lemma ends_ReadHWRegs (reg : Z) : ends (ReadHWRegs reg).
Proof. intros w. exact I. Qed.

Lemma ends_keysDown_START : ends keysDown_START.
Proof. intros w. exact I. Qed.

Lemma ends_translate (p : Z) : ends (translate p).
Proof.
  unfold translate. destruct (PhysicalToVirtualAddress p).
  - apply ends_ret.
  - repeat (apply ends_bind; [apply ends_emit|intros _]). apply ends_terminate.
Qed.

Ltac ends_steps :=
  repeat first
    [ apply ends_ret | apply ends_terminate | apply ends_emit
    | apply ends_seekg | apply ends_read_bytes | apply ends_read_count
    | apply ends_ReadHWRegs
    | apply ends_keysDown_START | apply ends_translate
    | apply ends_bind; [|intros ?]
    | match goal with
      | |- ends (if ?b then _ else _) => destruct b eqn:?
      end ].

Lemma ends_transfer_chunks (fuel : nat) :
  forall remaining addr,
    (1 <= fuel)%nat -> remaining <= TransferBufferSize * Z.of_nat fuel ->
    ends (transfer_chunks fuel remaining addr).
Proof.
  unfold TransferBufferSize.
  induction fuel as [|fuel IH]; intros remaining addr Hfuel Hrem; [lia|].
  cbn [transfer_chunks]. ends_steps.
  match goal with H : (remaining <=? _) = false |- _ => apply Z.leb_gt in H end.
  unfold TransferBufferSize in *.
  pose proof (Z.mod_le (remaining - 1024) 4294967296 ltac:(lia) ltac:(lia)).
  apply IH; unfold u32; change (2 ^ 32) with 4294967296; lia.
Qed.

Lemma ends_wait_for_completion (fuel : nat) (reg : Z) :
  (101 <= fuel)%nat -> ends (wait_for_completion fuel reg 0).
Proof.
  intros Hfuel w.
  destruct (wait_for_completion_returns reg fuel 0 w ltac:(lia) ltac:(lia))
    as (w' & Hrun & _).
  rewrite Hrun. exact I.
Qed.

Lemma ends_play_element (fuel : nat) (e : CTStreamElement) :
  fuel_for fuel e -> ends (play_element fuel e).
Proof.
  intros [Hfuel He]. destruct e as [|memory_load|register_write|type];
    cbn [play_element].
  - ends_steps.
  - unfold play_memory_load. ends_steps. apply ends_transfer_chunks; [lia|exact He].
  - unfold play_register_write. ends_steps; apply ends_wait_for_completion; exact Hfuel.
  - ends_steps.
Qed.

Lemma ends_play_stream (fuel : nat) (stream : list CTStreamElement) :
  Forall (fuel_for fuel) stream -> ends (play_stream fuel stream).
Proof.
  induction 1 as [|e stream He _ IH]; cbn [play_stream].
  - apply ends_ret.
  - ends_steps; [apply ends_play_element; exact He|exact IH].
Qed.

(** X27. The two loops of the playback are bounded.  Taking every call of
    the platform to return, an element needs at most 101 turns of the
    polling loop, if it is a register write, and at most one turn of the DMA
    loop for every 1024 bytes, if it is a memory load: a stream played with
    at least that many turns allowed for each element returns or terminates
    the process.  The waits inside the platform ([gspWaitForDMA],
    [gspWaitForVBlank]) are calls here, and nothing is said about how long
    they take. *)
Theorem playback_loops_are_bounded
    (fuel : nat) (stream : list CTStreamElement) (w : World) :
  Forall (fuel_for fuel) stream ->
  exists w',
    (exists c, play_stream fuel stream w = Done c w') \/
    play_stream fuel stream w = Terminated w'.
Proof.
  intros Hfuel.
  pose proof (ends_play_stream fuel stream Hfuel w) as Hends.
  destruct (play_stream fuel stream w) as [c w'|w'| |].
  - exists w'. left. exists c. reflexivity.
  - exists w'. right. reflexivity.
  - contradiction.
  - contradiction.
Qed.

Lemma playback_loops_are_bounded_witness :
  exists w',
    (exists c,
       play_stream 101
         [FrameMarker;
          MemoryLoad {| ml_file_offset := 0; ml_size := 4096;
                        ml_physical_address := 0x18000000 |};
          RegisterWrite {| rw_physical_address := 0x1040001C; rw_size := SIZE_32;
                           rw_value := 1 |}]
         (sample_world sample_file) = Done c w') \/
    play_stream 101
      [FrameMarker;
       MemoryLoad {| ml_file_offset := 0; ml_size := 4096;
                     ml_physical_address := 0x18000000 |};
       RegisterWrite {| rw_physical_address := 0x1040001C; rw_size := SIZE_32;
                        rw_value := 1 |}]
      (sample_world sample_file) = Terminated w'.
Proof.
  apply (playback_loops_are_bounded 101
           [FrameMarker;
            MemoryLoad {| ml_file_offset := 0; ml_size := 4096;
                          ml_physical_address := 0x18000000 |};
            RegisterWrite {| rw_physical_address := 0x1040001C; rw_size := SIZE_32;
                             rw_value := 1 |}]
           (sample_world sample_file)).
  apply List.Forall_cons; [split; [lia|exact I]|].
  apply List.Forall_cons; [split; [lia|unfold TransferBufferSize; cbn [ml_size]; lia]|].
  apply List.Forall_cons; [split; [lia|exact I]|].
  apply List.Forall_nil.
Defined.
